(** * go-qrcode: the encoder pipeline of qrcode.go and option.go

    A shallow embedding of [New], [newWithForcedVersion], [QRCode.encode],
    [QRCode.addTerminatorBits], [QRCode.addPadding], [QRCode.encodeBlocks],
    [QRCode.Set] and the options of option.go.

    [QRCode.Bitmap], [QRCode.ToString] and the sizes and the layout that
    [QRCode.Image] computes are embedded as well.

    Go [int]s are modelled as [Z]: every quantity the pipeline computes is a
    bit count, a codeword count or a small index, far below 2^63.  The width
    and the height of an image come from the caller, and [Image_layout]
    computes with them in wrap-around arithmetic ([int_wrap]).  A Go call
    can return normally, return an error, panic ([log.Panic], [log.Panicf],
    a run-time panic) or end the process ([log.Fatalf]); [outcome] keeps the
    four apart. *)

From Stdlib Require Import String Ascii ZArith List Bool Lia Permutation.
From Stdlib Require Strings.Byte.
Import ListNotations.
Open Scope Z_scope.

(** ** Outcomes of a Go call *)

(** A Go [error] made by [errors.New]: its message. *)
Definition error := string.

Inductive outcome (A : Type) : Type :=
| Ok (a : A)            (* normal return, err == nil *)
| Err (e : error)       (* normal return, err != nil *)
| Panic (msg : string)  (* log.Panic, log.Panicf, run-time panic *)
| Fatal (msg : string)  (* log.Fatalf: the process exits *)
| OutOfFuel.            (* a loop of the model ran out of fuel; never of the code *)

Arguments Ok {A} a.
Arguments Err {A} e.
Arguments Panic {A} msg.
Arguments Fatal {A} msg.
Arguments OutOfFuel {A}.

Definition bind {A B : Type} (m : outcome A) (k : A -> outcome B) : outcome B :=
  match m with
  | Ok a => k a
  | Err e => Err e
  | Panic msg => Panic msg
  | Fatal msg => Fatal msg
  | OutOfFuel => OutOfFuel
  end.

Notation "x <- m ;; k" := (bind m (fun x => k))
  (at level 61, m at next level, right associativity).

Definition errContentTooLong : error := "content too long to encode"%string.
Definition errCannotFindVersion : error := "cannot find QR Code version"%string.
Definition msgNilDereference : string := "invalid memory address or nil pointer dereference"%string.
Definition msgIndexOutOfRange : string := "index out of range"%string.
Definition msgMakeNegative : string := "makeslice: len out of range"%string.
Definition msgInvalidVersion : string := "Invalid version %d (expected 1-40 inclusive)"%string.
Definition msgEmptyModules : string := "bug: numEmptyModules is %d (expected 0) (version=%d)"%string.
Definition msgPaddingLength : string := "BUG: got len %d, expected %d"%string.
Definition msgSubstrRange : string := "Out of range start=%d end=%d numBits=%d"%string.
Definition msgDivideByZero : string := "integer divide by zero"%string.

(** ** Go's int, where a caller chooses the value *)

(** The 64-bit int wraps around. *)
Definition int_wrap (x : Z) : Z := (x + 2 ^ 63) mod 2 ^ 64 - 2 ^ 63.

Definition int_mul (a b : Z) : Z := int_wrap (a * b).

Definition int_sub (a b : Z) : Z := int_wrap (a - b).

(** The quotient truncates toward zero; a zero divisor panics. *)
Definition int_div (a b : Z) : outcome Z :=
  if b =? 0 then Panic msgDivideByZero else Ok (int_wrap (Z.quot a b)).

(** ** Package bitset *)

Module bitset.

(** Modelled from the spec: package bitset is not among the sources.  §3 and
    §4.1 give an ordered, append-only sequence of bits with append of single
    bits, of the low n bits of an integer (most significant first), of
    another buffer, of n zero bits, the substring [start, end) and the
    length; a substring with invalid bounds fails. *)
Definition Bitset := list bool.

Definition New (bits : list bool) : Bitset := bits.

Definition Len (b : Bitset) : Z := Z.of_nat (length b).

Definition Append (b other : Bitset) : Bitset := b ++ other.

Definition AppendNumBools (b : Bitset) (num : Z) (value : bool) : Bitset :=
  b ++ repeat value (Z.to_nat num).

Definition Substr (b : Bitset) (start end_ : Z) : outcome Bitset :=
  if (start <? 0) || (end_ <? start) || (Len b <? end_)
  then Panic msgSubstrRange
  else Ok (firstn (Z.to_nat (end_ - start)) (skipn (Z.to_nat start) b)).

(** The low [numBits] bits of [value], most significant first. *)
Fixpoint bitsOf (numBits : nat) (value : Z) : list bool :=
  match numBits with
  | O => []
  | S n => Z.testbit value (Z.of_nat n) :: bitsOf n value
  end.

Definition AppendUint32 (b : Bitset) (value : Z) (numBits : Z) : Bitset :=
  b ++ bitsOf (Z.to_nat numBits) value.

Definition AppendByte (b : Bitset) (value : Z) (numBits : Z) : Bitset :=
  b ++ bitsOf (Z.to_nat numBits) value.

(** The value of a run of bits read most significant first. *)
Definition valueOf (bits : list bool) : Z :=
  fold_left (fun acc (x : bool) => 2 * acc + (if x then 1 else 0)) bits 0.

End bitset.

Abbreviation Bitset := bitset.Bitset.

(** ** Versions (version.go is not among the sources) *)

(** The recovery levels named in the package comment of qrcode.go.  [Low] is
    the zero value, the level of a [QRCode] literal that sets none. *)
Inductive RecoveryLevel : Type := Low | Medium | High | Highest.

Definition RecoveryLevel_eqb (a b : RecoveryLevel) : bool :=
  match a, b with
  | Low, Low | Medium, Medium | High, High | Highest, Highest => true
  | _, _ => false
  end.

(** The three encoder types [New] iterates over, one per version class. *)
Inductive dataEncoderType : Type :=
| dataEncoderType1To9
| dataEncoderType10To26
| dataEncoderType27To40.

(** Modelled from the spec: the declaration of a block group is missing; the
    fields are the ones [encodeBlocks] reads, §3 "each group carries {block
    count, total codewords per block, data codewords per block}". *)
Record block : Type := mkBlock {
  numBlocks : Z;
  numCodewords : Z;
  numDataCodewords : Z
}.

(** Modelled from the spec: the declaration of [qrCodeVersion] is missing; the
    fields are the ones qrcode.go reads ([version], [block],
    [numRemainderBits]) and §3 lists, with the level of the descriptor and the
    quiet-zone size that [setQuietZoneSize] configures (§4.8). *)
Record qrCodeVersion : Type := mkVersion {
  version : Z;
  v_level : RecoveryLevel;
  v_dataEncoderType : dataEncoderType;
  v_block : list block;
  numRemainderBits : Z;
  quietZoneSize : Z
}.

(** The zero value of the struct, the [version] field of a [QRCode] literal. *)
Definition qrCodeVersion_zero : qrCodeVersion :=
  mkVersion 0 Low dataEncoderType1To9 [] 0 0.

(** Modelled from the spec: §3 "derived total data codewords"; eight bits per
    codeword. *)
Definition numDataCodewordsTotal (v : qrCodeVersion) : Z :=
  fold_left (fun acc b => acc + numBlocks b * numDataCodewords b) (v_block v) 0.

Definition numDataBits (v : qrCodeVersion) : Z := 8 * numDataCodewordsTotal v.

(** Modelled from the spec: the number of blocks of a descriptor, the sum of
    the block counts of its groups (§3). *)
Definition qrCodeVersion_numBlocks (v : qrCodeVersion) : Z :=
  fold_left (fun acc b => acc + numBlocks b) (v_block v) 0.

(** Modelled from the spec: §4.6 "zero-pad to the next multiple of 8 bits". *)
Definition numBitsToPadToCodeword (v : qrCodeVersion) (numDataBits : Z) : Z :=
  (8 - numDataBits mod 8) mod 8.

(** Modelled from the spec: §4.5 "terminator count = min(4, numDataBits -
    encoded_bits)". *)
Definition numTerminatorBitsRequired (v : qrCodeVersion) (numBits : Z) : Z :=
  Z.min 4 (numDataBits v - numBits).

(** Modelled from the spec: §3 "symbol size = 17 + 4·version". *)
Definition symbolSize (v : qrCodeVersion) : Z := 17 + 4 * version v.

(** Modelled from the spec: §4.8 and §6, the quiet-zone size of a descriptor
    is configurable; the setter stores the size it is given. *)
Definition setQuietZoneSize (v : qrCodeVersion) (size : Z) : qrCodeVersion :=
  mkVersion (version v) (v_level v) (v_dataEncoderType v) (v_block v)
            (numRemainderBits v) size.

(** Modelled from the spec: the version range of a class (§3). *)
Definition minVersion (t : dataEncoderType) : Z :=
  match t with
  | dataEncoderType1To9 => 1
  | dataEncoderType10To26 => 10
  | dataEncoderType27To40 => 27
  end.

Definition maxVersion (t : dataEncoderType) : Z :=
  match t with
  | dataEncoderType1To9 => 9
  | dataEncoderType10To26 => 26
  | dataEncoderType27To40 => 40
  end.

(** ** Colours (image/color) *)

Inductive color : Type :=
| color_Black
| color_White
| color_RGBA (r g b a : Z).

(** ** The parts of the package that qrcode.go calls and does not define *)

(** encoder.go, version.go (the table), symbol.go, regular_symbol.go and
    package reedsolomon are called by qrcode.go; the pipeline is defined over
    any implementation of them.

    - [versions]: the table of version descriptors;
    - [dataEncoder_encode t data]: [newDataEncoder(t).encode(data)];
    - [reedsolomon_Encode data numECBytes]: [reedsolomon.Encode];
    - [buildRegularSymbol version mask data margin];
    - [numEmptyModules], [penaltyScore], [bitmap]: the methods of [*symbol]. *)
Class Collaborators : Type := {
  symbol : Type;
  versions : list qrCodeVersion;
  dataEncoder_encode : dataEncoderType -> list Byte.byte -> outcome Bitset;
  reedsolomon_Encode : Bitset -> Z -> Bitset;
  buildRegularSymbol : qrCodeVersion -> Z -> Bitset -> Z -> outcome symbol;
  numEmptyModules : symbol -> Z;
  penaltyScore : symbol -> Z;
  bitmap : symbol -> list (list bool)
}.

(** Modelled from the spec: [getQRCodeVersion] is missing; the descriptor of
    a (level, version) pair in the table (§3 "one per (version, level)
    pair"), nil when there is none. *)
Definition getQRCodeVersion `{C : Collaborators} (level : RecoveryLevel) (ver : Z)
  : option qrCodeVersion :=
  find (fun v => RecoveryLevel_eqb (v_level v) level && (version v =? ver)) versions.

(** Modelled from the spec: [chooseQRCodeVersion] is missing; §4.5 "find the
    smallest version v such that numDataBits(v, level) >= encoded_bits",
    within the class of the encoder, where up to four terminator bits follow
    and "may be fewer at the upper boundary"; nil when the class has none. *)
Definition fitsVersion (level : RecoveryLevel) (t : dataEncoderType) (numBits : Z)
  (v : qrCodeVersion) : bool :=
  RecoveryLevel_eqb (v_level v) level
  && (minVersion t <=? version v) && (version v <=? maxVersion t)
  && (numBits <=? numDataBits v).

Definition smallerVersion (best : option qrCodeVersion) (v : qrCodeVersion)
  : option qrCodeVersion :=
  match best with
  | None => Some v
  | Some b => if version v <? version b then Some v else Some b
  end.

Definition chooseQRCodeVersion `{C : Collaborators} (level : RecoveryLevel)
  (t : dataEncoderType) (numBits : Z) : option qrCodeVersion :=
  fold_left smallerVersion (filter (fitsVersion level t numBits) versions) None.

(** ** qrcode.go *)

Section Pipeline.

Context `{C : Collaborators}.

(** type QRCode struct; pointers and interfaces that can be nil are options. *)
Record QRCode : Type := mkQRCode {
  Content : string;
  level : RecoveryLevel;
  VersionNumber : Z;
  q_ForegroundColor : option color;
  q_BackgroundColor : option color;
  encoder : option dataEncoderType;
  q_version : qrCodeVersion;
  data : option Bitset;
  q_symbol : option symbol;
  mask : Z;
  width : Z;
  height : Z;
  margin : Z;
  q_QuitZoneSize : Z
}.

Definition with_level (q : QRCode) (x : RecoveryLevel) : QRCode :=
  mkQRCode (Content q) x (VersionNumber q) (q_ForegroundColor q) (q_BackgroundColor q)
    (encoder q) (q_version q) (data q) (q_symbol q) (mask q)
    (width q) (height q) (margin q) (q_QuitZoneSize q).

Definition with_VersionNumber (q : QRCode) (x : Z) : QRCode :=
  mkQRCode (Content q) (level q) x (q_ForegroundColor q) (q_BackgroundColor q)
    (encoder q) (q_version q) (data q) (q_symbol q) (mask q)
    (width q) (height q) (margin q) (q_QuitZoneSize q).

Definition with_ForegroundColor (q : QRCode) (x : option color) : QRCode :=
  mkQRCode (Content q) (level q) (VersionNumber q) x (q_BackgroundColor q)
    (encoder q) (q_version q) (data q) (q_symbol q) (mask q)
    (width q) (height q) (margin q) (q_QuitZoneSize q).

Definition with_BackgroundColor (q : QRCode) (x : option color) : QRCode :=
  mkQRCode (Content q) (level q) (VersionNumber q) (q_ForegroundColor q) x
    (encoder q) (q_version q) (data q) (q_symbol q) (mask q)
    (width q) (height q) (margin q) (q_QuitZoneSize q).

Definition with_encoder (q : QRCode) (x : option dataEncoderType) : QRCode :=
  mkQRCode (Content q) (level q) (VersionNumber q) (q_ForegroundColor q)
    (q_BackgroundColor q) x (q_version q) (data q) (q_symbol q) (mask q)
    (width q) (height q) (margin q) (q_QuitZoneSize q).

Definition with_version (q : QRCode) (x : qrCodeVersion) : QRCode :=
  mkQRCode (Content q) (level q) (VersionNumber q) (q_ForegroundColor q)
    (q_BackgroundColor q) (encoder q) x (data q) (q_symbol q) (mask q)
    (width q) (height q) (margin q) (q_QuitZoneSize q).

Definition with_data (q : QRCode) (x : option Bitset) : QRCode :=
  mkQRCode (Content q) (level q) (VersionNumber q) (q_ForegroundColor q)
    (q_BackgroundColor q) (encoder q) (q_version q) x (q_symbol q) (mask q)
    (width q) (height q) (margin q) (q_QuitZoneSize q).

Definition with_symbol_mask (q : QRCode) (s : option symbol) (m : Z) : QRCode :=
  mkQRCode (Content q) (level q) (VersionNumber q) (q_ForegroundColor q)
    (q_BackgroundColor q) (encoder q) (q_version q) (data q) s m
    (width q) (height q) (margin q) (q_QuitZoneSize q).

Definition with_width (q : QRCode) (x : Z) : QRCode :=
  mkQRCode (Content q) (level q) (VersionNumber q) (q_ForegroundColor q)
    (q_BackgroundColor q) (encoder q) (q_version q) (data q) (q_symbol q) (mask q)
    x (height q) (margin q) (q_QuitZoneSize q).

Definition with_height (q : QRCode) (x : Z) : QRCode :=
  mkQRCode (Content q) (level q) (VersionNumber q) (q_ForegroundColor q)
    (q_BackgroundColor q) (encoder q) (q_version q) (data q) (q_symbol q) (mask q)
    (width q) x (margin q) (q_QuitZoneSize q).

Definition with_margin (q : QRCode) (x : Z) : QRCode :=
  mkQRCode (Content q) (level q) (VersionNumber q) (q_ForegroundColor q)
    (q_BackgroundColor q) (encoder q) (q_version q) (data q) (q_symbol q) (mask q)
    (width q) (height q) x (q_QuitZoneSize q).

(** ** option.go *)

(** type Option func(q *QRCode): the effect of the call on the struct. *)
Definition Option : Type := QRCode -> QRCode.

Definition Width (w : Z) : Option := fun q => with_width q w.

Definition Height (h : Z) : Option := fun q => with_height q h.

Definition Margin (m : Z) : Option := fun q => with_margin q m.

Definition QuitZoneSize (s : Z) : Option :=
  fun q => with_version q (setQuietZoneSize (q_version q) s).

Definition ForegroundColor (c : option color) : Option :=
  fun q =>
    match c with
    | None => with_ForegroundColor q (Some color_Black)
    | Some _ => with_ForegroundColor q c
    end.

Definition BackgroundColor (c : option color) : Option :=
  fun q =>
    match c with
    | None => with_BackgroundColor q (Some color_White)
    | Some _ => with_BackgroundColor q c
    end.

Definition Level (l : RecoveryLevel) : Option := fun q => with_level q l.

Definition Version (v : Z) : Option := fun q => with_VersionNumber q v.

(** The options option.go can build. *)
Inductive package_option : Option -> Prop :=
| po_Width w : package_option (Width w)
| po_Height h : package_option (Height h)
| po_Margin m : package_option (Margin m)
| po_QuitZoneSize s : package_option (QuitZoneSize s)
| po_ForegroundColor c : package_option (ForegroundColor c)
| po_BackgroundColor c : package_option (BackgroundColor c)
| po_Level l : package_option (Level l)
| po_Version v : package_option (Version v).

(** func (q *QRCode) Set(opts ...Option) *)
Definition QRCode_Set (q : QRCode) (opts : list Option) : QRCode :=
  let q := fold_left (fun q opt => opt q) opts q in
  let q := match q_ForegroundColor q with
           | None => with_ForegroundColor q (Some color_Black)
           | Some _ => q
           end in
  match q_BackgroundColor q with
  | None => with_BackgroundColor q (Some color_White)
  | Some _ => q
  end.

(** The literal [&QRCode{Content: content}]: every other field is zero. *)
Definition QRCode_literal (content : string) : QRCode :=
  mkQRCode content Low 0 None None None qrCodeVersion_zero None None 0 0 0 0 0.

(** ** The encoder *)

(** func (q *QRCode) addTerminatorBits(numTerminatorBits int) *)
Definition addTerminatorBits (q : QRCode) (numTerminatorBits : Z) : outcome QRCode :=
  match data q with
  | None => Panic msgNilDereference
  | Some d => Ok (with_data q (Some (bitset.AppendNumBools d numTerminatorBits false)))
  end.

(** Pad codewords 0b11101100 and 0b00010001. *)
Definition padding (i : Z) : Bitset :=
  if i =? 0
  then bitset.New [true; true; true; false; true; true; false; false]
  else bitset.New [false; false; false; true; false; false; false; true].

(** The loop [for numDataBits-q.data.Len() >= 8] of addPadding; every turn
    adds eight bits, so [Z.to_nat numDataBits] turns of fuel are never used
    up ([padLoop_fuel]). *)
Fixpoint padLoop (fuel : nat) (numDataBits : Z) (d : Bitset) (i : Z) : outcome Bitset :=
  if 8 <=? numDataBits - bitset.Len d then
    match fuel with
    | O => OutOfFuel
    | S fuel' => padLoop fuel' numDataBits (bitset.Append d (padding i)) (1 - i)
    end
  else Ok d.

(** func (q *QRCode) addPadding() *)
Definition addPadding (q : QRCode) : outcome QRCode :=
  let numDataBits := numDataBits (q_version q) in
  match data q with
  | None => Panic msgNilDereference
  | Some d =>
      if bitset.Len d =? numDataBits then Ok q
      else
        let d1 := bitset.AppendNumBools d
                    (numBitsToPadToCodeword (q_version q) (bitset.Len d)) false in
        d2 <- padLoop (Z.to_nat numDataBits) numDataBits d1 0 ;;
        if bitset.Len d2 =? numDataBits
        then Ok (with_data q (Some d2))
        else Panic msgPaddingLength
  end.

(** type dataBlock struct, local to encodeBlocks. *)
Record dataBlock : Type := mkDataBlock {
  db_data : option Bitset;
  ecStartOffset : Z
}.

Definition dataBlock_zero : dataBlock := mkDataBlock None 0.

(** [block[blockID] = x]; [None] when the index is out of range. *)
Fixpoint setBlock (blocks : list dataBlock) (blockID : nat) (x : dataBlock)
  : option (list dataBlock) :=
  match blocks, blockID with
  | [], _ => None
  | _ :: rest, O => Some (x :: rest)
  | b :: rest, S n =>
      match setBlock rest n x with
      | Some rest' => Some (b :: rest')
      | None => None
      end
  end.

(** The state of the splitting loops: start, end, blockID and the slice. *)
Record splitState : Type := mkSplit {
  sp_start : Z;
  sp_end : Z;
  sp_blockID : Z;
  sp_block : list dataBlock
}.

(** One turn of [for j := 0; j < b.numBlocks; j++]. *)
Definition splitStep (d : Bitset) (b : block) (st : splitState) : outcome splitState :=
  let start := sp_end st in
  let end_ := start + numDataCodewords b * 8 in
  let numErrorCodewords := numCodewords b - numDataCodewords b in
  sub <- bitset.Substr d start end_ ;;
  let x := mkDataBlock (Some (reedsolomon_Encode sub numErrorCodewords)) (end_ - start) in
  if sp_blockID st <? 0 then Panic msgIndexOutOfRange
  else
    match setBlock (sp_block st) (Z.to_nat (sp_blockID st)) x with
    | None => Panic msgIndexOutOfRange
    | Some blocks => Ok (mkSplit start end_ (sp_blockID st + 1) blocks)
    end.

Fixpoint splitGroup (d : Bitset) (b : block) (turns : nat) (st : splitState)
  : outcome splitState :=
  match turns with
  | O => Ok st
  | S n => st' <- splitStep d b st ;; splitGroup d b n st'
  end.

(** [for _, b := range q.version.block]. *)
Fixpoint splitBlocks (d : Bitset) (groups : list block) (st : splitState)
  : outcome splitState :=
  match groups with
  | [] => Ok st
  | b :: rest =>
      st' <- splitGroup d b (Z.to_nat (numBlocks b)) st ;;
      splitBlocks d rest st'
  end.

(** One pass [for j, b := range block] of "Combine data blocks" at offset i. *)
Fixpoint combineDataRow (i : Z) (blocks : list dataBlock) (result : Bitset)
  (working : bool) : outcome (Bitset * bool) :=
  match blocks with
  | [] => Ok (result, working)
  | b :: rest =>
      if ecStartOffset b <=? i then combineDataRow i rest result working
      else
        match db_data b with
        | None => Panic msgNilDereference
        | Some bd =>
            s <- bitset.Substr bd i (i + 8) ;;
            combineDataRow i rest (bitset.Append result s) true
        end
  end.

(** [for i := 0; working; i += 8] over the data codewords. *)
Fixpoint combineData (fuel : nat) (i : Z) (blocks : list dataBlock) (result : Bitset)
  : outcome Bitset :=
  match fuel with
  | O => OutOfFuel
  | S fuel' =>
      r <- combineDataRow i blocks result false ;;
      if snd r then combineData fuel' (i + 8) blocks (fst r) else Ok (fst r)
  end.

(** One pass of "Combine error correction blocks" at offset i. *)
Fixpoint combineECRow (i : Z) (blocks : list dataBlock) (result : Bitset)
  (working : bool) : outcome (Bitset * bool) :=
  match blocks with
  | [] => Ok (result, working)
  | b :: rest =>
      let offset := i + ecStartOffset b in
      match db_data b with
      | None => Panic msgNilDereference
      | Some bd =>
          if bitset.Len bd <=? offset then combineECRow i rest result working
          else
            s <- bitset.Substr bd offset (offset + 8) ;;
            combineECRow i rest (bitset.Append result s) true
      end
  end.

Fixpoint combineEC (fuel : nat) (i : Z) (blocks : list dataBlock) (result : Bitset)
  : outcome Bitset :=
  match fuel with
  | O => OutOfFuel
  | S fuel' =>
      r <- combineECRow i blocks result false ;;
      if snd r then combineEC fuel' (i + 8) blocks (fst r) else Ok (fst r)
  end.

(** Fuel for the two combining loops: a block stays in the loop while the
    offset is below its length, and the offset grows by eight every turn. *)
Definition dataLen (b : dataBlock) : Z :=
  match db_data b with
  | None => 0
  | Some bd => bitset.Len bd
  end.

Definition combineDataFuel (blocks : list dataBlock) : nat :=
  S (Z.to_nat (fold_right Z.max 0 (map ecStartOffset blocks))).

Definition combineECFuel (blocks : list dataBlock) : nat :=
  S (Z.to_nat (fold_right Z.max 0 (map (fun b => dataLen b - ecStartOffset b) blocks))).

(** func (q *QRCode) encodeBlocks(): the final data sequence. *)
Definition encodeBlocks (q : QRCode) : outcome Bitset :=
  let n := qrCodeVersion_numBlocks (q_version q) in
  if n <? 0 then Panic msgMakeNegative
  else
    let block0 := repeat dataBlock_zero (Z.to_nat n) in
    match data q with
    | None =>
        (* q.data.Substr on a nil pointer, reached when a block is split *)
        if existsb (fun b => 0 <? numBlocks b) (v_block (q_version q))
        then Panic msgNilDereference
        else
          r1 <- combineData (combineDataFuel block0) 0 block0 (bitset.New []) ;;
          r2 <- combineEC (combineECFuel block0) 0 block0 r1 ;;
          Ok (bitset.AppendNumBools r2 (numRemainderBits (q_version q)) false)
    | Some d =>
        st <- splitBlocks d (v_block (q_version q)) (mkSplit 0 0 0 block0) ;;
        let blocks := sp_block st in
        r1 <- combineData (combineDataFuel blocks) 0 blocks (bitset.New []) ;;
        r2 <- combineEC (combineECFuel blocks) 0 blocks r1 ;;
        Ok (bitset.AppendNumBools r2 (numRemainderBits (q_version q)) false)
    end.

(** The loop [for mask := 0; mask < numMasks; mask++] of encode, over the
    masks still to try. *)
Fixpoint encodeMasks (masks : list Z) (encoded : Bitset) (q : QRCode) (penalty : Z)
  : outcome QRCode :=
  match masks with
  | [] => Ok q
  | m :: rest =>
      match buildRegularSymbol (q_version q) m encoded (margin q) with
      | Ok s =>
          if numEmptyModules s =? 0 then
            let p := penaltyScore s in
            match q_symbol q with
            | None => encodeMasks rest encoded (with_symbol_mask q (Some s) m) p
            | Some _ =>
                if p <? penalty
                then encodeMasks rest encoded (with_symbol_mask q (Some s) m) p
                else encodeMasks rest encoded q penalty
            end
          else Panic msgEmptyModules
      | Err e => Panic e
      | Panic msg => Panic msg
      | Fatal msg => Fatal msg
      | OutOfFuel => OutOfFuel
      end
  end.

Definition numMasks : Z := 8.

Definition allMasks : list Z := map Z.of_nat (seq 0 (Z.to_nat numMasks)).

(** func (q *QRCode) encode(numTerminatorBits int) *)
Definition encode (q : QRCode) (numTerminatorBits : Z) : outcome QRCode :=
  q1 <- addTerminatorBits q numTerminatorBits ;;
  q2 <- addPadding q1 ;;
  encoded <- encodeBlocks q2 ;;
  encodeMasks allMasks encoded q2 0.

(** The variables of the loop of New over the encoder types. *)
Record chooserState : Type := mkChooser {
  cs_encoder : option dataEncoderType;
  cs_encoded : option Bitset;
  cs_chosenVersion : option qrCodeVersion;
  cs_err : option error
}.

(** [for _, t := range encoders] of New. *)
Fixpoint chooseLoop (content : list Byte.byte) (lvl : RecoveryLevel)
  (encoders : list dataEncoderType) (st : chooserState) : outcome chooserState :=
  match encoders with
  | [] => Ok st
  | t :: rest =>
      match dataEncoder_encode t content with
      | Ok encoded =>
          match chooseQRCodeVersion lvl t (bitset.Len encoded) with
          | Some v => Ok (mkChooser (Some t) (Some encoded) (Some v) None)
          | None => chooseLoop content lvl rest (mkChooser (Some t) (Some encoded) None None)
          end
      | Err e =>
          chooseLoop content lvl rest
            (mkChooser (Some t) None (cs_chosenVersion st) (Some e))
      | Panic msg => Panic msg
      | Fatal msg => Fatal msg
      | OutOfFuel => OutOfFuel
      end
  end.

Definition encoders : list dataEncoderType :=
  [dataEncoderType1To9; dataEncoderType10To26; dataEncoderType27To40].

(** func New(content string, opts ...Option): the pair of the QRCode and
    the error. *)
Definition New (content : string) (opts : list Option) : outcome QRCode :=
  let q := QRCode_Set (QRCode_literal content) opts in
  st <- chooseLoop (list_byte_of_string content) (level q) encoders
          (mkChooser None None None None) ;;
  match cs_err st with
  | Some err => Err err
  | None =>
      match cs_chosenVersion st with
      | None => Err errContentTooLong
      | Some chosenVersion =>
          match cs_encoded st with
          | None => Panic msgNilDereference
          | Some encoded =>
              let q := with_VersionNumber q (version chosenVersion) in
              let q := with_encoder q (cs_encoder st) in
              let q := with_data q (Some encoded) in
              let q := with_version q chosenVersion in
              let q := with_version q (setQuietZoneSize (q_version q) (q_QuitZoneSize q)) in
              encode q (numTerminatorBitsRequired chosenVersion (bitset.Len encoded))
          end
      end
  end.

(** The [switch] of newWithForcedVersion; its default case is
    [log.Fatalf]. *)
Definition forcedEncoder (ver : Z) : outcome dataEncoderType :=
  if (1 <=? ver) && (ver <=? 9) then Ok dataEncoderType1To9
  else if (10 <=? ver) && (ver <=? 26) then Ok dataEncoderType10To26
  else if (27 <=? ver) && (ver <=? 40) then Ok dataEncoderType27To40
  else Fatal msgInvalidVersion.

(** func newWithForcedVersion(content string, version int, level RecoveryLevel) *)
Definition newWithForcedVersion (content : string) (ver : Z) (lvl : RecoveryLevel)
  : outcome QRCode :=
  enc <- forcedEncoder ver ;;
  encoded <- dataEncoder_encode enc (list_byte_of_string content) ;;
  match getQRCodeVersion lvl ver with
  | None => Err errCannotFindVersion
  | Some chosenVersion =>
      let q := mkQRCode content lvl (version chosenVersion)
                 (Some color_Black) (Some color_White)
                 (Some enc) chosenVersion (Some encoded) None 0 0 0 0 0 in
      encode q (numTerminatorBitsRequired chosenVersion (bitset.Len encoded))
  end.

(** func (q *QRCode) Bitmap(): q.symbol.bitmap(). *)
Definition Bitmap (q : QRCode) : outcome (list (list bool)) :=
  match q_symbol q with
  | None => Panic msgNilDereference
  | Some s => Ok (bitmap s)
  end.

(** The two bytes of the two spaces and the six of the two U+2588 that
    ToString writes for a module. *)
Definition glyphSpaces : string := String " " (String " " EmptyString).

Definition fullBlock (rest : string) : string :=
  String (ascii_of_nat 226) (String (ascii_of_nat 150) (String (ascii_of_nat 136) rest)).

Definition glyphBlocks : string := fullBlock (fullBlock EmptyString).

Definition newline : string := String (ascii_of_nat 10) EmptyString.

(** The body of [for x := range bits[y]]: one WriteString. *)
Definition writeModule (inverseColor : bool) (buf : string) (v : bool) : string :=
  if negb (Bool.eqb v inverseColor)
  then (buf ++ glyphSpaces)%string
  else (buf ++ glyphBlocks)%string.

(** The body of [for y := range bits]. *)
Definition writeRow (inverseColor : bool) (buf : string) (row : list bool) : string :=
  (fold_left (writeModule inverseColor) row buf ++ newline)%string.

(** func (q *QRCode) ToString(inverseColor bool) string *)
Definition ToString (q : QRCode) (inverseColor : bool) : outcome string :=
  bits <- Bitmap q ;;
  Ok (fold_left (writeRow inverseColor) bits EmptyString).

(** What Image has computed when it allocates the image. *)
Record imageLayout : Type := mkLayout {
  pixelsPerModuleX : Z;
  pixelsPerModuleY : Z;
  offsetX : Z;
  offsetY : Z
}.

(** func (q *QRCode) Image(), up to [rect]: the width and the height it
    stores in q and the layout it draws with.  [q.symbol.size] is read from
    the symbol, whose struct is not among the sources: [symbol_size]. *)
Definition Image_layout (symbol_size : symbol -> Z) (q : QRCode)
  : outcome (QRCode * imageLayout) :=
  match q_symbol q with
  | None => Panic msgNilDereference
  | Some s =>
      let realSize := symbol_size s in
      let q := if width q <? 0
               then with_width q (int_mul (int_mul (width q) (-1)) realSize) else q in
      let q := if height q <? 0
               then with_height q (int_mul (int_mul (height q) (-1)) realSize) else q in
      let q := if width q <? realSize then with_width q realSize else q in
      let q := if height q <? realSize then with_height q realSize else q in
      ppmX <- int_div (width q) realSize ;;
      ppmY <- int_div (height q) realSize ;;
      ox <- int_div (int_sub (width q) (int_mul realSize ppmX)) 2 ;;
      oy <- int_div (int_sub (height q) (int_mul realSize ppmY)) 2 ;;
      Ok (q, mkLayout ppmX ppmY ox oy)
  end.

End Pipeline.

(** ** The vocabulary of the properties *)

Section Vocabulary.

Context `{C : Collaborators}.

(** 0xEC at the even places, 0x11 at the odd ones. *)
Definition padByte (k : nat) : Z := if Nat.even k then 236 else 17.

(** [n] pad codewords, the first one 0xEC, as bits. *)
Definition padCodewords (n : nat) : Bitset :=
  flat_map (fun k => bitset.bitsOf 8 (padByte k)) (seq 0 n).

Definition parityIndex (k : nat) : Z := if Nat.even k then 0 else 1.

(** The candidate symbol of a mask. *)
Definition candidate (q : QRCode) (encoded : Bitset) (m : Z) : outcome symbol :=
  buildRegularSymbol (q_version q) m encoded (margin q).

(** The QRCode as encode sees it after the terminator and the padding. *)
Definition padded (q : QRCode) (numTerminatorBits : Z) : outcome QRCode :=
  q1 <- addTerminatorBits q numTerminatorBits ;; addPadding q1.

(** A class does not take the payload at a level: its encoder fails, or no
    version of the class has, at that level, room for its encoding. *)
Definition rejects (lvl : RecoveryLevel) (content : list Byte.byte) (t : dataEncoderType)
  : Prop :=
  (exists e, dataEncoder_encode t content = Err e)
  \/ (exists encoded,
        dataEncoder_encode t content = Ok encoded
        /\ forall v, In v versions -> fitsVersion lvl t (bitset.Len encoded) v = false).

(** The error left in [err] when the loop has gone through every class. *)
Fixpoint finalErr (content : list Byte.byte) (l : list dataEncoderType)
  (init : option error) : option error :=
  match l with
  | [] => init
  | t :: rest =>
      finalErr content rest
        (match dataEncoder_encode t content with Err e => Some e | _ => None end)
  end.

(** The QRCode New hands to encode once a version is chosen. *)
Definition prepared (q0 : QRCode) (t : dataEncoderType) (encoded : Bitset)
  (v : qrCodeVersion) : QRCode :=
  let q := with_VersionNumber q0 (version v) in
  let q := with_encoder q (Some t) in
  let q := with_data q (Some encoded) in
  let q := with_version q v in
  with_version q (setQuietZoneSize (q_version q) (q_QuitZoneSize q)).

(** The colour defaults at the end of Set. *)
Definition defaultColors (q : QRCode) : QRCode :=
  let q := match q_ForegroundColor q with
           | None => with_ForegroundColor q (Some color_Black)
           | Some _ => q
           end in
  match q_BackgroundColor q with
  | None => with_BackgroundColor q (Some color_White)
  | Some _ => q
  end.

Definition applyAll (opts : list Option) (q : QRCode) : QRCode :=
  fold_left (fun q opt => opt q) opts q.

(** Two QRCodes that differ at most in VersionNumber. *)
Definition sameButVersionNumber (q q' : QRCode) : Prop :=
  with_VersionNumber q 0 = with_VersionNumber q' 0.

(** The first [n] codewords of a buffer, eight bits each. *)
Fixpoint codewords (n : nat) (b : Bitset) : list Bitset :=
  match n with
  | O => []
  | S k => firstn 8 b :: codewords k (skipn 8 b)
  end.

(** "for each block in order, if i < (block's codeword count) emit that
    codeword": a block that is exhausted emits nothing. *)
Definition column (i : nat) (blocks : list (list Bitset)) : list Bitset :=
  flat_map (fun b => match nth_error b i with Some cw => [cw] | None => [] end) blocks.

Definition longest (blocks : list (list Bitset)) : nat :=
  fold_right Nat.max 0%nat (map (@length Bitset) blocks).

(** "for i = 0, 1, 2, ... ; stop when all blocks are exhausted". *)
Definition interleave (blocks : list (list Bitset)) : Bitset :=
  concat (flat_map (fun i => column i blocks) (seq 0 (longest blocks))).

(** One entry per block, in order: the counts of its data codewords and of
    its EC codewords. *)
Definition blockShapes (groups : list block) : list (Z * Z) :=
  flat_map (fun g => repeat (numDataCodewords g, numCodewords g - numDataCodewords g)
                            (Z.to_nat (numBlocks g))) groups.

(** "Split into blocks per the version/level descriptor": the data of a
    block starts where the data of the block before it ends. *)
Fixpoint splitAt (d : Bitset) (start : Z) (shapes : list (Z * Z)) : list (Bitset * Z) :=
  match shapes with
  | [] => []
  | (nd, ne) :: rest =>
      (firstn (Z.to_nat (8 * nd)) (skipn (Z.to_nat start) d), ne)
        :: splitAt d (start + 8 * nd) rest
  end.

Definition dataCodewordsOf (blk : Bitset * Z) : list Bitset :=
  codewords (length (fst blk) / 8) (fst blk).

(** The EC codewords of a block: what Encode returns after the data. *)
Definition ecCodewordsOf (blk : Bitset * Z) : list Bitset :=
  codewords (Z.to_nat (snd blk))
    (skipn (length (fst blk)) (reedsolomon_Encode (fst blk) (snd blk))).

Definition finalMessage (v : qrCodeVersion) (d : Bitset) : Bitset :=
  let blocks := splitAt d 0 (blockShapes (v_block v)) in
  interleave (map dataCodewordsOf blocks)
  ++ interleave (map ecCodewordsOf blocks)
  ++ repeat false (Z.to_nat (numRemainderBits v)).

(** The block of encodeBlocks that holds a block of the split. *)
Definition toDataBlock (blk : Bitset * Z) : dataBlock :=
  mkDataBlock (Some (reedsolomon_Encode (fst blk) (snd blk))) (bitset.Len (fst blk)).

Definition wellFormedGroup (g : block) : Prop :=
  0 <= numBlocks g /\ 0 <= numDataCodewords g <= numCodewords g.

Fixpoint dataCodewordsSum (groups : list block) : Z :=
  match groups with
  | [] => 0
  | g :: rest => numBlocks g * numDataCodewords g + dataCodewordsSum rest
  end.

(** A block as the loop over the data codewords reads it. *)
Definition dataView (b : dataBlock) (cw : list Bitset) : Prop :=
  exists bd,
    db_data b = Some bd
    /\ ecStartOffset b = 8 * Z.of_nat (length cw)
    /\ forall i, (i < length cw)%nat ->
                 8 * Z.of_nat i + 8 <= bitset.Len bd
                 /\ nth_error cw i = Some (firstn 8 (skipn (8 * i) bd)).

(** A block as the loop over the EC codewords reads it. *)
Definition ecView (b : dataBlock) (cw : list Bitset) : Prop :=
  exists bd,
    db_data b = Some bd
    /\ 0 <= ecStartOffset b
    /\ bitset.Len bd = ecStartOffset b + 8 * Z.of_nat (length cw)
    /\ forall i, (i < length cw)%nat ->
                 nth_error cw i
                 = Some (firstn 8 (skipn (Z.to_nat (ecStartOffset b) + 8 * i) bd)).

(** What encodeBlocks expects of reedsolomon.Encode: the buffer it returns
    is the data it was given followed by the EC codewords asked for. *)
Definition appendsCodewords : Prop :=
  forall (D : Bitset) (t : Z),
    0 <= t -> exists E, reedsolomon_Encode D t = D ++ E /\ bitset.Len E = 8 * t.

Definition wholeCodewords (blk : Bitset * Z) : Prop :=
  (exists n : nat, length (fst blk) = (8 * n)%nat) /\ 0 <= snd blk.

(** [rejects], decided. *)
Definition rejectsb (lvl : RecoveryLevel) (content : list Byte.byte) (t : dataEncoderType)
  : bool :=
  match dataEncoder_encode t content with
  | Err _ => true
  | Ok encoded =>
      forallb (fun v => negb (fitsVersion lvl t (bitset.Len encoded) v)) versions
  | _ => false
  end.

(** Two QRCodes that differ at most in the version struct. *)
Definition sameButVersion (q q' : QRCode) : Prop :=
  with_version q qrCodeVersion_zero = with_version q' qrCodeVersion_zero.

(** What of a QRCode the encoding is: everything but the content, the level
    and the drawing options. *)
Definition encodingOf (q : QRCode) : QRCode :=
  mkQRCode EmptyString Low (VersionNumber q) None None (encoder q) (q_version q) (data q)
    (q_symbol q) (mask q) 0 0 (margin q) 0.

Definition mapOutcome {A B : Type} (f : A -> B) (r : outcome A) : outcome B :=
  match r with
  | Ok a => Ok (f a)
  | Err e => Err e
  | Panic msg => Panic msg
  | Fatal msg => Fatal msg
  | OutOfFuel => OutOfFuel
  end.

End Vocabulary.


(** ** The data encoder (encoder.go is not among the sources) *)

Module encoder.

Inductive dataMode : Type := dataModeNumeric | dataModeAlphanumeric | dataModeByte.

Definition byteValue (b : Byte.byte) : Z := Z.of_N (Byte.to_N b).

(** Modelled from the spec: §4.4 "every byte is in 0123456789". *)
Definition isNumeric (b : Z) : bool := (48 <=? b) && (b <=? 57).

(** Modelled from the spec: §4.4, the 45-character alphanumeric set
    0-9A-Z $%*+-./: and the value of a character, its place in the set. *)
Definition alphanumericValue (b : Z) : option Z :=
  if (48 <=? b) && (b <=? 57) then Some (b - 48)
  else if (65 <=? b) && (b <=? 90) then Some (b - 65 + 10)
  else if b =? 32 then Some 36
  else if b =? 36 then Some 37
  else if b =? 37 then Some 38
  else if b =? 42 then Some 39
  else if b =? 43 then Some 40
  else if b =? 45 then Some 41
  else if b =? 46 then Some 42
  else if b =? 47 then Some 43
  else if b =? 58 then Some 44
  else None.

Definition isAlphanumeric (b : Z) : bool :=
  match alphanumericValue b with Some _ => true | None => false end.

(** Modelled from the spec: §4.4 "Analyze the entire payload"; a single
    mode is used per payload. *)
Definition classify (data : list Z) : dataMode :=
  if forallb isNumeric data then dataModeNumeric
  else if forallb isAlphanumeric data then dataModeAlphanumeric
  else dataModeByte.

(** Modelled from the spec: §4.4 mode indicators, four bits. *)
Definition modeIndicator (m : dataMode) : Z :=
  match m with
  | dataModeNumeric => 1
  | dataModeAlphanumeric => 2
  | dataModeByte => 4
  end.

(** Modelled from the spec: §3 character-count widths by class. *)
Definition charCountBits (t : dataEncoderType) (m : dataMode) : Z :=
  match m, t with
  | dataModeNumeric, dataEncoderType1To9 => 10
  | dataModeNumeric, dataEncoderType10To26 => 12
  | dataModeNumeric, dataEncoderType27To40 => 14
  | dataModeAlphanumeric, dataEncoderType1To9 => 9
  | dataModeAlphanumeric, dataEncoderType10To26 => 11
  | dataModeAlphanumeric, dataEncoderType27To40 => 13
  | dataModeByte, dataEncoderType1To9 => 8
  | dataModeByte, dataEncoderType10To26 => 16
  | dataModeByte, dataEncoderType27To40 => 16
  end.

(** Modelled from the spec: §4.4 "groups of 3 digits -> 10 bits; trailing 2
    digits -> 7 bits; trailing 1 digit -> 4 bits". *)
Fixpoint encodeNumeric (digits : list Z) (b : Bitset) : Bitset :=
  match digits with
  | x :: y :: z :: rest =>
      encodeNumeric rest (bitset.AppendUint32 b (100 * x + 10 * y + z) 10)
  | [x; y] => bitset.AppendUint32 b (10 * x + y) 7
  | [x] => bitset.AppendUint32 b x 4
  | [] => b
  end.

(** Modelled from the spec: §4.4 "pairs of chars -> (a·45 + b) as 11 bits;
    trailing single char -> 6 bits". *)
Fixpoint encodeAlphanumeric (values : list Z) (b : Bitset) : Bitset :=
  match values with
  | x :: y :: rest => encodeAlphanumeric rest (bitset.AppendUint32 b (45 * x + y) 11)
  | [x] => bitset.AppendUint32 b x 6
  | [] => b
  end.

(** Modelled from the spec: §4.4 "each byte as 8 bits". *)
Definition encodeBytes (data : list Z) (b : Bitset) : Bitset :=
  fold_left (fun acc x => bitset.AppendByte acc x 8) data b.

Definition payload (m : dataMode) (data : list Z) (b : Bitset) : Bitset :=
  match m with
  | dataModeNumeric => encodeNumeric (map (fun x => x - 48) data) b
  | dataModeAlphanumeric =>
      encodeAlphanumeric
        (map (fun x => match alphanumericValue x with Some v => v | None => 0 end) data) b
  | dataModeByte => encodeBytes data b
  end.

(** Modelled from the spec: §4.4 "mode indicator (4 bits), character count
    indicator (width by class), payload bits".  §4.5: a class whose
    character-count width cannot hold the count does not take the payload,
    and §4.4 names the failure ContentTooLong. *)
Definition encode (t : dataEncoderType) (content : list Byte.byte) : outcome Bitset :=
  let data := map byteValue content in
  let m := classify data in
  let count := Z.of_nat (length data) in
  if 2 ^ charCountBits t m <=? count then Err errContentTooLong
  else
    let b := bitset.AppendUint32 (bitset.New []) (modeIndicator m) 4 in
    let b := bitset.AppendUint32 b count (charCountBits t m) in
    Ok (payload m data b).

End encoder.

(** ** Reed-Solomon (package reedsolomon is not among the sources) *)

Module reedsolomon.

(** Modelled from the spec: §4.2, GF(2^8) with primitive polynomial 0x11D
    and primitive element 2; addition is XOR. *)
Definition gfDouble (x : Z) : Z :=
  let y := 2 * x in
  if 256 <=? y then Z.lxor y 285 else y.

Fixpoint gfExpFrom (n : nat) (x : Z) : list Z :=
  match n with
  | O => []
  | S k => x :: gfExpFrom k (gfDouble x)
  end.

(** exp table [0..511], the powers of 2 wrapping at 255. *)
Definition gfExpTable : list Z := Eval vm_compute in gfExpFrom 512 1.

Definition gfExp (i : Z) : Z := nth (Z.to_nat i) gfExpTable 0.

Fixpoint indexOf (x : Z) (l : list Z) (i : Z) : Z :=
  match l with
  | [] => 0
  | y :: rest => if y =? x then i else indexOf x rest (i + 1)
  end.

(** log table [1..255]. *)
Definition gfLogTable : list Z :=
  Eval vm_compute in map (fun a => indexOf (Z.of_nat a) (firstn 255 gfExpTable) 0) (seq 0 256).

Definition gfLog (a : Z) : Z := nth (Z.to_nat a) gfLogTable 0.

(** Modelled from the spec: §4.2 "if either operand is 0, result 0; else
    exp[(log[a] + log[b]) mod 255]". *)
Definition gfMultiply (a b : Z) : Z :=
  if (a =? 0) || (b =? 0) then 0 else gfExp ((gfLog a + gfLog b) mod 255).

(** Polynomials over GF(256), coefficients high degree first. *)
Fixpoint polyAdd (p q : list Z) : list Z :=
  match p, q with
  | x :: p', y :: q' => Z.lxor x y :: polyAdd p' q'
  | [], _ => q
  | _, [] => p
  end.

(** [p * (x - a)] for [p] of degree n: n + 2 coefficients. *)
Definition polyMulLinear (p : list Z) (a : Z) : list Z :=
  polyAdd (p ++ [0]) (0 :: map (gfMultiply a) p).

(** Modelled from the spec: §4.2 "Generator polynomial of degree t is the
    product of (x - alpha^i) for i from 0 to t-1". *)
Fixpoint generatorFrom (t : nat) (i : Z) (p : list Z) : list Z :=
  match t with
  | O => p
  | S k => generatorFrom k (i + 1) (polyMulLinear p (gfExp i))
  end.

Definition rsGeneratorPoly (t : Z) : list Z := generatorFrom (Z.to_nat t) 0 [1].

(** One step of the division of D·x^t by the generator: the remainder so
    far, high degree first, takes in the next data codeword. *)
Definition remainderStep (gen : list Z) (rem : list Z) (d : Z) : list Z :=
  match rem with
  | [] => []
  | r :: rest =>
      let factor := Z.lxor d r in
      polyAdd (rest ++ [0]) (map (gfMultiply factor) (tl gen))
  end.

(** Modelled from the spec: §4.3 "the remainder of D·x^t divided by the
    generator polynomial of degree t over GF(256); return the t remainder
    coefficients, high-degree first". *)
Definition ecCodewords (D : list Z) (t : Z) : list Z :=
  fold_left (remainderStep (rsGeneratorPoly t)) D (repeat 0 (Z.to_nat t)).

(** The codewords of a buffer, eight bits each, most significant first. *)
Fixpoint codewordsOf (n : nat) (b : Bitset) : list Z :=
  match n with
  | O => []
  | S k => bitset.valueOf (firstn 8 b) :: codewordsOf k (skipn 8 b)
  end.

Definition bytesToBits (l : list Z) : Bitset :=
  flat_map (bitset.bitsOf 8) l.

(** Modelled from the spec: §4.3 gives the EC codewords E of the data
    codewords D.  encodeBlocks reads the data codewords of a block below
    ecStartOffset and its EC codewords from ecStartOffset on in the buffer
    [Encode] returns: the buffer is D followed by E. *)
Definition Encode (data : Bitset) (numECBytes : Z) : Bitset :=
  let D := codewordsOf (length data / 8) data in
  bitset.Append data (bytesToBits (ecCodewords D numECBytes)).

End reedsolomon.

(** ** The version table (version.go is not among the sources) *)

Module versionTable.

Definition classOf (ver : Z) : dataEncoderType :=
  if ver <=? 9 then dataEncoderType1To9
  else if ver <=? 26 then dataEncoderType10To26
  else dataEncoderType27To40.

(** A row of the table; the quiet zone of a descriptor is the default of
    §4.8, four modules. *)
Definition row (ver : Z) (lvl : RecoveryLevel) (groups : list block) (remainder : Z)
  : qrCodeVersion :=
  mkVersion ver lvl (classOf ver) groups remainder 4.

(** Modelled from the spec: the table of the 160 version descriptors is
    missing; §3 and §6 make it the block layouts and remainder bits of
    ISO/IEC 18004:2006 (Tables 1 and 9), by version and, within a version,
    by level. *)
Definition versions : list qrCodeVersion := [
  row 1 Low [mkBlock 1 26 19] 0;
  row 1 Medium [mkBlock 1 26 16] 0;
  row 1 High [mkBlock 1 26 13] 0;
  row 1 Highest [mkBlock 1 26 9] 0;
  row 2 Low [mkBlock 1 44 34] 7;
  row 2 Medium [mkBlock 1 44 28] 7;
  row 2 High [mkBlock 1 44 22] 7;
  row 2 Highest [mkBlock 1 44 16] 7;
  row 3 Low [mkBlock 1 70 55] 7;
  row 3 Medium [mkBlock 1 70 44] 7;
  row 3 High [mkBlock 2 35 17] 7;
  row 3 Highest [mkBlock 2 35 13] 7;
  row 4 Low [mkBlock 1 100 80] 7;
  row 4 Medium [mkBlock 2 50 32] 7;
  row 4 High [mkBlock 2 50 24] 7;
  row 4 Highest [mkBlock 4 25 9] 7;
  row 5 Low [mkBlock 1 134 108] 7;
  row 5 Medium [mkBlock 2 67 43] 7;
  row 5 High [mkBlock 2 33 15; mkBlock 2 34 16] 7;
  row 5 Highest [mkBlock 2 33 11; mkBlock 2 34 12] 7;
  row 6 Low [mkBlock 2 86 68] 7;
  row 6 Medium [mkBlock 4 43 27] 7;
  row 6 High [mkBlock 4 43 19] 7;
  row 6 Highest [mkBlock 4 43 15] 7;
  row 7 Low [mkBlock 2 98 78] 0;
  row 7 Medium [mkBlock 4 49 31] 0;
  row 7 High [mkBlock 2 32 14; mkBlock 4 33 15] 0;
  row 7 Highest [mkBlock 4 39 13; mkBlock 1 40 14] 0;
  row 8 Low [mkBlock 2 121 97] 0;
  row 8 Medium [mkBlock 2 60 38; mkBlock 2 61 39] 0;
  row 8 High [mkBlock 4 40 18; mkBlock 2 41 19] 0;
  row 8 Highest [mkBlock 4 40 14; mkBlock 2 41 15] 0;
  row 9 Low [mkBlock 2 146 116] 0;
  row 9 Medium [mkBlock 3 58 36; mkBlock 2 59 37] 0;
  row 9 High [mkBlock 4 36 16; mkBlock 4 37 17] 0;
  row 9 Highest [mkBlock 4 36 12; mkBlock 4 37 13] 0;
  row 10 Low [mkBlock 2 86 68; mkBlock 2 87 69] 0;
  row 10 Medium [mkBlock 4 69 43; mkBlock 1 70 44] 0;
  row 10 High [mkBlock 6 43 19; mkBlock 2 44 20] 0;
  row 10 Highest [mkBlock 6 43 15; mkBlock 2 44 16] 0;
  row 11 Low [mkBlock 4 101 81] 0;
  row 11 Medium [mkBlock 1 80 50; mkBlock 4 81 51] 0;
  row 11 High [mkBlock 4 50 22; mkBlock 4 51 23] 0;
  row 11 Highest [mkBlock 3 36 12; mkBlock 8 37 13] 0;
  row 12 Low [mkBlock 2 116 92; mkBlock 2 117 93] 0;
  row 12 Medium [mkBlock 6 58 36; mkBlock 2 59 37] 0;
  row 12 High [mkBlock 4 46 20; mkBlock 6 47 21] 0;
  row 12 Highest [mkBlock 7 42 14; mkBlock 4 43 15] 0;
  row 13 Low [mkBlock 4 133 107] 0;
  row 13 Medium [mkBlock 8 59 37; mkBlock 1 60 38] 0;
  row 13 High [mkBlock 8 44 20; mkBlock 4 45 21] 0;
  row 13 Highest [mkBlock 12 33 11; mkBlock 4 34 12] 0;
  row 14 Low [mkBlock 3 145 115; mkBlock 1 146 116] 3;
  row 14 Medium [mkBlock 4 64 40; mkBlock 5 65 41] 3;
  row 14 High [mkBlock 11 36 16; mkBlock 5 37 17] 3;
  row 14 Highest [mkBlock 11 36 12; mkBlock 5 37 13] 3;
  row 15 Low [mkBlock 5 109 87; mkBlock 1 110 88] 3;
  row 15 Medium [mkBlock 5 65 41; mkBlock 5 66 42] 3;
  row 15 High [mkBlock 5 54 24; mkBlock 7 55 25] 3;
  row 15 Highest [mkBlock 11 36 12; mkBlock 7 37 13] 3;
  row 16 Low [mkBlock 5 122 98; mkBlock 1 123 99] 3;
  row 16 Medium [mkBlock 7 73 45; mkBlock 3 74 46] 3;
  row 16 High [mkBlock 15 43 19; mkBlock 2 44 20] 3;
  row 16 Highest [mkBlock 3 45 15; mkBlock 13 46 16] 3;
  row 17 Low [mkBlock 1 135 107; mkBlock 5 136 108] 3;
  row 17 Medium [mkBlock 10 74 46; mkBlock 1 75 47] 3;
  row 17 High [mkBlock 1 50 22; mkBlock 15 51 23] 3;
  row 17 Highest [mkBlock 2 42 14; mkBlock 17 43 15] 3;
  row 18 Low [mkBlock 5 150 120; mkBlock 1 151 121] 3;
  row 18 Medium [mkBlock 9 69 43; mkBlock 4 70 44] 3;
  row 18 High [mkBlock 17 50 22; mkBlock 1 51 23] 3;
  row 18 Highest [mkBlock 2 42 14; mkBlock 19 43 15] 3;
  row 19 Low [mkBlock 3 141 113; mkBlock 4 142 114] 3;
  row 19 Medium [mkBlock 3 70 44; mkBlock 11 71 45] 3;
  row 19 High [mkBlock 17 47 21; mkBlock 4 48 22] 3;
  row 19 Highest [mkBlock 9 39 13; mkBlock 16 40 14] 3;
  row 20 Low [mkBlock 3 135 107; mkBlock 5 136 108] 3;
  row 20 Medium [mkBlock 3 67 41; mkBlock 13 68 42] 3;
  row 20 High [mkBlock 15 54 24; mkBlock 5 55 25] 3;
  row 20 Highest [mkBlock 15 43 15; mkBlock 10 44 16] 3;
  row 21 Low [mkBlock 4 144 116; mkBlock 4 145 117] 4;
  row 21 Medium [mkBlock 17 68 42] 4;
  row 21 High [mkBlock 17 50 22; mkBlock 6 51 23] 4;
  row 21 Highest [mkBlock 19 46 16; mkBlock 6 47 17] 4;
  row 22 Low [mkBlock 2 139 111; mkBlock 7 140 112] 4;
  row 22 Medium [mkBlock 17 74 46] 4;
  row 22 High [mkBlock 7 54 24; mkBlock 16 55 25] 4;
  row 22 Highest [mkBlock 34 37 13] 4;
  row 23 Low [mkBlock 4 151 121; mkBlock 5 152 122] 4;
  row 23 Medium [mkBlock 4 75 47; mkBlock 14 76 48] 4;
  row 23 High [mkBlock 11 54 24; mkBlock 14 55 25] 4;
  row 23 Highest [mkBlock 16 45 15; mkBlock 14 46 16] 4;
  row 24 Low [mkBlock 6 147 117; mkBlock 4 148 118] 4;
  row 24 Medium [mkBlock 6 73 45; mkBlock 14 74 46] 4;
  row 24 High [mkBlock 11 54 24; mkBlock 16 55 25] 4;
  row 24 Highest [mkBlock 30 46 16; mkBlock 2 47 17] 4;
  row 25 Low [mkBlock 8 132 106; mkBlock 4 133 107] 4;
  row 25 Medium [mkBlock 8 75 47; mkBlock 13 76 48] 4;
  row 25 High [mkBlock 7 54 24; mkBlock 22 55 25] 4;
  row 25 Highest [mkBlock 22 45 15; mkBlock 13 46 16] 4;
  row 26 Low [mkBlock 10 142 114; mkBlock 2 143 115] 4;
  row 26 Medium [mkBlock 19 74 46; mkBlock 4 75 47] 4;
  row 26 High [mkBlock 28 50 22; mkBlock 6 51 23] 4;
  row 26 Highest [mkBlock 33 46 16; mkBlock 4 47 17] 4;
  row 27 Low [mkBlock 8 152 122; mkBlock 4 153 123] 4;
  row 27 Medium [mkBlock 22 73 45; mkBlock 3 74 46] 4;
  row 27 High [mkBlock 8 53 23; mkBlock 26 54 24] 4;
  row 27 Highest [mkBlock 12 45 15; mkBlock 28 46 16] 4;
  row 28 Low [mkBlock 3 147 117; mkBlock 10 148 118] 3;
  row 28 Medium [mkBlock 3 73 45; mkBlock 23 74 46] 3;
  row 28 High [mkBlock 4 54 24; mkBlock 31 55 25] 3;
  row 28 Highest [mkBlock 11 45 15; mkBlock 31 46 16] 3;
  row 29 Low [mkBlock 7 146 116; mkBlock 7 147 117] 3;
  row 29 Medium [mkBlock 21 73 45; mkBlock 7 74 46] 3;
  row 29 High [mkBlock 1 53 23; mkBlock 37 54 24] 3;
  row 29 Highest [mkBlock 19 45 15; mkBlock 26 46 16] 3;
  row 30 Low [mkBlock 5 145 115; mkBlock 10 146 116] 3;
  row 30 Medium [mkBlock 19 75 47; mkBlock 10 76 48] 3;
  row 30 High [mkBlock 15 54 24; mkBlock 25 55 25] 3;
  row 30 Highest [mkBlock 23 45 15; mkBlock 25 46 16] 3;
  row 31 Low [mkBlock 13 145 115; mkBlock 3 146 116] 3;
  row 31 Medium [mkBlock 2 74 46; mkBlock 29 75 47] 3;
  row 31 High [mkBlock 42 54 24; mkBlock 1 55 25] 3;
  row 31 Highest [mkBlock 23 45 15; mkBlock 28 46 16] 3;
  row 32 Low [mkBlock 17 145 115] 3;
  row 32 Medium [mkBlock 10 74 46; mkBlock 23 75 47] 3;
  row 32 High [mkBlock 10 54 24; mkBlock 35 55 25] 3;
  row 32 Highest [mkBlock 19 45 15; mkBlock 35 46 16] 3;
  row 33 Low [mkBlock 17 145 115; mkBlock 1 146 116] 3;
  row 33 Medium [mkBlock 14 74 46; mkBlock 21 75 47] 3;
  row 33 High [mkBlock 29 54 24; mkBlock 19 55 25] 3;
  row 33 Highest [mkBlock 11 45 15; mkBlock 46 46 16] 3;
  row 34 Low [mkBlock 13 145 115; mkBlock 6 146 116] 3;
  row 34 Medium [mkBlock 14 74 46; mkBlock 23 75 47] 3;
  row 34 High [mkBlock 44 54 24; mkBlock 7 55 25] 3;
  row 34 Highest [mkBlock 59 46 16; mkBlock 1 47 17] 3;
  row 35 Low [mkBlock 12 151 121; mkBlock 7 152 122] 0;
  row 35 Medium [mkBlock 12 75 47; mkBlock 26 76 48] 0;
  row 35 High [mkBlock 39 54 24; mkBlock 14 55 25] 0;
  row 35 Highest [mkBlock 22 45 15; mkBlock 41 46 16] 0;
  row 36 Low [mkBlock 6 151 121; mkBlock 14 152 122] 0;
  row 36 Medium [mkBlock 6 75 47; mkBlock 34 76 48] 0;
  row 36 High [mkBlock 46 54 24; mkBlock 10 55 25] 0;
  row 36 Highest [mkBlock 2 45 15; mkBlock 64 46 16] 0;
  row 37 Low [mkBlock 17 152 122; mkBlock 4 153 123] 0;
  row 37 Medium [mkBlock 29 74 46; mkBlock 14 75 47] 0;
  row 37 High [mkBlock 49 54 24; mkBlock 10 55 25] 0;
  row 37 Highest [mkBlock 24 45 15; mkBlock 46 46 16] 0;
  row 38 Low [mkBlock 4 152 122; mkBlock 18 153 123] 0;
  row 38 Medium [mkBlock 13 74 46; mkBlock 32 75 47] 0;
  row 38 High [mkBlock 48 54 24; mkBlock 14 55 25] 0;
  row 38 Highest [mkBlock 42 45 15; mkBlock 32 46 16] 0;
  row 39 Low [mkBlock 20 147 117; mkBlock 4 148 118] 0;
  row 39 Medium [mkBlock 40 75 47; mkBlock 7 76 48] 0;
  row 39 High [mkBlock 43 54 24; mkBlock 22 55 25] 0;
  row 39 Highest [mkBlock 10 45 15; mkBlock 67 46 16] 0;
  row 40 Low [mkBlock 19 148 118; mkBlock 6 149 119] 0;
  row 40 Medium [mkBlock 18 75 47; mkBlock 31 76 48] 0;
  row 40 High [mkBlock 34 54 24; mkBlock 34 55 25] 0;
  row 40 Highest [mkBlock 20 45 15; mkBlock 61 46 16] 0
].

(** Modelled from the spec: the table [alignmentPatternCenter] that
    getPointType reads is missing; §6 makes it the centre coordinates of
    ISO/IEC 18004:2006 Annex E. *)
Definition alignmentPatternCenter (ver : Z) : list Z :=
  match ver with
  | 2 => [6; 18]
  | 3 => [6; 22]
  | 4 => [6; 26]
  | 5 => [6; 30]
  | 6 => [6; 34]
  | 7 => [6; 22; 38]
  | 8 => [6; 24; 42]
  | 9 => [6; 26; 46]
  | 10 => [6; 28; 50]
  | 11 => [6; 30; 54]
  | 12 => [6; 32; 58]
  | 13 => [6; 34; 62]
  | 14 => [6; 26; 46; 66]
  | 15 => [6; 26; 48; 70]
  | 16 => [6; 26; 50; 74]
  | 17 => [6; 30; 54; 78]
  | 18 => [6; 30; 56; 82]
  | 19 => [6; 30; 58; 86]
  | 20 => [6; 34; 62; 90]
  | 21 => [6; 28; 50; 72; 94]
  | 22 => [6; 26; 50; 74; 98]
  | 23 => [6; 30; 54; 78; 102]
  | 24 => [6; 28; 54; 80; 106]
  | 25 => [6; 32; 58; 84; 110]
  | 26 => [6; 30; 58; 86; 114]
  | 27 => [6; 34; 62; 90; 118]
  | 28 => [6; 26; 50; 74; 98; 122]
  | 29 => [6; 30; 54; 78; 102; 126]
  | 30 => [6; 26; 52; 78; 104; 130]
  | 31 => [6; 30; 56; 82; 108; 134]
  | 32 => [6; 34; 60; 86; 112; 138]
  | 33 => [6; 30; 58; 86; 114; 142]
  | 34 => [6; 34; 62; 90; 118; 146]
  | 35 => [6; 30; 54; 78; 102; 126; 150]
  | 36 => [6; 24; 50; 76; 102; 128; 154]
  | 37 => [6; 28; 54; 80; 106; 132; 158]
  | 38 => [6; 32; 58; 84; 110; 136; 162]
  | 39 => [6; 26; 54; 82; 110; 138; 166]
  | 40 => [6; 30; 58; 86; 114; 142; 170]
  | _ => []
  end.

End versionTable.

(** ** Symbols (symbol.go and regular_symbol.go are not among the sources) *)

Module symbols.

(** Modelled from the spec: §3 "Module", a cell with a value and a fixed
    flag; a cell that no pattern and no data bit has reached is empty. *)
Inductive module : Type :=
| Empty
| Function (dark : bool)
| Data (dark : bool).

Definition moduleValue (m : module) : bool :=
  match m with
  | Empty => false
  | Function dark => dark
  | Data dark => dark
  end.

Definition isEmpty (m : module) : bool :=
  match m with Empty => true | _ => false end.

(** Modelled from the spec: §3 "Symbol"; the modules of the symbol proper,
    [size] rows of [size] cells, and the width of the quiet zone that
    frames them at emission (§4.8). *)
Record symbol : Type := mkSymbol {
  size : Z;
  s_quietZoneSize : Z;
  modules : list (list module)
}.

Definition range (n : Z) : list Z := map Z.of_nat (seq 0 (Z.to_nat n)).

Definition within (lo x hi : Z) : bool := (lo <=? x) && (x <=? hi).

Definition ring (dr dc : Z) : Z := Z.max (Z.abs dr) (Z.abs dc).

(** Modelled from the spec: §4.7 step 1, a 7x7 finder pattern with origin
    (r0, c0): dark outer ring, light ring, dark 3x3 core. *)
Definition finderAt (r0 c0 r c : Z) : option bool :=
  if within r0 r (r0 + 6) && within c0 c (c0 + 6)
  then Some (negb (ring (r - r0 - 3) (c - c0 - 3) =? 2))
  else None.

(** Modelled from the spec: §4.7 step 2, the light band on the interior
    sides of each finder: what is left of the 8x8 corners. *)
Definition separatorAt (sz r c : Z) : option bool :=
  if (within 0 r 7 && within 0 c 7)
     || (within 0 r 7 && within (sz - 8) c (sz - 1))
     || (within (sz - 8) r (sz - 1) && within 0 c 7)
  then Some false
  else None.

(** Modelled from the spec: §4.7 step 4, a 5x5 alignment pattern at every
    pair of centres that does not collide with a finder pattern. *)
Definition alignmentAt (ver sz r c : Z) : option bool :=
  let centers := versionTable.alignmentPatternCenter ver in
  let hit (x : Z) (cs : list Z) := find (fun c0 => ring (x - c0) 0 <=? 2) cs in
  match hit r centers, hit c centers with
  | Some cy, Some cx =>
      if ((cy =? 6) && (cx =? 6)) || ((cy =? 6) && (cx =? sz - 7))
         || ((cy =? sz - 7) && (cx =? 6))
      then None
      else Some (negb (ring (r - cy) (c - cx) =? 1))
  | _, _ => None
  end.

(** Modelled from the spec: §4.7 step 3, row 6 and column 6 alternate
    dark/light, dark at the even places, from 8 through size-9. *)
Definition timingAt (sz r c : Z) : option bool :=
  if (r =? 6) && within 8 c (sz - 9) then Some (Z.even c)
  else if (c =? 6) && within 8 r (sz - 9) then Some (Z.even r)
  else None.

(** Modelled from the spec: §4.7 step 5, the dark module at column 8, row
    size-8. *)
Definition darkModuleAt (sz r c : Z) : option bool :=
  if (r =? sz - 8) && (c =? 8) then Some true else None.

(** Modelled from the spec: §4.7 "level 2 bits + mask 3 bits -> BCH(15,5)
    with generator 0x537, XOR with 0x5412". *)
Definition levelBits (lvl : RecoveryLevel) : Z :=
  match lvl with
  | Low => 1
  | Medium => 0
  | High => 3
  | Highest => 2
  end.

(** The remainder of [value] modulo the generator [gen] over GF(2), [value]
    below 2^[top]. *)
Fixpoint bchRemainder (top : nat) (gen : Z) (genBits : Z) (value : Z) : Z :=
  match top with
  | O => value
  | S k =>
      let value' :=
        if Z.testbit value (Z.of_nat k + genBits - 1)
        then Z.lxor value (Z.shiftl gen (Z.of_nat k))
        else value in
      bchRemainder k gen genBits value'
  end.

Definition formatInfo (lvl : RecoveryLevel) (mask : Z) : Z :=
  let d := Z.lor (Z.shiftl (levelBits lvl) 3) mask in
  let shifted := Z.shiftl d 10 in
  Z.lxor (Z.lor shifted (bchRemainder 5 1335 11 shifted)) 21522.

(** Modelled from the spec: §9 "Version information (v >= 7) is BCH(18,6)
    with generator 0x1F25". *)
Definition versionInfo (ver : Z) : Z :=
  let shifted := Z.shiftl ver 12 in
  Z.lor shifted (bchRemainder 6 7973 13 shifted).

(** Modelled from the spec: §4.7 step 6, the 15 format slots, twice; the
    place of each bit is that of ISO/IEC 18004 (§6).  The index of the
    format bit a cell holds. *)
Definition formatBitAt (sz r c : Z) : option Z :=
  if (c =? 8) && within 0 r 5 then Some r
  else if (c =? 8) && (r =? 7) then Some 6
  else if (c =? 8) && (r =? 8) then Some 7
  else if (r =? 8) && (c =? 7) then Some 8
  else if (r =? 8) && within 0 c 5 then Some (14 - c)
  else if (r =? 8) && within (sz - 8) c (sz - 1) then Some (sz - 1 - c)
  else if (c =? 8) && within (sz - 7) r (sz - 1) then Some (r - (sz - 15))
  else None.

(** Modelled from the spec: §4.7 step 6 and §9, the 18 version slots in
    the two 3x6 regions, for versions 7 and above. *)
Definition versionBitAt (ver sz r c : Z) : option Z :=
  if ver <? 7 then None
  else if within 0 r 5 && within (sz - 11) c (sz - 9) then Some (r * 3 + (c - (sz - 11)))
  else if within 0 c 5 && within (sz - 11) r (sz - 9) then Some (c * 3 + (r - (sz - 11)))
  else None.

(** The function patterns of a symbol: the value of the cell (r, c) when
    it is fixed, [format] and [versionBits] being the format and version
    information of the candidate. *)
Definition functionModule (ver sz format versionBits r c : Z) : option bool :=
  match finderAt 0 0 r c with Some dark => Some dark | None =>
  match finderAt 0 (sz - 7) r c with Some dark => Some dark | None =>
  match finderAt (sz - 7) 0 r c with Some dark => Some dark | None =>
  match separatorAt sz r c with Some dark => Some dark | None =>
  match alignmentAt ver sz r c with Some dark => Some dark | None =>
  match timingAt sz r c with Some dark => Some dark | None =>
  match darkModuleAt sz r c with Some dark => Some dark | None =>
  match formatBitAt sz r c with Some i => Some (Z.testbit format i) | None =>
  match versionBitAt ver sz r c with Some i => Some (Z.testbit versionBits i) | None =>
    None
  end end end end end end end end end.

(** Modelled from the spec: §4.7 "Allocate a grid ... Place function
    patterns - all marked fixed", the format and version information
    written for the candidate mask. *)
Definition functionPatterns (v : qrCodeVersion) (mask : Z) : list (list module) :=
  let sz := symbolSize v in
  let format := formatInfo (v_level v) mask in
  let versionBits := versionInfo (version v) in
  map (fun r =>
         map (fun c => match functionModule (version v) sz format versionBits r c with
                       | Some dark => Function dark
                       | None => Empty
                       end) (range sz)) (range sz).

(** Modelled from the spec: §4.7 the eight mask patterns m(r, c). *)
Definition maskAt (mask r c : Z) : bool :=
  match mask with
  | 0 => (r + c) mod 2 =? 0
  | 1 => r mod 2 =? 0
  | 2 => c mod 3 =? 0
  | 3 => (r + c) mod 3 =? 0
  | 4 => (r / 2 + c / 3) mod 2 =? 0
  | 5 => (r * c) mod 2 + (r * c) mod 3 =? 0
  | 6 => ((r * c) mod 2 + (r * c) mod 3) mod 2 =? 0
  | 7 => ((r + c) mod 2 + (r * c) mod 3) mod 2 =? 0
  | _ => false
  end.

(** Modelled from the spec: §4.7 "Data placement": the strips of two
    columns from the right edge leftwards, column 6 left out, the first
    strip walked upwards and the direction flipped at every strip. *)
Fixpoint pairs (cols : list Z) : list (Z * Z) :=
  match cols with
  | x :: y :: rest => (x, y) :: pairs rest
  | _ => []
  end.

Definition strips (sz : Z) : list (Z * Z) :=
  pairs (filter (fun c => negb (c =? 6)) (rev (range sz))).

Fixpoint zigzag (sz : Z) (upward : bool) (ss : list (Z * Z)) : list (Z * Z) :=
  match ss with
  | [] => []
  | (cr, cl) :: rest =>
      let rows := if upward then rev (range sz) else range sz in
      flat_map (fun r => [(r, cr); (r, cl)]) rows ++ zigzag sz (negb upward) rest
  end.

Definition dataPath (sz : Z) : list (Z * Z) := zigzag sz true (strips sz).

Definition getModule (g : list (list module)) (r c : Z) : module :=
  nth (Z.to_nat c) (nth (Z.to_nat r) g []) Empty.

Fixpoint setNth {A : Type} (l : list A) (n : nat) (x : A) : list A :=
  match l, n with
  | [], _ => []
  | _ :: rest, O => x :: rest
  | y :: rest, S k => y :: setNth rest k x
  end.

Definition setModule (g : list (list module)) (r c : Z) (m : module) : list (list module) :=
  setNth g (Z.to_nat r) (setNth (nth (Z.to_nat r) g []) (Z.to_nat c) m).

(** Fill the cells of the path that are not fixed with the bits of the
    stream, each XOR-ed with the mask at its place (§4.7 "Masking"); the
    bits left over are returned. *)
Fixpoint placeData (mask : Z) (path : list (Z * Z)) (bits : Bitset)
  (g : list (list module)) : list (list module) * Bitset :=
  match path with
  | [] => (g, bits)
  | (r, c) :: rest =>
      match getModule g r c, bits with
      | Empty, bit :: bits' =>
          placeData mask rest bits' (setModule g r c (Data (xorb bit (maskAt mask r c))))
      | _, _ => placeData mask rest bits g
      end
  end.

Definition errDataLength : error := "data does not fill the symbol"%string.

(** Modelled from the spec: §4.7; the stream must be used up by the last
    cell filled ("Assert the stream exactly exhausts on final fill").  The
    margin is a matter of the renderer (§1) and leaves the modules as they
    are. *)
Definition buildRegularSymbol (v : qrCodeVersion) (mask : Z) (data : Bitset) (margin : Z)
  : outcome symbol :=
  let sz := symbolSize v in
  let placed := placeData mask (dataPath sz) data (functionPatterns v mask) in
  match snd placed with
  | [] => Ok (mkSymbol sz (quietZoneSize v) (fst placed))
  | _ :: _ => Err errDataLength
  end.

(** Modelled from the spec: §7 "non-zero empty modules after placement". *)
Definition numEmptyModules (s : symbol) : Z :=
  Z.of_nat (length (filter isEmpty (concat (modules s)))).

Definition values (s : symbol) : list (list bool) :=
  map (map moduleValue) (modules s).

Definition columns (sz : Z) (g : list (list bool)) : list (list bool) :=
  map (fun c => map (fun row => nth (Z.to_nat c) row false) g) (range sz).

(** Modelled from the spec: §4.7 P1, "for each run of >= 5 same-color
    modules in a row or column, add (run_length - 2)". *)
Definition runScore (len : Z) : Z := if 5 <=? len then len - 2 else 0.

Fixpoint penalty1Line (line : list bool) (current : bool) (len : Z) : Z :=
  match line with
  | [] => runScore len
  | x :: rest =>
      if Bool.eqb x current then penalty1Line rest current (len + 1)
      else runScore len + penalty1Line rest x 1
  end.

Definition penalty1 (lines : list (list bool)) : Z :=
  fold_left (fun acc line => acc + penalty1Line line false 0) lines 0.

(** Modelled from the spec: §4.7 P2, "for each 2x2 block of same color, add
    3". *)
Fixpoint penalty2Rows (upper lower : list bool) : Z :=
  match upper, lower with
  | a :: ((b :: _) as upper'), c :: ((d :: _) as lower') =>
      (if Bool.eqb a b && Bool.eqb a c && Bool.eqb a d then 3 else 0)
      + penalty2Rows upper' lower'
  | _, _ => 0
  end.

Fixpoint penalty2 (g : list (list bool)) : Z :=
  match g with
  | upper :: ((lower :: _) as rest) => penalty2Rows upper lower + penalty2 rest
  | _ => 0
  end.

(** Modelled from the spec: §4.7 P3, "for each occurrence of patterns
    10111010000 or 00001011101 in any row or column, add 40". *)
Definition pattern1 : list bool :=
  [true; false; true; true; true; false; true; false; false; false; false].

Definition pattern2 : list bool :=
  [false; false; false; false; true; false; true; true; true; false; true].

Fixpoint startsWith (pattern line : list bool) : bool :=
  match pattern, line with
  | [], _ => true
  | p :: pattern', x :: line' => Bool.eqb p x && startsWith pattern' line'
  | _ :: _, [] => false
  end.

Fixpoint penalty3Line (line : list bool) : Z :=
  match line with
  | [] => 0
  | _ :: rest =>
      (if startsWith pattern1 line || startsWith pattern2 line then 40 else 0)
      + penalty3Line rest
  end.

Definition penalty3 (lines : list (list bool)) : Z :=
  fold_left (fun acc line => acc + penalty3Line line) lines 0.

(** Modelled from the spec: §4.7 P4, "k = floor(|50 - 100·dark_ratio| / 5);
    add 10·k", the ratio that of dark modules to all modules. *)
Definition penalty4 (g : list (list bool)) : Z :=
  let cells := concat g in
  let total := Z.of_nat (length cells) in
  let dark := Z.of_nat (length (filter (fun x => x) cells)) in
  10 * (Z.abs (50 * total - 100 * dark) / (5 * total)).

(** Modelled from the spec: §4.7 "Penalty score = sum of four rules". *)
Definition penaltyScore (s : symbol) : Z :=
  let g := values s in
  let lines := g ++ columns (size s) g in
  penalty1 lines + penalty2 g + penalty3 lines + penalty4 g.

(** Modelled from the spec: §4.8 and §4.9, the symbol framed by a light
    border of the quiet-zone size on all four sides, true for dark. *)
Definition bitmap (s : symbol) : list (list bool) :=
  let q := Z.to_nat (s_quietZoneSize s) in
  let side := (q + Z.to_nat (size s) + q)%nat in
  repeat (repeat false side) q
  ++ map (fun row => repeat false q ++ row ++ repeat false q) (values s)
  ++ repeat (repeat false side) q.

End symbols.

(** The missing parts as the spec gives them. *)
#[export] Instance core : Collaborators := {
  symbol := symbols.symbol;
  versions := versionTable.versions;
  dataEncoder_encode := encoder.encode;
  reedsolomon_Encode := reedsolomon.Encode;
  buildRegularSymbol := symbols.buildRegularSymbol;
  numEmptyModules := symbols.numEmptyModules;
  penaltyScore := symbols.penaltyScore;
  bitmap := symbols.bitmap
}.

(** ** Inputs and decisions for the evaluation of the claims *)

(** A payload of [n] times the character [a]. *)
Fixpoint replicate (n : nat) (a : ascii) : string :=
  match n with
  | O => EmptyString
  | S k => String a (replicate k a)
  end.

(** §8, invariant 1, on the rows of level L: the codewords of a version and
    its remainder bits fill what the function patterns leave of the symbol. *)
Definition fillsSymbol (v : qrCodeVersion) : bool :=
  8 * fold_left (fun acc b => acc + numBlocks b * numCodewords b) (v_block v) 0
  + numRemainderBits v
  =? Z.of_nat (length (filter symbols.isEmpty (concat (symbols.functionPatterns v 0)))).

(** The four rows of a version have the same number of codewords, and every
    block has one of the EC codeword counts of §4.2. *)
Definition totalCodewords (v : qrCodeVersion) : Z :=
  fold_left (fun acc b => acc + numBlocks b * numCodewords b) (v_block v) 0.

(** The QR code of HELLO WORLD at level Q, ready for the padding: version 1,
    its encoding with the four terminator bits. *)
Definition helloPadded : QRCode (C := core) :=
  mkQRCode "HELLO WORLD" High 1 (Some color_Black) (Some color_White)
    (Some dataEncoderType1To9)
    (versionTable.row 1 High [mkBlock 1 26 13] 0)
    (Some (bitset.AppendNumBools
             (bitset.AppendUint32
                (bitset.AppendUint32 (bitset.AppendUint32 [] 2 4) 11 9)
                0 61) 4 false))
    None 0 0 0 0 0.

(** The same with a buffer that is full already. *)
Definition helloFull : QRCode (C := core) :=
  with_data helloPadded (Some (repeat true 104)).

(** Version 5 at level H: two blocks of 11 and two of 12 data codewords. *)
Definition unequalBlocks : QRCode (C := core) :=
  mkQRCode "" Highest 5 None None None
    (versionTable.row 5 Highest [mkBlock 2 33 11; mkBlock 2 34 12] 0)
    (Some (reedsolomon.bytesToBits (map Z.of_nat (seq 1 46))))
    None 0 0 0 0 0.

(** What a call ended with, for deciding outcomes by evaluation. *)
Definition isOk {A : Type} (r : outcome A) : bool :=
  match r with Ok _ => true | _ => false end.

Definition errorOf {A : Type} (r : outcome A) : option error :=
  match r with Err e => Some e | _ => None end.

Definition panicOf {A : Type} (r : outcome A) : option string :=
  match r with Panic msg => Some msg | _ => None end.

Definition isSome {A : Type} (o : option A) : bool :=
  match o with Some _ => true | None => false end.

(** A descriptor of version 1 with a codeword too few: eight modules stay
    empty. *)
Definition shortDescriptor : qrCodeVersion :=
  mkVersion 1 Low dataEncoderType1To9 [mkBlock 1 25 19] 0 4.

Definition shortQR : QRCode (C := core) :=
  mkQRCode "" Low 1 None None None shortDescriptor (Some (repeat true 152)) None 0 0 0 0 0.

(** A buffer longer than numDataBits. *)
Definition longQR : QRCode (C := core) :=
  mkQRCode "" Low 1 None None None shortDescriptor (Some (repeat true 153)) None 0 0 0 0 0.

(** A symbol of three rows, for the text and the layout. *)
Definition smallSymbol : symbols.symbol :=
  symbols.mkSymbol 3 0
    [[symbols.Function true; symbols.Data false; symbols.Data true];
     [symbols.Data false; symbols.Data true; symbols.Data false];
     [symbols.Function true; symbols.Data true; symbols.Data false]].

(** A QRCode drawn with it: a width too small and a negative height. *)
Definition smallQR : QRCode (C := core) :=
  mkQRCode "" Low 1 (Some color_Black) (Some color_White) None shortDescriptor
    (Some (repeat true 152)) (Some smallSymbol) 0 2 (-5) 0 0.

(** The same asked for 10 by 7 pixels. *)
Definition fixedQR : QRCode (C := core) := with_height (with_width smallQR 10) 7.

(** * Properties *)

(** ** The pad codewords of §4.6, as the spec words them *)

(** ** Bit buffers *)

Lemma Len_nonneg (b : Bitset) : 0 <= bitset.Len b.
Proof. unfold bitset.Len. lia. Qed.

Lemma Len_app (a b : Bitset) : bitset.Len (a ++ b) = bitset.Len a + bitset.Len b.
Proof. unfold bitset.Len. rewrite length_app. lia. Qed.

Lemma Len_repeat (x : bool) (n : nat) : bitset.Len (repeat x n) = Z.of_nat n.
Proof. unfold bitset.Len. now rewrite repeat_length. Qed.

Lemma Len_padding (i : Z) : bitset.Len (padding i) = 8.
Proof. unfold padding. destruct (i =? 0); reflexivity. Qed.

Lemma Len_AppendNumBools (b : Bitset) (n : Z) (x : bool) :
  bitset.Len (bitset.AppendNumBools b n x) = bitset.Len b + Z.max 0 n.
Proof. unfold bitset.AppendNumBools. rewrite Len_app, Len_repeat. lia. Qed.

Lemma Substr_ok (b : Bitset) (s e : Z) :
  0 <= s <= e -> e <= bitset.Len b ->
  bitset.Substr b s e = Ok (firstn (Z.to_nat (e - s)) (skipn (Z.to_nat s) b)).
Proof.
  intros Hs He. unfold bitset.Substr.
  replace (s <? 0) with false by (symmetry; apply Z.ltb_ge; lia).
  replace (e <? s) with false by (symmetry; apply Z.ltb_ge; lia).
  replace (bitset.Len b <? e) with false by (symmetry; apply Z.ltb_ge; lia).
  reflexivity.
Qed.

(** ** Padding *)

Lemma padding_parity (k : nat) : padding (parityIndex k) = bitset.bitsOf 8 (padByte k).
Proof. unfold parityIndex, padByte. destruct (Nat.even k); reflexivity. Qed.

Lemma parityIndex_S (k : nat) : 1 - parityIndex k = parityIndex (S k).
Proof.
  unfold parityIndex. rewrite Nat.even_succ, <- Nat.negb_even.
  destruct (Nat.even k); reflexivity.
Qed.

Section Padding.

Context `{C : Collaborators}.

(** The pad loop with enough fuel appends pad codewords, alternating from
    the parity it starts at, while eight bits or more are missing. *)
Lemma padLoop_spec (fuel : nat) (n : Z) :
  forall (d : Bitset) (k : nat),
    n - bitset.Len d < 8 * (Z.of_nat fuel + 1) ->
    exists m : nat,
      padLoop fuel n d (parityIndex k)
      = Ok (d ++ flat_map (fun j => bitset.bitsOf 8 (padByte j)) (seq k m))
      /\ n - (bitset.Len d + 8 * Z.of_nat m) < 8
      /\ (m = 0%nat \/ 8 * Z.of_nat m <= n - bitset.Len d).
Proof.
  induction fuel as [|fuel IH]; intros d k Hfuel.
  - exists 0%nat. cbn [padLoop seq flat_map].
    replace (8 <=? n - bitset.Len d) with false by (symmetry; apply Z.leb_gt; lia).
    rewrite app_nil_r. repeat split; try lia; now left.
  - cbn [padLoop]. destruct (8 <=? n - bitset.Len d) eqn:Hgo.
    + apply Z.leb_le in Hgo.
      rewrite parityIndex_S.
      destruct (IH (bitset.Append d (padding (parityIndex k))) (S k)) as (m & Hrun & Hend & Hm).
      { unfold bitset.Append. rewrite Len_app, Len_padding. lia. }
      exists (S m). rewrite Hrun. unfold bitset.Append in *.
      rewrite Len_app, Len_padding in Hend, Hm.
      cbn [seq flat_map]. rewrite <- app_assoc, padding_parity.
      repeat split; try lia; right; lia.
    + apply Z.leb_gt in Hgo. exists 0%nat. cbn [seq flat_map].
      rewrite app_nil_r. repeat split; try lia; now left.
Qed.

Lemma Len_flat_pad (k m : nat) :
  bitset.Len (flat_map (fun j => bitset.bitsOf 8 (padByte j)) (seq k m)) = 8 * Z.of_nat m.
Proof.
  revert k. induction m as [|m IH]; intros k; [reflexivity|].
  cbn [seq flat_map]. rewrite Len_app, IH.
  replace (bitset.Len (bitset.bitsOf 8 (padByte k))) with 8
    by (unfold padByte; destruct (Nat.even k); reflexivity).
  lia.
Qed.

Lemma numDataBits_mod8 (v : qrCodeVersion) : numDataBits v mod 8 = 0.
Proof. unfold numDataBits. now rewrite Z.mul_comm, Z.mod_mul. Qed.

(** addPadding returns normally exactly with a buffer of numDataBits bits,
    and otherwise panics: it has no error to return. *)
Lemma addPadding_outcome (q : QRCode) :
  (exists q' d', addPadding q = Ok q' /\ data q' = Some d'
                 /\ bitset.Len d' = numDataBits (q_version q')
                 /\ q_version q' = q_version q /\ margin q' = margin q
                 /\ q_symbol q' = q_symbol q /\ VersionNumber q' = VersionNumber q
                 /\ mask q' = mask q)
  \/ (exists msg, addPadding q = Panic msg).
Proof.
  unfold addPadding. destruct (data q) as [d|] eqn:Hd; [|right; eauto].
  destruct (bitset.Len d =? numDataBits (q_version q)) eqn:Hlen.
  - left. exists q, d. apply Z.eqb_eq in Hlen. repeat split; auto.
  - set (d1 := bitset.AppendNumBools d _ false).
    destruct (padLoop_spec (Z.to_nat (numDataBits (q_version q)))
                (numDataBits (q_version q)) d1 0) as (m & Hrun & _).
    { pose proof (Len_nonneg d1). lia. }
    change (parityIndex 0) with 0 in Hrun. rewrite Hrun. cbn [bind].
    match goal with |- context [if ?c then _ else _] => destruct c eqn:Hfin end.
    + left. eexists. eexists. split; [reflexivity|].
      apply Z.eqb_eq in Hfin. cbn. repeat split; auto.
    + right. eauto.
Qed.

End Padding.

Section PaddingClaim.

Context `{C : Collaborators}.

Lemma pad_to_codeword (n : Z) :
  0 <= n ->
  0 <= (8 - n mod 8) mod 8 < 8 /\ (n + (8 - n mod 8) mod 8) mod 8 = 0.
Proof. intros Hn. Z.div_mod_to_equations. lia. Qed.

(** C4.  A buffer that already has numDataBits bits is left as it is.  A
    shorter one (the encoded stream with its terminator bits) first gets
    fewer than eight zero bits, up to the next multiple of 8, and then the
    pad codewords 0xEC, 0x11, 0xEC, ... until its length is exactly
    numDataBits. *)
Theorem addPadding_fills_to_numDataBits (q : QRCode) (d : Bitset) :
  data q = Some d ->
  (bitset.Len d = numDataBits (q_version q) -> addPadding q = Ok q)
  /\ (bitset.Len d < numDataBits (q_version q) ->
      exists z n : nat,
        Z.of_nat z < 8
        /\ (bitset.Len d + Z.of_nat z) mod 8 = 0
        /\ addPadding q
           = Ok (with_data q (Some (d ++ repeat false z ++ padCodewords n)))
        /\ bitset.Len (d ++ repeat false z ++ padCodewords n)
           = numDataBits (q_version q)).
Proof.
  intros Hd. split; intros Hlen; unfold addPadding; rewrite Hd.
  - now rewrite (proj2 (Z.eqb_eq _ _) Hlen).
  - replace (bitset.Len d =? numDataBits (q_version q)) with false
      by (symmetry; apply Z.eqb_neq; lia).
    unfold numBitsToPadToCodeword.
    destruct (pad_to_codeword (bitset.Len d) (Len_nonneg d)) as [Hz Hmod].
    set (zz := (8 - bitset.Len d mod 8) mod 8) in *.
    set (d1 := bitset.AppendNumBools d zz false).
    assert (Hd1 : bitset.Len d1 = bitset.Len d + zz).
    { unfold d1. rewrite Len_AppendNumBools. lia. }
    pose proof (numDataBits_mod8 (q_version q)) as Hn8.
    destruct (padLoop_spec (Z.to_nat (numDataBits (q_version q)))
                (numDataBits (q_version q)) d1 0) as (m & Hrun & Hend & Hm).
    { pose proof (Len_nonneg d1). lia. }
    change (parityIndex 0) with 0 in Hrun. rewrite Hrun. cbn [bind].
    assert (Hfull : bitset.Len d1 + 8 * Z.of_nat m = numDataBits (q_version q)).
    { assert (Hm' : Z.of_nat m = 0 \/ 8 * Z.of_nat m <= numDataBits (q_version q) - bitset.Len d1)
        by lia.
      clear Hm. rewrite Hd1 in *. revert Hmod Hn8 Hend Hm' Hlen Hz.
      generalize (numDataBits (q_version q)) (bitset.Len d) (Z.of_nat m) (Nat2Z.is_nonneg m).
      intros. Z.div_mod_to_equations. lia. }
    rewrite Len_app, Len_flat_pad, Hfull, Z.eqb_refl.
    exists (Z.to_nat zz), m. unfold d1, bitset.AppendNumBools, padCodewords in *.
    rewrite Z2Nat.id by lia. rewrite <- app_assoc.
    repeat split; auto; try lia.
    rewrite app_assoc, Len_app, Len_flat_pad. exact Hfull.
Qed.

End PaddingClaim.

(** ** Mask selection *)

Section MaskSelection.

Context `{C : Collaborators}.

Lemma with_symbol_mask_eta (q : QRCode) : with_symbol_mask q (q_symbol q) (mask q) = q.
Proof. now destruct q. Qed.

(** encode's loop touches the symbol and the mask, nothing else. *)
Lemma encodeMasks_frame (l : list Z) (encoded : Bitset) :
  forall q pen q',
    encodeMasks l encoded q pen = Ok q' ->
    q' = with_symbol_mask q (q_symbol q') (mask q').
Proof.
  induction l as [|m l IH]; intros q pen q' Hrun; cbn [encodeMasks] in Hrun.
  - injection Hrun as <-. symmetry. apply with_symbol_mask_eta.
  - destruct (buildRegularSymbol (q_version q) m encoded (margin q)); try discriminate.
    destruct (numEmptyModules a =? 0); try discriminate.
    destruct (q_symbol q); [destruct (penaltyScore a <? pen)|];
      apply IH in Hrun; exact Hrun.
Qed.

(** With a symbol already chosen at penalty [pen], the loop keeps it unless
    a later mask is strictly better; it then ends on the first mask whose
    penalty is the lowest. *)
Lemma encodeMasks_chosen (l : list Z) (encoded : Bitset) :
  forall q pen s0 q',
    q_symbol q = Some s0 ->
    encodeMasks l encoded q pen = Ok q' ->
    (forall m, In m l ->
               exists s, candidate q encoded m = Ok s /\ numEmptyModules s = 0)
    /\ ((q' = q /\ forall m s, In m l -> candidate q encoded m = Ok s -> pen <= penaltyScore s)
        \/ exists l1 m l2 s,
             l = l1 ++ m :: l2
             /\ candidate q encoded m = Ok s
             /\ q' = with_symbol_mask q (Some s) m
             /\ penaltyScore s < pen
             /\ (forall m' s', In m' l1 -> candidate q encoded m' = Ok s' ->
                               penaltyScore s < penaltyScore s')
             /\ (forall m' s', In m' l2 -> candidate q encoded m' = Ok s' ->
                               penaltyScore s <= penaltyScore s')).
Proof.
  induction l as [|m l IH]; intros q pen s0 q' Hsym Hrun; cbn [encodeMasks] in Hrun.
  - injection Hrun as <-. split; [intros ? []|]. left. split; [reflexivity|intros ? ? []].
  - destruct (buildRegularSymbol (q_version q) m encoded (margin q)) as [s| | | |] eqn:Hb;
      try discriminate.
    destruct (numEmptyModules s =? 0) eqn:He; try discriminate.
    apply Z.eqb_eq in He. rewrite Hsym in Hrun.
    destruct (penaltyScore s <? pen) eqn:Hp.
    + apply Z.ltb_lt in Hp.
      destruct (IH (with_symbol_mask q (Some s) m) (penaltyScore s) s q' eq_refl Hrun)
        as [Hall Hres].
      split.
      { intros m' [<-|Hin]; [eauto|]. exact (Hall m' Hin). }
      right. destruct Hres as [[-> Hge]|(l1 & m' & l2 & s' & -> & Hb' & -> & Hlt & H1 & H2)].
      * exists [], m, l, s. repeat split; auto. intros ? ? [].
      * exists (m :: l1), m', l2, s'. repeat split; auto; try lia.
        intros m0 s1 [<-|Hin] Hc.
        -- unfold candidate in Hc. rewrite Hb in Hc. injection Hc as <-. exact Hlt.
        -- eapply H1; eauto.
    + apply Z.ltb_ge in Hp.
      destruct (IH q pen s0 q' Hsym Hrun) as [Hall Hres].
      split.
      { intros m' [<-|Hin]; [eauto|]. exact (Hall m' Hin). }
      destruct Hres as [[-> Hge]|(l1 & m' & l2 & s' & -> & Hb' & -> & Hlt & H1 & H2)].
      * left. split; [reflexivity|]. intros m0 s1 [<-|Hin] Hc.
        -- unfold candidate in Hc. rewrite Hb in Hc. injection Hc as <-. exact Hp.
        -- eapply Hge; eauto.
      * right. exists (m :: l1), m', l2, s'. repeat split; auto.
        intros m0 s1 [<-|Hin] Hc.
        -- unfold candidate in Hc. rewrite Hb in Hc. injection Hc as <-. lia.
        -- eapply H1; eauto.
Qed.

(** Starting without a symbol, the loop ends on the first mask of the list
    whose penalty is the lowest. *)
Lemma encodeMasks_lowest (l : list Z) (encoded : Bitset) (q q' : QRCode) (pen : Z) :
  q_symbol q = None ->
  l <> [] ->
  encodeMasks l encoded q pen = Ok q' ->
  (forall m, In m l -> exists s, candidate q encoded m = Ok s /\ numEmptyModules s = 0)
  /\ exists l1 m l2 s,
       l = l1 ++ m :: l2
       /\ candidate q encoded m = Ok s
       /\ q' = with_symbol_mask q (Some s) m
       /\ (forall m' s', In m' l1 -> candidate q encoded m' = Ok s' ->
                         penaltyScore s < penaltyScore s')
       /\ (forall m' s', In m' l2 -> candidate q encoded m' = Ok s' ->
                         penaltyScore s <= penaltyScore s').
Proof.
  intros Hnil Hne Hrun. destruct l as [|m l]; [congruence|]. cbn [encodeMasks] in Hrun.
  destruct (buildRegularSymbol (q_version q) m encoded (margin q)) as [s| | | |] eqn:Hb;
    try discriminate.
  destruct (numEmptyModules s =? 0) eqn:He; try discriminate.
  apply Z.eqb_eq in He. rewrite Hnil in Hrun.
  destruct (encodeMasks_chosen l encoded (with_symbol_mask q (Some s) m)
              (penaltyScore s) s q' eq_refl Hrun) as [Hall Hres].
  split.
  { intros m' [<-|Hin]; [eauto|]. exact (Hall m' Hin). }
  destruct Hres as [[-> Hge]|(l1 & m' & l2 & s' & -> & Hb' & -> & Hlt & H1 & H2)].
  - exists [], m, l, s. repeat split; auto. intros ? ? [].
  - exists (m :: l1), m', l2, s'. repeat split; auto.
    intros m0 s1 [<-|Hin] Hc.
    + unfold candidate in Hc. rewrite Hb in Hc. injection Hc as <-. exact Hlt.
    + eapply H1; eauto.
Qed.

Lemma allMasks_range (m : Z) : In m allMasks <-> 0 <= m < 8.
Proof.
  change allMasks with [0; 1; 2; 3; 4; 5; 6; 7]. cbn [In]. lia.
Qed.

(** In the list of the masks, what stands before a mask is smaller. *)
Lemma allMasks_split (l1 l2 : list Z) (m : Z) :
  allMasks = l1 ++ m :: l2 ->
  (forall x, 0 <= x < 8 -> x < m -> In x l1)
  /\ (forall x, 0 <= x < 8 -> In x l1 \/ x = m \/ In x l2).
Proof.
  intros Hsplit.
  assert (Hall : forall x, 0 <= x < 8 -> In x l1 \/ x = m \/ In x l2).
  { intros x Hx. apply allMasks_range in Hx. rewrite Hsplit in Hx.
    apply in_app_or in Hx. destruct Hx as [?|[?|?]]; auto. }
  split; [|exact Hall].
  change allMasks with [0; 1; 2; 3; 4; 5; 6; 7] in Hsplit.
  intros x Hx Hlt.
  repeat (destruct l1 as [|? l1];
          [injection Hsplit as <- <-; cbn [In]; lia|
           injection Hsplit as <- Hsplit; cbn [In]]);
    try (destruct l1; discriminate); lia.
Qed.

End MaskSelection.

(** ** What encode changes, and how it ends *)

Section Encode.

Context `{C : Collaborators}.

Lemma with_data_eta (q : QRCode) : with_data q (data q) = q.
Proof. now destruct q. Qed.

Lemma addTerminatorBits_frame (q q1 : QRCode) (n : Z) :
  addTerminatorBits q n = Ok q1 ->
  exists d, data q = Some d
            /\ q1 = with_data q (Some (bitset.AppendNumBools d n false)).
Proof.
  unfold addTerminatorBits. destruct (data q) as [d|]; [|discriminate].
  intros [= <-]. eauto.
Qed.

Lemma addPadding_frame (q q2 : QRCode) :
  addPadding q = Ok q2 ->
  exists d2, q2 = with_data q (Some d2)
             /\ bitset.Len d2 = numDataBits (q_version q).
Proof.
  unfold addPadding. destruct (data q) as [d|] eqn:Hd; [|discriminate].
  destruct (bitset.Len d =? numDataBits (q_version q)) eqn:Hlen.
  - intros [= <-]. exists d. rewrite <- Hd, with_data_eta.
    apply Z.eqb_eq in Hlen. auto.
  - destruct (padLoop _ _ _ _) as [d2| | | |]; cbn [bind]; try discriminate.
    destruct (bitset.Len d2 =? numDataBits (q_version q)) eqn:Hfin; [|discriminate].
    intros [= <-]. apply Z.eqb_eq in Hfin. eauto.
Qed.

Lemma padded_frame (q q2 : QRCode) (n : Z) :
  padded q n = Ok q2 ->
  exists d2, q2 = with_data q (Some d2)
             /\ bitset.Len d2 = numDataBits (q_version q).
Proof.
  unfold padded. destruct (addTerminatorBits q n) as [q1| | | |] eqn:Ht;
    cbn [bind]; try discriminate.
  intros Hp. apply addTerminatorBits_frame in Ht as (d & _ & ->).
  apply addPadding_frame in Hp as (d2 & -> & Hlen). exists d2. split; auto.
Qed.

Lemma encode_unfold (q : QRCode) (n : Z) :
  encode q n = (q2 <- padded q n ;;
                encoded <- encodeBlocks q2 ;;
                encodeMasks allMasks encoded q2 0).
Proof.
  unfold encode, padded. destruct (addTerminatorBits q n); reflexivity.
Qed.

(** encode has no error to return. *)
Lemma encodeMasks_no_error (l : list Z) (encoded : Bitset) :
  forall q pen e, encodeMasks l encoded q pen <> Err e.
Proof.
  induction l as [|m l IH]; intros q pen e; cbn [encodeMasks]; [discriminate|].
  destruct (buildRegularSymbol _ _ _ _); try discriminate.
  destruct (numEmptyModules a =? 0); try discriminate.
  destruct (q_symbol q); [destruct (penaltyScore a <? pen)|]; apply IH.
Qed.

Lemma splitGroup_no_error (d : Bitset) (b : block) (turns : nat) :
  forall st e, splitGroup d b turns st <> Err e.
Proof.
  induction turns as [|n IH]; intros st e; cbn [splitGroup]; [discriminate|].
  unfold splitStep, bitset.Substr.
  destruct (_ || _); cbn [bind]; [discriminate|].
  destruct (sp_blockID st <? 0); [discriminate|].
  destruct (setBlock _ _ _); cbn [bind]; [apply IH|discriminate].
Qed.

Lemma splitBlocks_no_error (d : Bitset) (groups : list block) :
  forall st e, splitBlocks d groups st <> Err e.
Proof.
  induction groups as [|b rest IH]; intros st e; cbn [splitBlocks]; [discriminate|].
  destruct (splitGroup d b _ st) eqn:Hg; cbn [bind]; try discriminate.
  - apply IH.
  - now apply splitGroup_no_error in Hg.
Qed.

Lemma combineDataRow_no_error (i : Z) (blocks : list dataBlock) :
  forall result working e, combineDataRow i blocks result working <> Err e.
Proof.
  induction blocks as [|b rest IH]; intros result working e; cbn [combineDataRow];
    [discriminate|].
  destruct (ecStartOffset b <=? i); [apply IH|].
  destruct (db_data b); [|discriminate].
  unfold bitset.Substr. destruct (_ || _); cbn [bind]; [discriminate|apply IH].
Qed.

Lemma combineData_no_error (fuel : nat) (blocks : list dataBlock) :
  forall i result e, combineData fuel i blocks result <> Err e.
Proof.
  induction fuel as [|fuel IH]; intros i result e; cbn [combineData]; [discriminate|].
  destruct (combineDataRow i blocks result false) as [r| | | |] eqn:Hr; cbn [bind];
    try discriminate.
  - destruct (snd r); [apply IH|discriminate].
  - now apply combineDataRow_no_error in Hr.
Qed.

Lemma combineECRow_no_error (i : Z) (blocks : list dataBlock) :
  forall result working e, combineECRow i blocks result working <> Err e.
Proof.
  induction blocks as [|b rest IH]; intros result working e; cbn [combineECRow];
    [discriminate|].
  destruct (db_data b); [|discriminate].
  destruct (bitset.Len b0 <=? i + ecStartOffset b); [apply IH|].
  unfold bitset.Substr. destruct (_ || _); cbn [bind]; [discriminate|apply IH].
Qed.

Lemma combineEC_no_error (fuel : nat) (blocks : list dataBlock) :
  forall i result e, combineEC fuel i blocks result <> Err e.
Proof.
  induction fuel as [|fuel IH]; intros i result e; cbn [combineEC]; [discriminate|].
  destruct (combineECRow i blocks result false) as [r| | | |] eqn:Hr; cbn [bind];
    try discriminate.
  - destruct (snd r); [apply IH|discriminate].
  - now apply combineECRow_no_error in Hr.
Qed.

Lemma encodeBlocks_no_error (q : QRCode) (e : error) : encodeBlocks q <> Err e.
Proof.
  unfold encodeBlocks. destruct (_ <? 0); [discriminate|].
  assert (Htail : forall blocks,
             (r1 <- combineData (combineDataFuel blocks) 0 blocks (bitset.New []) ;;
              r2 <- combineEC (combineECFuel blocks) 0 blocks r1 ;;
              Ok (bitset.AppendNumBools r2 (numRemainderBits (q_version q)) false))
             <> Err e).
  { intros blocks.
    destruct (combineData _ 0 blocks _) as [r1| | | |] eqn:H1; cbn [bind]; try discriminate.
    - destruct (combineEC _ 0 blocks r1) as [r2| | | |] eqn:H2; cbn [bind]; try discriminate.
      now apply combineEC_no_error in H2.
    - now apply combineData_no_error in H1. }
  destruct (data q) as [d|].
  - destruct (splitBlocks d _ _) as [st| | | |] eqn:Hs; cbn [bind]; try discriminate.
    + apply Htail.
    + now apply splitBlocks_no_error in Hs.
  - destruct (existsb _ _); [discriminate|apply Htail].
Qed.

Lemma padded_no_error (q : QRCode) (n : Z) (e : error) : padded q n <> Err e.
Proof.
  unfold padded, addTerminatorBits. destruct (data q); cbn [bind]; [|discriminate].
  match goal with |- addPadding ?q1 <> _ =>
    destruct (addPadding_outcome q1) as [(q' & d' & -> & _)|(msg & ->)] end; discriminate.
Qed.

Lemma encode_no_error (q : QRCode) (n : Z) (e : error) : encode q n <> Err e.
Proof.
  rewrite encode_unfold.
  destruct (padded q n) as [q2| | | |] eqn:Hp; cbn [bind]; try discriminate.
  - destruct (encodeBlocks q2) as [encoded| | | |] eqn:Hb; cbn [bind]; try discriminate.
    + apply encodeMasks_no_error.
    + now apply encodeBlocks_no_error in Hb.
  - now apply padded_no_error in Hp.
Qed.

Lemma encodeBlocks_with_symbol_mask (q : QRCode) (s : option symbol) (m : Z) :
  encodeBlocks (with_symbol_mask q s m) = encodeBlocks q.
Proof. reflexivity. Qed.

(** From a QRCode without a symbol, encode ends on the mask of lowest
    penalty, the smallest one among equals. *)
Lemma encode_lowest_penalty (q q' : QRCode) (n : Z) :
  q_symbol q = None ->
  encode q n = Ok q' ->
  exists q2 encoded s,
    padded q n = Ok q2
    /\ encodeBlocks q2 = Ok encoded
    /\ q' = with_symbol_mask q2 (Some s) (mask q')
    /\ 0 <= mask q' < 8
    /\ candidate q2 encoded (mask q') = Ok s
    /\ forall m, 0 <= m < 8 ->
         exists sm, candidate q2 encoded m = Ok sm
                    /\ numEmptyModules sm = 0
                    /\ penaltyScore s <= penaltyScore sm
                    /\ (m < mask q' -> penaltyScore s < penaltyScore sm).
Proof.
  intros Hnil Hrun. rewrite encode_unfold in Hrun.
  destruct (padded q n) as [q2| | | |] eqn:Hp; cbn [bind] in Hrun; try discriminate.
  destruct (encodeBlocks q2) as [encoded| | | |] eqn:Hb; cbn [bind] in Hrun;
    try discriminate.
  assert (Hnil2 : q_symbol q2 = None).
  { apply padded_frame in Hp as (d2 & -> & _). exact Hnil. }
  destruct (encodeMasks_lowest allMasks encoded q2 q' 0 Hnil2) as [Hall Hres]; auto.
  { discriminate. }
  destruct Hres as (l1 & m & l2 & s & Hsplit & Hc & -> & H1 & H2).
  exists q2, encoded, s. cbn [mask with_symbol_mask].
  destruct (allMasks_split l1 l2 m Hsplit) as [Hbefore Hcover].
  assert (Hm : 0 <= m < 8).
  { apply allMasks_range. rewrite Hsplit. apply in_or_app. right. now left. }
  repeat split; auto; try lia.
  intros m' Hm'. destruct (Hall m') as (sm & Hcm & Hem); [now apply allMasks_range|].
  exists sm. repeat split; auto.
  - destruct (Hcover m' Hm') as [Hin|[->|Hin]].
    + specialize (H1 m' sm Hin Hcm). lia.
    + rewrite Hc in Hcm. injection Hcm as <-. lia.
    + exact (H2 m' sm Hin Hcm).
  - intros Hlt. exact (H1 m' sm (Hbefore m' Hm' Hlt) Hcm).
Qed.

End Encode.

(** ** The choice of the version *)

Section VersionChoice.

Context `{C : Collaborators}.

Lemma RecoveryLevel_eqb_eq (a b : RecoveryLevel) : RecoveryLevel_eqb a b = true <-> a = b.
Proof. destruct a, b; cbn; split; congruence. Qed.

Lemma fitsVersion_spec (lvl : RecoveryLevel) (t : dataEncoderType) (n : Z)
  (v : qrCodeVersion) :
  fitsVersion lvl t n v = true
  <-> v_level v = lvl /\ minVersion t <= version v <= maxVersion t /\ n <= numDataBits v.
Proof.
  unfold fitsVersion. rewrite !andb_true_iff, RecoveryLevel_eqb_eq, !Z.leb_le. tauto.
Qed.

Lemma fold_smallerVersion (l : list qrCodeVersion) :
  forall acc,
    match fold_left smallerVersion l acc with
    | None => acc = None /\ l = []
    | Some v => (acc = Some v \/ In v l)
                /\ (forall b, acc = Some b -> version v <= version b)
                /\ (forall v', In v' l -> version v <= version v')
    end.
Proof.
  induction l as [|x l IH]; intros acc; cbn [fold_left].
  - destruct acc as [b|]; [|auto]. repeat split; auto.
    + intros ? [= <-]. lia.
    + intros ? [].
  - specialize (IH (smallerVersion acc x)).
    destruct (fold_left smallerVersion l (smallerVersion acc x)) as [v|].
    + destruct IH as (Hin & Hacc & Hrest). unfold smallerVersion in Hin, Hacc.
      destruct acc as [b|].
      * destruct (version x <? version b) eqn:Hlt;
          [apply Z.ltb_lt in Hlt|apply Z.ltb_ge in Hlt];
          specialize (Hacc _ eq_refl); repeat split.
        -- destruct Hin as [[= <-]|Hin]; [right; now left|right; now right].
        -- intros ? [= <-]. lia.
        -- intros v' [<-|Hv']; [lia|auto].
        -- destruct Hin as [[= <-]|Hin]; [now left|right; now right].
        -- intros ? [= <-]. lia.
        -- intros v' [<-|Hv']; [lia|auto].
      * specialize (Hacc _ eq_refl). repeat split.
        -- destruct Hin as [[= <-]|Hin]; [right; now left|right; now right].
        -- discriminate.
        -- intros v' [<-|Hv']; [lia|auto].
    + destruct IH as (Hacc & _). unfold smallerVersion in Hacc.
      destruct acc as [b|]; [destruct (version x <? version b)|]; discriminate.
Qed.

(** The version chosen is in the table, fits, and no version that fits is
    smaller. *)
Lemma chooseQRCodeVersion_Some (lvl : RecoveryLevel) (t : dataEncoderType) (n : Z)
  (v : qrCodeVersion) :
  chooseQRCodeVersion lvl t n = Some v ->
  In v versions
  /\ fitsVersion lvl t n v = true
  /\ forall v', In v' versions -> fitsVersion lvl t n v' = true -> version v <= version v'.
Proof.
  unfold chooseQRCodeVersion. intros Hc.
  pose proof (fold_smallerVersion (filter (fitsVersion lvl t n) versions) None) as H.
  rewrite Hc in H. destruct H as ([Hin|Hin] & _ & Hmin); [discriminate|].
  apply filter_In in Hin as [Hin Hfit]. repeat split; auto.
  intros v' Hv' Hfit'. apply Hmin. apply filter_In. auto.
Qed.

Lemma chooseQRCodeVersion_None (lvl : RecoveryLevel) (t : dataEncoderType) (n : Z) :
  chooseQRCodeVersion lvl t n = None
  <-> forall v, In v versions -> fitsVersion lvl t n v = false.
Proof.
  unfold chooseQRCodeVersion.
  pose proof (fold_smallerVersion (filter (fitsVersion lvl t n) versions) None) as H.
  split.
  - intros Hc v Hv. rewrite Hc in H. destruct H as [_ Hnil].
    destruct (fitsVersion lvl t n v) eqn:Hfit; [|reflexivity].
    assert (Hin : In v (filter (fitsVersion lvl t n) versions)) by (apply filter_In; auto).
    rewrite Hnil in Hin. destruct Hin.
  - intros Hnone.
    destruct (fold_left smallerVersion _ None) as [v|]; [|reflexivity].
    destruct H as ([Hin|Hin] & _); [discriminate|].
    apply filter_In in Hin as [Hin Hfit]. rewrite (Hnone v Hin) in Hfit. discriminate.
Qed.

Lemma chooseLoop_accepted (content : list Byte.byte) (lvl : RecoveryLevel)
  (l1 : list dataEncoderType) :
  forall t l2 encoded v st,
    (forall t', In t' l1 -> rejects lvl content t') ->
    dataEncoder_encode t content = Ok encoded ->
    chooseQRCodeVersion lvl t (bitset.Len encoded) = Some v ->
    chooseLoop content lvl (l1 ++ t :: l2) st
    = Ok (mkChooser (Some t) (Some encoded) (Some v) None).
Proof.
  induction l1 as [|t1 l1 IH]; intros t l2 encoded v st Hrej Henc Hch; cbn [app chooseLoop].
  - now rewrite Henc, Hch.
  - destruct (Hrej t1 (or_introl eq_refl)) as [(e & He)|(enc1 & He & Hnone)]; rewrite He.
    + apply IH; auto. intros t' Ht'. apply Hrej. now right.
    + rewrite (proj2 (chooseQRCodeVersion_None _ _ _) Hnone).
      apply IH; auto. intros t' Ht'. apply Hrej. now right.
Qed.

Lemma chooseLoop_rejected (content : list Byte.byte) (lvl : RecoveryLevel)
  (l : list dataEncoderType) :
  forall st,
    cs_chosenVersion st = None ->
    (forall t, In t l -> rejects lvl content t) ->
    exists st', chooseLoop content lvl l st = Ok st'
                /\ cs_chosenVersion st' = None
                /\ cs_err st' = finalErr content l (cs_err st).
Proof.
  induction l as [|t l IH]; intros st Hnone Hrej; cbn [chooseLoop finalErr].
  - eauto.
  - destruct (Hrej t (or_introl eq_refl)) as [(e & He)|(enc1 & He & Hno)]; rewrite He.
    + apply IH; auto. intros t' Ht'. apply Hrej. now right.
    + rewrite (proj2 (chooseQRCodeVersion_None _ _ _) Hno).
      apply IH; auto. intros t' Ht'. apply Hrej. now right.
Qed.

(** How the loop can end. *)
Lemma chooseLoop_inv (content : list Byte.byte) (lvl : RecoveryLevel)
  (l : list dataEncoderType) :
  forall st st',
    cs_chosenVersion st = None ->
    chooseLoop content lvl l st = Ok st' ->
    (exists l1 t l2 encoded v,
        l = l1 ++ t :: l2
        /\ (forall t', In t' l1 -> rejects lvl content t')
        /\ dataEncoder_encode t content = Ok encoded
        /\ chooseQRCodeVersion lvl t (bitset.Len encoded) = Some v
        /\ st' = mkChooser (Some t) (Some encoded) (Some v) None)
    \/ ((forall t, In t l -> rejects lvl content t)
        /\ cs_chosenVersion st' = None
        /\ cs_err st' = finalErr content l (cs_err st)).
Proof.
  induction l as [|t l IH]; intros st st' Hnone Hrun; cbn [chooseLoop finalErr] in *.
  - injection Hrun as <-. right. repeat split; auto. intros ? [].
  - destruct (dataEncoder_encode t content) as [enc|e| | |] eqn:He; try discriminate.
    + destruct (chooseQRCodeVersion lvl t (bitset.Len enc)) as [v|] eqn:Hch.
      * injection Hrun as <-. left. exists [], t, l, enc, v.
        repeat split; auto. intros ? [].
      * apply IH in Hrun; [|reflexivity].
        assert (Hrej : rejects lvl content t).
        { right. exists enc. split; auto. now apply chooseQRCodeVersion_None. }
        destruct Hrun as [(l1 & t' & l2 & enc' & v & -> & Hr & He' & Hc & ->)|(Hr & Hn & Herr)].
        -- left. exists (t :: l1), t', l2, enc', v. repeat split; auto.
           intros t0 [<-|Hin]; auto.
        -- right. repeat split; auto. intros t0 [<-|Hin]; auto.
    + apply IH in Hrun; [|exact Hnone].
      assert (Hrej : rejects lvl content t) by (left; eauto).
      destruct Hrun as [(l1 & t' & l2 & enc' & v & -> & Hr & He' & Hc & ->)|(Hr & Hn & Herr)].
      * left. exists (t :: l1), t', l2, enc', v. repeat split; auto.
        intros t0 [<-|Hin]; auto.
      * right. repeat split; auto. intros t0 [<-|Hin]; auto.
Qed.

Lemma New_accepted (content : string) (opts : list Option)
  (l1 l2 : list dataEncoderType) (t : dataEncoderType) (encoded : Bitset)
  (v : qrCodeVersion) :
  let q0 := QRCode_Set (QRCode_literal content) opts in
  encoders = l1 ++ t :: l2 ->
  (forall t', In t' l1 -> rejects (level q0) (list_byte_of_string content) t') ->
  dataEncoder_encode t (list_byte_of_string content) = Ok encoded ->
  chooseQRCodeVersion (level q0) t (bitset.Len encoded) = Some v ->
  New content opts
  = encode (prepared q0 t encoded v) (numTerminatorBitsRequired v (bitset.Len encoded)).
Proof.
  intros q0 Hsplit Hrej Henc Hch. unfold New. fold q0. rewrite Hsplit.
  rewrite (chooseLoop_accepted _ _ l1 t l2 encoded v _ Hrej Henc Hch).
  reflexivity.
Qed.

Lemma New_rejected (content : string) (opts : list Option) :
  let q0 := QRCode_Set (QRCode_literal content) opts in
  (forall t, In t encoders -> rejects (level q0) (list_byte_of_string content) t) ->
  New content opts
  = Err (match dataEncoder_encode dataEncoderType27To40 (list_byte_of_string content) with
         | Err e => e
         | _ => errContentTooLong
         end).
Proof.
  intros q0 Hrej. unfold New. fold q0.
  destruct (chooseLoop_rejected _ _ encoders (mkChooser None None None None) eq_refl Hrej)
    as (st' & -> & Hnone & Herr).
  cbn [bind]. rewrite Herr, Hnone. cbn.
  destruct (dataEncoder_encode dataEncoderType27To40 _); reflexivity.
Qed.

(** How New can end: with the outcome of encode on the first class that
    takes the payload, or with an error when none does. *)
Lemma New_inv (content : string) (opts : list Option) (r : outcome QRCode) :
  let q0 := QRCode_Set (QRCode_literal content) opts in
  let bytes := list_byte_of_string content in
  New content opts = r ->
  (exists l1 t l2 encoded v,
      encoders = l1 ++ t :: l2
      /\ (forall t', In t' l1 -> rejects (level q0) bytes t')
      /\ dataEncoder_encode t bytes = Ok encoded
      /\ chooseQRCodeVersion (level q0) t (bitset.Len encoded) = Some v
      /\ r = encode (prepared q0 t encoded v)
               (numTerminatorBitsRequired v (bitset.Len encoded)))
  \/ ((forall t, In t encoders -> rejects (level q0) bytes t) /\ exists e, r = Err e)
  \/ ((forall e, r <> Err e) /\ forall q', r <> Ok q').
Proof.
  intros q0 bytes <-.
  destruct (chooseLoop bytes (level q0) encoders (mkChooser None None None None))
    as [st| | | |] eqn:Hloop.
  - apply chooseLoop_inv in Hloop as
        [(l1 & t & l2 & enc & v & Hs & Hr & He & Hc & ->)|(Hr & Hn & Herr)]; [| |reflexivity].
    + left. exists l1, t, l2, enc, v. repeat split; auto.
      apply (New_accepted content opts l1 l2 t enc v); auto.
    + right. left. split; auto. rewrite (New_rejected content opts Hr). eauto.
  - exfalso. revert Hloop. generalize (mkChooser None None None None).
    induction encoders as [|t l IH]; intros st; cbn [chooseLoop]; [discriminate|].
    destruct (dataEncoder_encode t bytes); try discriminate; [|apply IH].
    destruct (chooseQRCodeVersion _ _ _); [discriminate|apply IH].
  - right. right. unfold New. fold q0 bytes. rewrite Hloop. cbn. split; discriminate.
  - right. right. unfold New. fold q0 bytes. rewrite Hloop. cbn. split; discriminate.
  - right. right. unfold New. fold q0 bytes. rewrite Hloop. cbn. split; discriminate.
Qed.

End VersionChoice.

(** ** Options *)

Section Options.

Context `{C : Collaborators}.

Lemma QRCode_Set_unfold (q : QRCode) (opts : list Option) :
  QRCode_Set q opts = defaultColors (applyAll opts q).
Proof. reflexivity. Qed.

Lemma applyAll_app (l1 l2 : list Option) (q : QRCode) :
  applyAll (l1 ++ l2) q = applyAll l2 (applyAll l1 q).
Proof. unfold applyAll. apply fold_left_app. Qed.

(** The options of option.go leave the symbol, the mask and the
    QuitZoneSize field as they are. *)
Lemma package_option_frame (o : Option) (q : QRCode) :
  package_option o ->
  q_symbol (o q) = q_symbol q
  /\ q_QuitZoneSize (o q) = q_QuitZoneSize q
  /\ mask (o q) = mask q.
Proof.
  intros Ho. destruct Ho; try (repeat split; reflexivity);
    destruct c; repeat split; reflexivity.
Qed.

Lemma defaultColors_frame (q : QRCode) :
  q_symbol (defaultColors q) = q_symbol q
  /\ q_QuitZoneSize (defaultColors q) = q_QuitZoneSize q
  /\ mask (defaultColors q) = mask q
  /\ level (defaultColors q) = level q
  /\ margin (defaultColors q) = margin q.
Proof.
  unfold defaultColors.
  destruct (q_ForegroundColor q); cbn;
    match goal with |- context [match ?x with _ => _ end] => destruct x end;
    repeat split; reflexivity.
Qed.

Lemma QRCode_Set_frame (opts : list Option) :
  Forall package_option opts ->
  forall q,
    q_symbol (QRCode_Set q opts) = q_symbol q
    /\ q_QuitZoneSize (QRCode_Set q opts) = q_QuitZoneSize q
    /\ mask (QRCode_Set q opts) = mask q.
Proof.
  intros Hall q. rewrite QRCode_Set_unfold.
  destruct (defaultColors_frame (applyAll opts q)) as (-> & -> & -> & _).
  revert q. induction Hall as [|o opts Ho _ IH]; intros q; [auto|].
  cbn [applyAll fold_left]. fold (applyAll opts (o q)).
  destruct (IH (o q)) as (-> & -> & ->). now apply package_option_frame.
Qed.

Lemma Version_sameButVersionNumber (v : Z) (q : QRCode) :
  sameButVersionNumber (Version v q) q.
Proof. reflexivity. Qed.

Lemma package_option_sameButVersionNumber (o : Option) (q q' : QRCode) :
  package_option o ->
  sameButVersionNumber q q' ->
  sameButVersionNumber (o q) (o q').
Proof.
  unfold sameButVersionNumber. intros Ho H.
  destruct Ho.
  - change (with_width (with_VersionNumber q 0) w = with_width (with_VersionNumber q' 0) w).
    now rewrite H.
  - change (with_height (with_VersionNumber q 0) h = with_height (with_VersionNumber q' 0) h).
    now rewrite H.
  - change (with_margin (with_VersionNumber q 0) m = with_margin (with_VersionNumber q' 0) m).
    now rewrite H.
  - change (QuitZoneSize s (with_VersionNumber q 0) = QuitZoneSize s (with_VersionNumber q' 0)).
    now rewrite H.
  - destruct c;
      [change (with_ForegroundColor (with_VersionNumber q 0) (Some c)
               = with_ForegroundColor (with_VersionNumber q' 0) (Some c))
      |change (with_ForegroundColor (with_VersionNumber q 0) (Some color_Black)
               = with_ForegroundColor (with_VersionNumber q' 0) (Some color_Black))];
      now rewrite H.
  - destruct c;
      [change (with_BackgroundColor (with_VersionNumber q 0) (Some c)
               = with_BackgroundColor (with_VersionNumber q' 0) (Some c))
      |change (with_BackgroundColor (with_VersionNumber q 0) (Some color_White)
               = with_BackgroundColor (with_VersionNumber q' 0) (Some color_White))];
      now rewrite H.
  - change (with_level (with_VersionNumber q 0) l = with_level (with_VersionNumber q' 0) l).
    now rewrite H.
  - exact H.
Qed.

Lemma applyAll_sameButVersionNumber (opts : list Option) :
  Forall package_option opts ->
  forall q q', sameButVersionNumber q q' ->
               sameButVersionNumber (applyAll opts q) (applyAll opts q').
Proof.
  induction 1 as [|o opts Ho _ IH]; intros q q' H; [exact H|].
  cbn [applyAll fold_left]. apply IH. now apply package_option_sameButVersionNumber.
Qed.

Lemma defaultColors_with_VersionNumber (q : QRCode) (n : Z) :
  with_VersionNumber (defaultColors q) n = defaultColors (with_VersionNumber q n).
Proof.
  destruct q as [? ? ? fg bg ? ? ? ? ? ? ? ? ?]. destruct fg, bg; reflexivity.
Qed.

Lemma defaultColors_sameButVersionNumber (q q' : QRCode) :
  sameButVersionNumber q q' ->
  sameButVersionNumber (defaultColors q) (defaultColors q').
Proof.
  unfold sameButVersionNumber. intros H.
  now rewrite !defaultColors_with_VersionNumber, H.
Qed.

(** New reads of the QRCode that Set returns everything but VersionNumber,
    which it overwrites. *)
Lemma New_ignores_VersionNumber (content : string) (opts opts' : list Option) :
  sameButVersionNumber (QRCode_Set (QRCode_literal content) opts)
                       (QRCode_Set (QRCode_literal content) opts') ->
  New content opts = New content opts'.
Proof.
  unfold sameButVersionNumber, New.
  set (q0 := QRCode_Set (QRCode_literal content) opts).
  set (q0' := QRCode_Set (QRCode_literal content) opts').
  intros H.
  assert (Hl : level q0 = level q0')
    by exact (f_equal level H).
  rewrite Hl.
  destruct (chooseLoop _ _ _ _) as [st| | | |]; cbn [bind]; try reflexivity.
  destruct (cs_err st); [reflexivity|].
  destruct (cs_chosenVersion st) as [cv|]; [|reflexivity].
  destruct (cs_encoded st) as [enc|]; [|reflexivity].
  change (with_VersionNumber q0 (version cv))
    with (with_VersionNumber (with_VersionNumber q0 0) (version cv)).
  now rewrite H.
Qed.

End Options.

(** ** The claims about New, encode and newWithForcedVersion *)

Section Claims.

Context `{C : Collaborators}.

Lemma prepared_symbol (content : string) (opts : list Option) (t : dataEncoderType)
  (encoded : Bitset) (v : qrCodeVersion) :
  Forall package_option opts ->
  q_symbol (prepared (QRCode_Set (QRCode_literal content) opts) t encoded v) = None.
Proof.
  intros Hopts. cbn.
  now destruct (QRCode_Set_frame opts Hopts (QRCode_literal content)) as (-> & _).
Qed.

Lemma New_rejected_too_long (content : string) (opts : list Option) :
  let q0 := QRCode_Set (QRCode_literal content) opts in
  let bytes := list_byte_of_string content in
  (forall t, In t encoders -> rejects (level q0) bytes t) ->
  (forall e, dataEncoder_encode dataEncoderType27To40 bytes = Err e ->
             e = errContentTooLong) ->
  New content opts = Err errContentTooLong.
Proof.
  intros q0 bytes Hrej Herr. rewrite (New_rejected content opts Hrej).
  fold bytes. destruct (dataEncoder_encode dataEncoderType27To40 bytes) eqn:He;
    try reflexivity.
  now rewrite (Herr e eq_refl).
Qed.

(** C1.  When New succeeds, the mask stored in the QRCode is one of the
    eight candidates 0..7, the symbol stored is the candidate of that mask,
    no candidate has a lower penalty score, and every candidate of a smaller
    index has a strictly higher one. *)
Theorem New_stores_lowest_penalty_mask (content : string) (opts : list Option)
  (q' : QRCode) :
  Forall package_option opts ->
  New content opts = Ok q' ->
  exists encoded s,
    encodeBlocks q' = Ok encoded
    /\ q_symbol q' = Some s
    /\ 0 <= mask q' < 8
    /\ candidate q' encoded (mask q') = Ok s
    /\ forall m, 0 <= m < 8 ->
         exists sm, candidate q' encoded m = Ok sm
                    /\ penaltyScore s <= penaltyScore sm
                    /\ (m < mask q' -> penaltyScore s < penaltyScore sm).
Proof.
  intros Hopts Hnew.
  destruct (New_inv content opts (Ok q') Hnew)
    as [(l1 & t & l2 & enc & v & _ & _ & _ & _ & Hrun)|[(_ & e & He)|(_ & Hno)]];
    [|discriminate|now elim (Hno q')].
  symmetry in Hrun.
  apply encode_lowest_penalty in Hrun; [|now apply prepared_symbol].
  destruct Hrun as (q2 & encoded & s & _ & Hblocks & Hq' & Hmask & Hcand & Hmin).
  remember (mask q') as m0 eqn:Hm0. clear Hm0. subst q'.
  exists encoded, s. cbn [q_symbol mask with_symbol_mask].
  repeat split; auto; try lia.
  intros m Hm. destruct (Hmin m Hm) as (sm & Hsm & _ & Hle & Hlt).
  exists sm. repeat split; auto.
Qed.

(** C2.  New goes through the classes V1-V9, V10-V26, V27-V40 in this
    order, encoding the payload anew for each.  With the first class that
    takes it, New goes on to encode with the version chosen for that class,
    which is the smallest version of the class whose numDataBits at the
    level asked for holds the class's encoding.  When no class takes it New
    returns the content-too-long error (the encoder of the last class,
    when it fails, failing with that error, §4.4). *)
Theorem New_chooses_smallest_version (content : string) (opts : list Option) :
  let q0 := QRCode_Set (QRCode_literal content) opts in
  let bytes := list_byte_of_string content in
  encoders = [dataEncoderType1To9; dataEncoderType10To26; dataEncoderType27To40]
  /\ (forall l1 t l2 encoded v,
        encoders = l1 ++ t :: l2 ->
        (forall t', In t' l1 -> rejects (level q0) bytes t') ->
        dataEncoder_encode t bytes = Ok encoded ->
        chooseQRCodeVersion (level q0) t (bitset.Len encoded) = Some v ->
        New content opts
        = encode (prepared q0 t encoded v)
            (numTerminatorBitsRequired v (bitset.Len encoded))
        /\ VersionNumber (prepared q0 t encoded v) = version v
        /\ (forall q', New content opts = Ok q' -> VersionNumber q' = version v)
        /\ In v versions
        /\ v_level v = level q0
        /\ minVersion t <= version v <= maxVersion t
        /\ bitset.Len encoded <= numDataBits v
        /\ forall v', In v' versions ->
                      v_level v' = level q0 ->
                      minVersion t <= version v' <= maxVersion t ->
                      bitset.Len encoded <= numDataBits v' ->
                      version v <= version v')
  /\ ((forall t, In t encoders -> rejects (level q0) bytes t) ->
      (forall e, dataEncoder_encode dataEncoderType27To40 bytes = Err e ->
                 e = errContentTooLong) ->
      New content opts = Err errContentTooLong).
Proof.
  intros q0 bytes. split; [reflexivity|]. split.
  - intros l1 t l2 encoded v Hsplit Hrej Henc Hch.
    pose proof (New_accepted content opts l1 l2 t encoded v Hsplit Hrej Henc Hch) as Hnew.
    fold q0 in Hnew.
    destruct (chooseQRCodeVersion_Some _ _ _ _ Hch) as (Hin & Hfit & Hmin).
    apply fitsVersion_spec in Hfit as (Hl & Hr & Hcap).
    repeat split; auto; try lia.
    + intros q' Hok. rewrite Hnew in Hok.
      rewrite encode_unfold in Hok.
      destruct (padded _ _) as [q2| | | |] eqn:Hp; cbn [bind] in Hok; try discriminate.
      destruct (encodeBlocks q2) as [e2| | | |]; cbn [bind] in Hok; try discriminate.
      apply encodeMasks_frame in Hok. apply padded_frame in Hp as (d2 & -> & _).
      rewrite Hok. reflexivity.
    + intros v' Hv' Hl' Hr' Hcap'. apply Hmin; auto.
      apply fitsVersion_spec. auto.
  - intros Hrej Herr. now apply New_rejected_too_long.
Qed.

(** C5, as the code has it.  New returns the content-too-long error
    exactly when no class takes the payload, a class taking it when its
    encoder succeeds and a version of the class has room for the encoding at
    the recovery level asked for: the capacity that counts is that of the
    level asked for, not that of level L. *)
Theorem New_content_too_long_iff (content : string) (opts : list Option) :
  let q0 := QRCode_Set (QRCode_literal content) opts in
  let bytes := list_byte_of_string content in
  (forall e, dataEncoder_encode dataEncoderType27To40 bytes = Err e ->
             e = errContentTooLong) ->
  (New content opts = Err errContentTooLong
   <-> forall t, In t encoders -> rejects (level q0) bytes t).
Proof.
  intros q0 bytes Herr. split.
  - intros Hnew.
    destruct (New_inv content opts _ Hnew)
      as [(l1 & t & l2 & enc & v & _ & _ & _ & _ & Hrun)|[(Hrej & _)|(Hno & _)]].
    + symmetry in Hrun. now apply encode_no_error in Hrun.
    + exact Hrej.
    + now elim (Hno errContentTooLong).
  - intros Hrej. now apply New_rejected_too_long.
Qed.

(** C6, as the code has it.  Called with a version outside 1..40,
    newWithForcedVersion ends the process through log.Fatalf and returns
    nothing.  Called with a version in 1..40 it goes on with the encoder of
    the version's class, and the errors it returns are the error of that
    encoder and, when the table has no descriptor, "cannot find QR Code
    version". *)
Theorem newWithForcedVersion_outcomes (content : string) (ver : Z) (lvl : RecoveryLevel) :
  let bytes := list_byte_of_string content in
  ((ver < 1 \/ 40 < ver) ->
   newWithForcedVersion content ver lvl = Fatal msgInvalidVersion)
  /\ (1 <= ver <= 40 ->
      exists t,
        forcedEncoder ver = Ok t
        /\ minVersion t <= ver <= maxVersion t
        /\ forall e,
             newWithForcedVersion content ver lvl = Err e
             <-> (dataEncoder_encode t bytes = Err e
                  \/ (exists encoded, dataEncoder_encode t bytes = Ok encoded)
                     /\ getQRCodeVersion lvl ver = None
                     /\ e = errCannotFindVersion)).
Proof.
  intros bytes. split.
  - intros Hout. unfold newWithForcedVersion, forcedEncoder.
    replace ((1 <=? ver) && (ver <=? 9)) with false by (symmetry; apply andb_false_iff; lia).
    replace ((10 <=? ver) && (ver <=? 26)) with false
      by (symmetry; apply andb_false_iff; lia).
    replace ((27 <=? ver) && (ver <=? 40)) with false
      by (symmetry; apply andb_false_iff; lia).
    reflexivity.
  - intros Hin.
    assert (Ht : exists t, forcedEncoder ver = Ok t /\ minVersion t <= ver <= maxVersion t).
    { unfold forcedEncoder.
      destruct ((1 <=? ver) && (ver <=? 9)) eqn:H1;
        [exists dataEncoderType1To9; split; [reflexivity|cbn; lia]|].
      destruct ((10 <=? ver) && (ver <=? 26)) eqn:H2;
        [exists dataEncoderType10To26; split; [reflexivity|cbn; lia]|].
      destruct ((27 <=? ver) && (ver <=? 40)) eqn:H3;
        [exists dataEncoderType27To40; split; [reflexivity|cbn; lia]|].
      apply andb_false_iff in H1, H2, H3. lia. }
    destruct Ht as (t & Ht & Hrange). exists t. repeat split; try lia; auto.
    + unfold newWithForcedVersion. rewrite Ht. cbn [bind]. fold bytes.
      destruct (dataEncoder_encode t bytes) as [enc|e'| | |]; cbn [bind]; try discriminate.
      * destruct (getQRCodeVersion lvl ver) as [cv|].
        -- intros Hrun. now apply encode_no_error in Hrun.
        -- intros [= <-]. right. eauto.
      * intros [= <-]. now left.
    + unfold newWithForcedVersion. rewrite Ht. cbn [bind]. fold bytes.
      intros [He|((enc & He) & Hnone & ->)]; rewrite He; cbn [bind]; [reflexivity|].
      now rewrite Hnone.
Qed.

Lemma allMasks_before (m : Z) :
  0 <= m < 8 ->
  exists l1 l2, allMasks = l1 ++ m :: l2 /\ forall x, In x l1 -> 0 <= x < m.
Proof.
  intros Hm. change allMasks with [0; 1; 2; 3; 4; 5; 6; 7].
  assert (Hcases : m = 0 \/ m = 1 \/ m = 2 \/ m = 3 \/ m = 4 \/ m = 5 \/ m = 6 \/ m = 7)
    by lia.
  destruct Hcases as [->|[->|[->|[->|[->|[->|[->| ->]]]]]]].
  - exists [], [1; 2; 3; 4; 5; 6; 7]. split; [reflexivity|]. cbn [In]. lia.
  - exists [0], [2; 3; 4; 5; 6; 7]. split; [reflexivity|]. cbn [In]. lia.
  - exists [0; 1], [3; 4; 5; 6; 7]. split; [reflexivity|]. cbn [In]. lia.
  - exists [0; 1; 2], [4; 5; 6; 7]. split; [reflexivity|]. cbn [In]. lia.
  - exists [0; 1; 2; 3], [5; 6; 7]. split; [reflexivity|]. cbn [In]. lia.
  - exists [0; 1; 2; 3; 4], [6; 7]. split; [reflexivity|]. cbn [In]. lia.
  - exists [0; 1; 2; 3; 4; 5], [7]. split; [reflexivity|]. cbn [In]. lia.
  - exists [0; 1; 2; 3; 4; 5; 6], []. split; [reflexivity|]. cbn [In]. lia.
Qed.

(** The loop over the masks panics at the first candidate with an empty
    module. *)
Lemma encodeMasks_empty_modules (encoded : Bitset) (l1 : list Z) :
  forall m l2 q pen s,
    (forall x, In x l1 ->
               exists s', candidate q encoded x = Ok s' /\ numEmptyModules s' = 0) ->
    candidate q encoded m = Ok s ->
    numEmptyModules s <> 0 ->
    encodeMasks (l1 ++ m :: l2) encoded q pen = Panic msgEmptyModules.
Proof.
  induction l1 as [|x l1 IH]; intros m l2 q pen s Hbefore Hc He;
    cbn [app encodeMasks].
  - unfold candidate in Hc. rewrite Hc.
    now rewrite (proj2 (Z.eqb_neq _ _) He).
  - destruct (Hbefore x (or_introl eq_refl)) as (s' & Hs' & He').
    unfold candidate in Hs'. rewrite Hs', He'. cbn [Z.eqb].
    assert (Hrest : forall y, In y l1 ->
               exists s'', candidate q encoded y = Ok s'' /\ numEmptyModules s'' = 0)
      by (intros y Hy; apply Hbefore; now right).
    destruct (q_symbol q); [destruct (penaltyScore s' <? pen)|];
      eapply IH; eauto.
Qed.

(** C7.  encode has no error to return: a buffer that does not have
    numDataBits bits after the padding makes addPadding, and with it
    encode, panic; so does the first candidate symbol with a non-zero count
    of empty modules.  The errors New returns are all decided before encode
    is called. *)
Theorem invariant_violations_panic :
  (forall q n e, encode q n <> Err e)
  /\ (forall q,
        (exists q' d', addPadding q = Ok q' /\ data q' = Some d'
                       /\ bitset.Len d' = numDataBits (q_version q'))
        \/ (exists msg, addPadding q = Panic msg))
  /\ (forall q d,
        data q = Some d ->
        numDataBits (q_version q) < bitset.Len d ->
        addPadding q = Panic msgPaddingLength)
  /\ (forall q n q1 msg,
        addTerminatorBits q n = Ok q1 ->
        addPadding q1 = Panic msg ->
        encode q n = Panic msg)
  /\ (forall q n q2 encoded m s,
        padded q n = Ok q2 ->
        encodeBlocks q2 = Ok encoded ->
        0 <= m < 8 ->
        (forall x, 0 <= x < m ->
                   exists s', candidate q2 encoded x = Ok s' /\ numEmptyModules s' = 0) ->
        candidate q2 encoded m = Ok s ->
        numEmptyModules s <> 0 ->
        encode q n = Panic msgEmptyModules)
  /\ (forall content opts e,
        New content opts = Err e ->
        forall t, In t encoders ->
                  rejects (level (QRCode_Set (QRCode_literal content) opts))
                          (list_byte_of_string content) t).
Proof.
  split; [exact encode_no_error|].
  split.
  { intros q. destruct (addPadding_outcome q) as [(q' & d' & H & Hd & Hl & _)|H];
      [left; exists q', d'; auto|right; exact H]. }
  split.
  { intros q d Hd Hlong. unfold addPadding. rewrite Hd.
    replace (bitset.Len d =? numDataBits (q_version q)) with false
      by (symmetry; apply Z.eqb_neq; lia).
    set (d1 := bitset.AppendNumBools d _ false).
    assert (Hd1 : bitset.Len d <= bitset.Len d1).
    { unfold d1. rewrite Len_AppendNumBools. lia. }
    destruct (padLoop_spec (Z.to_nat (numDataBits (q_version q)))
                (numDataBits (q_version q)) d1 0) as (k & Hrun & Hend & Hk).
    { pose proof (Len_nonneg d1). lia. }
    change (parityIndex 0) with 0 in Hrun. rewrite Hrun. cbn [bind].
    rewrite Len_app, Len_flat_pad.
    replace (_ =? _) with false by (symmetry; apply Z.eqb_neq; lia).
    reflexivity. }
  split.
  { intros q n q1 msg Ht Hp. unfold encode. rewrite Ht. cbn [bind]. now rewrite Hp. }
  split.
  { intros q n q2 encoded m s Hp Hb Hm Hbefore Hc He.
    rewrite encode_unfold, Hp. cbn [bind]. rewrite Hb. cbn [bind].
    destruct (allMasks_before m Hm) as (l1 & l2 & -> & Hl1).
    eapply encodeMasks_empty_modules; eauto. }
  intros content opts e Hnew.
  destruct (New_inv content opts _ Hnew)
    as [(l1 & t & l2 & enc & v & _ & _ & _ & _ & Hrun)|[(Hrej & _)|(Hno & _)]].
  - symmetry in Hrun. now apply encode_no_error in Hrun.
  - exact Hrej.
  - now elim (Hno e).
Qed.


(** C10.  The option Version(v) changes nothing in what New does: put
    anywhere before options of option.go, it leaves the outcome of New, the
    version, the mask and the bitmap of the QRCode included, as it is
    without it, for New overwrites VersionNumber with the version it
    chooses. *)
Theorem Version_option_has_no_effect (content : string) (v : Z)
  (before after : list Option) :
  Forall package_option after ->
  New content (before ++ Version v :: after) = New content (before ++ after)
  /\ forall q1 q2,
       New content (before ++ Version v :: after) = Ok q1 ->
       New content (before ++ after) = Ok q2 ->
       VersionNumber q1 = VersionNumber q2
       /\ mask q1 = mask q2
       /\ Bitmap q1 = Bitmap q2.
Proof.
  intros Hafter.
  assert (Hnew : New content (before ++ Version v :: after) = New content (before ++ after)).
  { apply New_ignores_VersionNumber. rewrite !QRCode_Set_unfold.
    apply defaultColors_sameButVersionNumber.
    rewrite !applyAll_app. cbn [applyAll fold_left].
    apply (applyAll_sameButVersionNumber after Hafter).
    apply Version_sameButVersionNumber. }
  split; [exact Hnew|].
  intros q1 q2 H1 H2. rewrite Hnew, H2 in H1. injection H1 as <-. auto.
Qed.

End Claims.

(** ** The final message stream of §4.6, as the spec words it *)

Section FinalMessage.

Context `{C : Collaborators}.

Lemma setBlock_app (done : list dataBlock) (k : nat) (x : dataBlock) :
  setBlock (done ++ repeat dataBlock_zero (S k)) (length done) x
  = Some (done ++ x :: repeat dataBlock_zero k).
Proof.
  induction done as [|b done IH]; cbn [app length setBlock repeat]; [reflexivity|].
  cbn [repeat] in IH. now rewrite IH.
Qed.

Lemma Len_segment (d : Bitset) (e n : Z) :
  0 <= e -> 0 <= n -> e + n <= bitset.Len d ->
  bitset.Len (firstn (Z.to_nat n) (skipn (Z.to_nat e) d)) = n.
Proof.
  intros He Hn Hlen. unfold bitset.Len in *.
  rewrite length_firstn, length_skipn. lia.
Qed.

(** The turns of the inner splitting loop fill the next [n] places of the
    slice with the next [n] blocks of the split. *)
Lemma splitGroup_spec (d : Bitset) (g : block) (n : nat) :
  forall done k e s0,
    0 <= numDataCodewords g ->
    0 <= e ->
    e + Z.of_nat n * (8 * numDataCodewords g) <= bitset.Len d ->
    exists s1,
      splitGroup d g n
        (mkSplit s0 e (Z.of_nat (length done)) (done ++ repeat dataBlock_zero (n + k)))
      = Ok (mkSplit s1 (e + Z.of_nat n * (8 * numDataCodewords g))
              (Z.of_nat (length done + n))
              ((done ++ map toDataBlock
                        (splitAt d e
                           (repeat (numDataCodewords g, numCodewords g - numDataCodewords g) n)))
               ++ repeat dataBlock_zero k)).
Proof.
  induction n as [|n IH]; intros done k e s0 Hnd He Hlen.
  - exists s0. cbn [splitGroup repeat splitAt map Nat.add].
    rewrite app_nil_r, Nat.add_0_r. do 2 f_equal. lia.
  - cbn [splitGroup]. unfold splitStep. cbn [sp_end sp_blockID sp_block].
    rewrite Substr_ok by lia. cbn [bind].
    replace (Z.of_nat (length done) <? 0) with false by (symmetry; apply Z.ltb_ge; lia).
    rewrite Nat2Z.id. cbn [Nat.add]. rewrite setBlock_app.
    set (D := firstn _ (skipn (Z.to_nat e) d)).
    set (x := mkDataBlock _ _).
    destruct (IH (done ++ [x]) k (e + numDataCodewords g * 8) e Hnd) as (s1 & Hrun);
      try lia.
    exists s1. rewrite length_app in Hrun. cbn [length] in Hrun.
    replace (Z.of_nat (length done) + 1) with (Z.of_nat (length done + 1)) by lia.
    rewrite <- app_assoc in Hrun. cbn [app] in Hrun. cbn [bind]. rewrite Hrun.
    f_equal. f_equal; try lia.
    cbn [repeat splitAt map]. rewrite <- !app_assoc. cbn [app].
    do 2 f_equal.
    + unfold x, toDataBlock. cbn [fst snd]. subst D. f_equal.
      * do 3 f_equal. lia.
      * replace (8 * numDataCodewords g) with (numDataCodewords g * 8) by lia.
        rewrite Len_segment; lia.
    + do 3 f_equal. lia.
Qed.

Lemma fold_left_add {A : Type} (f : A -> Z) (l : list A) :
  forall acc, fold_left (fun a x => a + f x) l acc = acc + fold_left (fun a x => a + f x) l 0.
Proof.
  induction l as [|x l IH]; intros acc; cbn [fold_left]; [lia|].
  rewrite IH, (IH (0 + f x)). lia.
Qed.

Lemma numDataCodewordsTotal_sum (v : qrCodeVersion) :
  numDataCodewordsTotal v = dataCodewordsSum (v_block v).
Proof.
  unfold numDataCodewordsTotal. induction (v_block v) as [|g rest IH]; [reflexivity|].
  cbn [fold_left dataCodewordsSum].
  rewrite (fold_left_add (fun b => numBlocks b * numDataCodewords b)), IH. lia.
Qed.

Lemma dataCodewordsSum_nonneg (groups : list block) :
  Forall wellFormedGroup groups -> 0 <= dataCodewordsSum groups.
Proof.
  induction 1 as [|g rest [Hn Hd] _ IH]; cbn [dataCodewordsSum]; [lia|nia].
Qed.

Lemma numBlocks_shapes (v : qrCodeVersion) :
  Forall wellFormedGroup (v_block v) ->
  qrCodeVersion_numBlocks v = Z.of_nat (length (blockShapes (v_block v))).
Proof.
  unfold qrCodeVersion_numBlocks. induction 1 as [|g rest [Hn Hd] _ IH]; [reflexivity|].
  cbn [fold_left blockShapes flat_map].
  fold (blockShapes rest).
  rewrite (fold_left_add numBlocks), IH, length_app, repeat_length. lia.
Qed.

Lemma splitAt_app (d : Bitset) (l1 : list (Z * Z)) :
  forall e l2,
    splitAt d e (l1 ++ l2)
    = splitAt d e l1 ++ splitAt d (e + 8 * fold_right (fun s acc => fst s + acc) 0 l1) l2.
Proof.
  induction l1 as [|[nd ne] l1 IH]; intros e l2; cbn [app splitAt fold_right fst].
  - f_equal. lia.
  - rewrite IH. do 3 f_equal. lia.
Qed.

Lemma sum_repeat (nd ne : Z) (n : nat) :
  fold_right (fun (s : Z * Z) acc => fst s + acc) 0 (repeat (nd, ne) n) = Z.of_nat n * nd.
Proof.
  induction n as [|n IH]; [reflexivity|]. cbn [repeat fold_right fst]. rewrite IH. lia.
Qed.

(** The splitting loops fill the slice with the blocks of the split. *)
Lemma splitBlocks_spec (d : Bitset) (groups : list block) :
  forall done k e s0,
    Forall wellFormedGroup groups ->
    0 <= e ->
    e + 8 * dataCodewordsSum groups <= bitset.Len d ->
    exists s1 e1,
      splitBlocks d groups
        (mkSplit s0 e (Z.of_nat (length done))
           (done ++ repeat dataBlock_zero (length (blockShapes groups) + k)))
      = Ok (mkSplit s1 e1 (Z.of_nat (length done + length (blockShapes groups)))
              ((done ++ map toDataBlock (splitAt d e (blockShapes groups)))
               ++ repeat dataBlock_zero k)).
Proof.
  induction groups as [|g rest IH]; intros done k e s0 Hwf He Hlen.
  - exists s0, e. cbn [splitBlocks blockShapes flat_map length splitAt map Nat.add].
    now rewrite app_nil_r, Nat.add_0_r.
  - inversion Hwf as [|? ? [Hn [Hd Hc]] Hwf']; subst.
    cbn [dataCodewordsSum] in Hlen.
    pose proof (dataCodewordsSum_nonneg rest Hwf') as Hrest.
    cbn [splitBlocks blockShapes flat_map]. fold (blockShapes rest).
    set (n := Z.to_nat (numBlocks g)).
    set (shape := (numDataCodewords g, numCodewords g - numDataCodewords g)).
    assert (Hn' : Z.of_nat n = numBlocks g) by (unfold n; lia).
    rewrite length_app, repeat_length, <- Nat.add_assoc.
    assert (Hgroup : e + Z.of_nat n * (8 * numDataCodewords g) <= bitset.Len d) by nia.
    destruct (splitGroup_spec d g n done (length (blockShapes rest) + k) e s0 Hd He Hgroup)
      as (s1 & Hrun).
    rewrite Hrun. cbn [bind].
    set (done' := done ++ map toDataBlock (splitAt d e (repeat shape n))).
    assert (Hlen' : length done' = (length done + n)%nat).
    { unfold done'. rewrite length_app, length_map.
      f_equal. clear. revert e. induction n as [|n IHn]; intros e; [reflexivity|].
      unfold shape in *. cbn [repeat splitAt length]. now rewrite IHn. }
    rewrite <- Hlen'.
    assert (He' : 0 <= e + Z.of_nat n * (8 * numDataCodewords g)) by nia.
    assert (Hlen'' : e + Z.of_nat n * (8 * numDataCodewords g) + 8 * dataCodewordsSum rest
                     <= bitset.Len d) by nia.
    destruct (IH done' k (e + Z.of_nat n * (8 * numDataCodewords g)) s1 Hwf' He' Hlen'')
      as (s2 & e2 & Hrun').
    exists s2, e2. refine (eq_trans Hrun' _). f_equal. f_equal.
    + rewrite Hlen'. f_equal. lia.
    + f_equal. unfold done'. rewrite <- app_assoc, <- map_app. do 2 f_equal.
      rewrite splitAt_app. f_equal. f_equal. unfold shape. rewrite sum_repeat. lia.
Qed.

(** *** The combining loops *)

Lemma length_codewords (n : nat) : forall b, length (codewords n b) = n.
Proof. induction n as [|n IH]; intros b; cbn [codewords length]; auto. Qed.

Lemma nth_error_codewords (n : nat) :
  forall b i, (i < n)%nat ->
              nth_error (codewords n b) i = Some (firstn 8 (skipn (8 * i) b)).
Proof.
  induction n as [|n IH]; intros b i Hi; [lia|].
  destruct i as [|i]; cbn [codewords nth_error]; [reflexivity|].
  rewrite IH by lia. rewrite skipn_skipn. do 3 f_equal. lia.
Qed.

Lemma column_cons (i : nat) (cw : list Bitset) (cws : list (list Bitset)) :
  column i (cw :: cws)
  = match nth_error cw i with Some x => [x] | None => [] end ++ column i cws.
Proof. reflexivity. Qed.

Lemma longest_cons (cw : list Bitset) (cws : list (list Bitset)) :
  longest (cw :: cws) = Nat.max (length cw) (longest cws).
Proof. reflexivity. Qed.

Lemma column_beyond (i : nat) (cws : list (list Bitset)) :
  (longest cws <= i)%nat -> column i cws = [].
Proof.
  induction cws as [|cw cws IH]; intros Hi; [reflexivity|].
  rewrite longest_cons in Hi. rewrite column_cons, IH by lia.
  now rewrite (proj2 (nth_error_None cw i)) by lia.
Qed.

Lemma combineDataRow_spec (i : nat) (blocks : list dataBlock) (cws : list (list Bitset)) :
  Forall2 dataView blocks cws ->
  forall result working,
    combineDataRow (8 * Z.of_nat i) blocks result working
    = Ok (result ++ concat (column i cws), working || (i <? longest cws)%nat).
Proof.
  induction 1 as [|b cw blocks cws (bd & Hbd & Hoff & Hcw) _ IH]; intros result working.
  - cbn. now rewrite app_nil_r, orb_false_r.
  - cbn [combineDataRow]. rewrite Hoff, column_cons, longest_cons.
    destruct (Nat.ltb_spec i (length cw)) as [Hlt|Hge].
    + replace (8 * Z.of_nat (length cw) <=? 8 * Z.of_nat i) with false
        by (symmetry; apply Z.leb_gt; lia).
      destruct (Hcw i Hlt) as [Hroom Hnth]. rewrite Hbd, Hnth.
      rewrite Substr_ok by lia. cbn [bind]. rewrite IH.
      unfold bitset.Append. cbn [concat app]. rewrite <- app_assoc.
      replace (Z.to_nat (8 * Z.of_nat i + 8 - 8 * Z.of_nat i)) with 8%nat by lia.
      replace (Z.to_nat (8 * Z.of_nat i)) with (8 * i)%nat by lia.
      f_equal. f_equal.
      replace (i <? Nat.max (length cw) (longest cws))%nat with true
        by (symmetry; apply Nat.ltb_lt; lia).
      now rewrite orb_true_r.
    + replace (8 * Z.of_nat (length cw) <=? 8 * Z.of_nat i) with true
        by (symmetry; apply Z.leb_le; lia).
      rewrite IH. rewrite (proj2 (nth_error_None cw i)) by lia. cbn [app].
      do 3 f_equal. destruct (Nat.ltb_spec i (longest cws));
        [symmetry; apply Nat.ltb_lt|symmetry; apply Nat.ltb_ge]; lia.
Qed.

Lemma combineData_spec (blocks : list dataBlock) (cws : list (list Bitset)) :
  Forall2 dataView blocks cws ->
  forall fuel i result,
    (longest cws - i < fuel)%nat ->
    combineData fuel (8 * Z.of_nat i) blocks result
    = Ok (result ++ concat (flat_map (fun j => column j cws) (seq i (longest cws - i)))).
Proof.
  intros Hview. induction fuel as [|fuel IH]; intros i result Hfuel; [lia|].
  cbn [combineData]. rewrite (combineDataRow_spec i blocks cws Hview). cbn [bind fst snd orb].
  destruct (Nat.ltb_spec i (longest cws)) as [Hlt|Hge].
  - replace (8 * Z.of_nat i + 8) with (8 * Z.of_nat (S i)) by lia.
    rewrite IH by lia.
    replace (longest cws - i)%nat with (S (longest cws - S i)) by lia.
    cbn [seq flat_map]. now rewrite concat_app, app_assoc.
  - replace (longest cws - i)%nat with 0%nat by lia.
    rewrite column_beyond by lia. reflexivity.
Qed.

Lemma combineECRow_spec (i : nat) (blocks : list dataBlock) (cws : list (list Bitset)) :
  Forall2 ecView blocks cws ->
  forall result working,
    combineECRow (8 * Z.of_nat i) blocks result working
    = Ok (result ++ concat (column i cws), working || (i <? longest cws)%nat).
Proof.
  induction 1 as [|b cw blocks cws (bd & Hbd & Hoff & Hlen & Hcw) _ IH];
    intros result working.
  - cbn. now rewrite app_nil_r, orb_false_r.
  - cbn [combineECRow]. rewrite Hbd, Hlen, column_cons, longest_cons.
    destruct (Nat.ltb_spec i (length cw)) as [Hlt|Hge].
    + replace (ecStartOffset b + 8 * Z.of_nat (length cw) <=? 8 * Z.of_nat i + ecStartOffset b)
        with false by (symmetry; apply Z.leb_gt; lia).
      rewrite (Hcw i Hlt). rewrite Substr_ok by lia. cbn [bind]. rewrite IH.
      unfold bitset.Append. cbn [concat app]. rewrite <- app_assoc.
      replace (Z.to_nat (8 * Z.of_nat i + ecStartOffset b + 8
                         - (8 * Z.of_nat i + ecStartOffset b))) with 8%nat by lia.
      replace (Z.to_nat (8 * Z.of_nat i + ecStartOffset b))
        with (Z.to_nat (ecStartOffset b) + 8 * i)%nat by lia.
      f_equal. f_equal.
      replace (i <? Nat.max (length cw) (longest cws))%nat with true
        by (symmetry; apply Nat.ltb_lt; lia).
      now rewrite orb_true_r.
    + replace (ecStartOffset b + 8 * Z.of_nat (length cw) <=? 8 * Z.of_nat i + ecStartOffset b)
        with true by (symmetry; apply Z.leb_le; lia).
      rewrite IH. rewrite (proj2 (nth_error_None cw i)) by lia. cbn [app].
      do 3 f_equal. destruct (Nat.ltb_spec i (longest cws));
        [symmetry; apply Nat.ltb_lt|symmetry; apply Nat.ltb_ge]; lia.
Qed.

Lemma combineEC_spec (blocks : list dataBlock) (cws : list (list Bitset)) :
  Forall2 ecView blocks cws ->
  forall fuel i result,
    (longest cws - i < fuel)%nat ->
    combineEC fuel (8 * Z.of_nat i) blocks result
    = Ok (result ++ concat (flat_map (fun j => column j cws) (seq i (longest cws - i)))).
Proof.
  intros Hview. induction fuel as [|fuel IH]; intros i result Hfuel; [lia|].
  cbn [combineEC]. rewrite (combineECRow_spec i blocks cws Hview). cbn [bind fst snd orb].
  destruct (Nat.ltb_spec i (longest cws)) as [Hlt|Hge].
  - replace (8 * Z.of_nat i + 8) with (8 * Z.of_nat (S i)) by lia.
    rewrite IH by lia.
    replace (longest cws - i)%nat with (S (longest cws - S i)) by lia.
    cbn [seq flat_map]. now rewrite concat_app, app_assoc.
  - replace (longest cws - i)%nat with 0%nat by lia.
    rewrite column_beyond by lia. reflexivity.
Qed.

(** The fuel encodeBlocks gives the two loops is enough. *)
Lemma combineDataFuel_enough (blocks : list dataBlock) (cws : list (list Bitset)) :
  Forall2 dataView blocks cws -> (longest cws < combineDataFuel blocks)%nat.
Proof.
  unfold combineDataFuel. intros Hview.
  enough (Z.of_nat (longest cws) <= fold_right Z.max 0 (map ecStartOffset blocks)) by lia.
  induction Hview as [|b cw blocks cws (bd & _ & Hoff & _) _ IH]; [reflexivity|].
  rewrite longest_cons. cbn [map fold_right]. lia.
Qed.

Lemma combineECFuel_enough (blocks : list dataBlock) (cws : list (list Bitset)) :
  Forall2 ecView blocks cws -> (longest cws < combineECFuel blocks)%nat.
Proof.
  unfold combineECFuel. intros Hview.
  enough (Z.of_nat (longest cws)
          <= fold_right Z.max 0 (map (fun b => dataLen b - ecStartOffset b) blocks)) by lia.
  induction Hview as [|b cw blocks cws (bd & Hbd & _ & Hlen & _) _ IH]; [reflexivity|].
  rewrite longest_cons. cbn [map fold_right]. unfold dataLen at 1. rewrite Hbd. lia.
Qed.

(** *** The blocks of the split, as the loops read them *)

Lemma toDataBlock_dataView (blk : Bitset * Z) :
  appendsCodewords -> wholeCodewords blk ->
  dataView (toDataBlock blk) (dataCodewordsOf blk).
Proof.
  intros Hrs [[n Hn] Ht]. destruct blk as [D t]. cbn [fst snd] in *.
  destruct (Hrs D t Ht) as (E & HE & HlenE).
  exists (D ++ E). unfold toDataBlock, dataCodewordsOf. cbn [fst snd db_data ecStartOffset].
  rewrite HE, Hn. replace (8 * n / 8)%nat with n by (rewrite Nat.mul_comm, Nat.div_mul; lia).
  rewrite length_codewords. split; [reflexivity|]. split.
  { unfold bitset.Len. lia. }
  intros i Hi. split.
  { rewrite Len_app. unfold bitset.Len at 1. pose proof (Len_nonneg E). lia. }
  rewrite nth_error_codewords by exact Hi. f_equal.
  rewrite skipn_app, firstn_app, length_skipn.
  replace (8 * i - length D)%nat with 0%nat by lia.
  replace (8 - (length D - 8 * i))%nat with 0%nat by lia.
  cbn [skipn firstn]. now rewrite app_nil_r.
Qed.

Lemma toDataBlock_ecView (blk : Bitset * Z) :
  appendsCodewords -> wholeCodewords blk ->
  ecView (toDataBlock blk) (ecCodewordsOf blk).
Proof.
  intros Hrs [_ Ht]. destruct blk as [D t]. cbn [fst snd] in *.
  destruct (Hrs D t Ht) as (E & HE & HlenE).
  exists (D ++ E). unfold toDataBlock, ecCodewordsOf. cbn [fst snd db_data ecStartOffset].
  rewrite HE, length_codewords. split; [reflexivity|]. split; [apply Len_nonneg|]. split.
  { rewrite Len_app. lia. }
  intros i Hi. rewrite nth_error_codewords by exact Hi.
  rewrite skipn_skipn. do 3 f_equal. unfold bitset.Len. lia.
Qed.

Lemma splitAt_wholeCodewords (d : Bitset) (shapes : list (Z * Z)) :
  forall e,
    Forall (fun s => 0 <= fst s /\ 0 <= snd s) shapes ->
    0 <= e ->
    e + 8 * fold_right (fun s acc => fst s + acc) 0 shapes <= bitset.Len d ->
    Forall wholeCodewords (splitAt d e shapes).
Proof.
  induction shapes as [|[nd ne] shapes IH]; intros e Hwf He Hlen; cbn [splitAt];
    [constructor|].
  inversion Hwf as [|? ? [Hnd Hne] Hwf']; subst. cbn [fst snd fold_right] in *.
  assert (Hsum : 0 <= fold_right (fun s acc => fst s + acc) 0 shapes).
  { clear -Hwf'. induction Hwf' as [|s l [H _] _ IH]; cbn [fold_right]; lia. }
  constructor.
  - split; [|exact Hne]. exists (Z.to_nat nd). cbn [fst].
    rewrite length_firstn, length_skipn. unfold bitset.Len in Hlen. lia.
  - apply IH; auto; lia.
Qed.

Lemma blockShapes_wellFormed (groups : list block) :
  Forall wellFormedGroup groups ->
  Forall (fun s => 0 <= fst s /\ 0 <= snd s) (blockShapes groups)
  /\ fold_right (fun s acc => fst s + acc) 0 (blockShapes groups) = dataCodewordsSum groups.
Proof.
  induction 1 as [|g rest [Hn [Hd Hc]] _ [IH1 IH2]]; [split; [constructor|reflexivity]|].
  cbn [blockShapes flat_map dataCodewordsSum]. fold (blockShapes rest). split.
  - apply Forall_app. split; [|exact IH1].
    apply Forall_forall. intros s Hs. apply repeat_spec in Hs. subst s. cbn. lia.
  - rewrite fold_right_app, IH2.
    remember (Z.to_nat (numBlocks g)) as n eqn:Hn'.
    replace (numBlocks g) with (Z.of_nat n) by lia. clear Hn' Hn.
    induction n as [|n IHn]; [reflexivity|].
    cbn [repeat fold_right fst]. rewrite IHn. lia.
Qed.

Lemma Forall_Forall2_map {A B D : Type} (P : A -> Prop) (R : B -> D -> Prop)
  (f : A -> B) (g : A -> D) (l : list A) :
  (forall x, P x -> R (f x) (g x)) -> Forall P l -> Forall2 R (map f l) (map g l).
Proof. intros HPR. induction 1; cbn [map]; constructor; auto. Qed.

(** C3.  For every block layout with its data in full, encodeBlocks
    returns the data codewords of the blocks interleaved column by column
    (at column i every block, in order, that has an i-th data codeword gives
    it, a block that has none gives nothing), then the EC codewords
    interleaved the same way, then numRemainderBits zero bits. *)
Theorem encodeBlocks_interleaves (q : QRCode) (d : Bitset) :
  data q = Some d ->
  Forall wellFormedGroup (v_block (q_version q)) ->
  numDataBits (q_version q) <= bitset.Len d ->
  appendsCodewords ->
  encodeBlocks q = Ok (finalMessage (q_version q) d).
Proof.
  intros Hd Hwf Hlen Hrs. unfold encodeBlocks, finalMessage.
  set (shapes := blockShapes (v_block (q_version q))).
  set (blks := splitAt d 0 shapes).
  rewrite (numBlocks_shapes _ Hwf). fold shapes.
  replace (Z.of_nat (length shapes) <? 0) with false by (symmetry; apply Z.ltb_ge; lia).
  rewrite Hd, Nat2Z.id.
  unfold numDataBits in Hlen. rewrite numDataCodewordsTotal_sum in Hlen.
  destruct (splitBlocks_spec d (v_block (q_version q)) [] 0%nat 0 0 Hwf (Z.le_refl 0) Hlen)
    as (s1 & e1 & Hsplit).
  fold shapes in Hsplit. cbn [app length Nat.add] in Hsplit.
  rewrite Nat.add_0_r in Hsplit. cbn [Z.of_nat] in Hsplit.
  rewrite Hsplit. cbn [bind sp_block repeat]. rewrite app_nil_r. fold blks.
  destruct (blockShapes_wellFormed _ Hwf) as [Hshapes Hsum]. fold shapes in Hshapes, Hsum.
  assert (Hwhole : Forall wholeCodewords blks).
  { apply splitAt_wholeCodewords; auto; [lia|]. rewrite Hsum. lia. }
  assert (Hdv : Forall2 dataView (map toDataBlock blks) (map dataCodewordsOf blks)).
  { eapply Forall_Forall2_map; [|exact Hwhole]. intros. now apply toDataBlock_dataView. }
  assert (Hev : Forall2 ecView (map toDataBlock blks) (map ecCodewordsOf blks)).
  { eapply Forall_Forall2_map; [|exact Hwhole]. intros. now apply toDataBlock_ecView. }
  change 0 with (8 * Z.of_nat 0) at 1.
  rewrite (combineData_spec _ _ Hdv)
    by (pose proof (combineDataFuel_enough _ _ Hdv); lia).
  cbn [bind]. change 0 with (8 * Z.of_nat 0) at 1.
  rewrite (combineEC_spec _ _ Hev)
    by (pose proof (combineECFuel_enough _ _ Hev); lia).
  cbn [bind]. unfold bitset.AppendNumBools, bitset.New, interleave.
  rewrite !Nat.sub_0_r. cbn [app]. now rewrite <- app_assoc.
Qed.

End FinalMessage.

(** ** The parts modelled from the spec meet what the pipeline expects *)

Section Decide.

Context `{C : Collaborators}.

Lemma rejectsb_sound (lvl : RecoveryLevel) (content : list Byte.byte) (t : dataEncoderType) :
  rejectsb lvl content t = true -> rejects lvl content t.
Proof.
  unfold rejectsb, rejects.
  destruct (dataEncoder_encode t content) as [enc|e| | |]; try discriminate.
  - intros Hall. right. exists enc. split; [reflexivity|].
    intros v Hv. rewrite forallb_forall in Hall. specialize (Hall v Hv).
    now apply negb_true_iff in Hall.
  - intros _. left. eauto.
Qed.

Lemma rejects_encoders (lvl : RecoveryLevel) (content : list Byte.byte) :
  forallb (rejectsb lvl content) encoders = true ->
  forall t, In t encoders -> rejects lvl content t.
Proof.
  intros Hall t Ht. rewrite forallb_forall in Hall. apply rejectsb_sound. auto.
Qed.

End Decide.

Module reedsolomon_facts.

Import reedsolomon.

Lemma length_polyAdd (p q : list Z) :
  length p = length q -> length (polyAdd p q) = length p.
Proof.
  revert q. induction p as [|x p IH]; intros [|y q] H; cbn in *; try lia.
  now rewrite IH by lia.
Qed.

Lemma length_polyMulLinear (p : list Z) (a : Z) :
  length (polyMulLinear p a) = S (length p).
Proof.
  unfold polyMulLinear. rewrite length_polyAdd; rewrite length_app; cbn [length];
    [lia|]. rewrite length_map. lia.
Qed.

Lemma length_generatorFrom (t : nat) :
  forall i p, length (generatorFrom t i p) = (length p + t)%nat.
Proof.
  induction t as [|t IH]; intros i p; cbn [generatorFrom]; [lia|].
  rewrite IH, length_polyMulLinear. lia.
Qed.

Lemma length_remainderStep (gen rem : list Z) (d : Z) :
  length gen = S (length rem) -> length (remainderStep gen rem d) = length rem.
Proof.
  intros Hgen. unfold remainderStep. destruct rem as [|r rest]; [reflexivity|].
  destruct gen as [|g0 gen]; [discriminate|]. cbn [tl length] in *.
  rewrite length_polyAdd; rewrite length_app; cbn [length]; [lia|].
  rewrite length_map. lia.
Qed.

Lemma length_ecCodewords (D : list Z) (t : Z) :
  length (ecCodewords D t) = Z.to_nat t.
Proof.
  unfold ecCodewords.
  assert (Hgen : length (rsGeneratorPoly t) = S (Z.to_nat t)).
  { unfold rsGeneratorPoly. rewrite length_generatorFrom. reflexivity. }
  assert (H : forall rem, length rem = Z.to_nat t ->
              length (fold_left (remainderStep (rsGeneratorPoly t)) D rem) = Z.to_nat t).
  { induction D as [|x D IH]; intros rem Hrem; cbn [fold_left]; [exact Hrem|].
    apply IH. rewrite length_remainderStep; lia. }
  apply H. apply repeat_length.
Qed.

Lemma Len_bytesToBits (l : list Z) : bitset.Len (bytesToBits l) = 8 * Z.of_nat (length l).
Proof.
  unfold bytesToBits. induction l as [|x l IH]; [reflexivity|].
  cbn [flat_map length]. rewrite Len_app, IH.
  change (bitset.Len (bitset.bitsOf 8 x)) with 8. lia.
Qed.

(** reedsolomon.Encode returns the data followed by t EC codewords. *)
Lemma Encode_appends : appendsCodewords (C := core).
Proof.
  intros D t Ht. exists (bytesToBits (ecCodewords (codewordsOf (length D / 8) D) t)).
  split; [reflexivity|]. rewrite Len_bytesToBits, length_ecCodewords. lia.
Qed.

End reedsolomon_facts.

Module encoder_facts.

Import encoder.

Lemma Len_bitsOf (n : nat) (x : Z) : bitset.Len (bitset.bitsOf n x) = Z.of_nat n.
Proof.
  unfold bitset.Len. f_equal. induction n as [|n IH]; cbn [bitset.bitsOf length]; congruence.
Qed.

Lemma Len_encodeBytes (data : list Z) :
  forall b, bitset.Len (encodeBytes data b) = bitset.Len b + 8 * Z.of_nat (length data).
Proof.
  unfold encodeBytes. induction data as [|x data IH]; intros b; cbn [fold_left length].
  - lia.
  - rewrite IH. unfold bitset.AppendByte. rewrite Len_app, Len_bitsOf. lia.
Qed.

(** The encoding of a payload in byte mode has the four bits of the mode,
    the count and eight bits a byte. *)
Lemma Len_encode_bytes (t : dataEncoderType) (content : list Byte.byte) (encoded : Bitset) :
  classify (map byteValue content) = dataModeByte ->
  encode t content = Ok encoded ->
  bitset.Len encoded
  = 4 + charCountBits t dataModeByte + 8 * Z.of_nat (length content).
Proof.
  intros Hm. unfold encode. rewrite Hm.
  destruct (_ <=? _); [discriminate|]. intros [= <-].
  cbn [payload]. rewrite Len_encodeBytes. unfold bitset.AppendUint32.
  rewrite !Len_app, !Len_bitsOf, length_map. unfold bitset.New, bitset.Len. cbn [length].
  destruct t; cbn [charCountBits]; rewrite ?Z2Nat.id by lia; lia.
Qed.

(** [rejects] for a payload in byte mode, decided on the length of its
    encoding. *)
Lemma rejects_bytes (lvl : RecoveryLevel) (content : list Byte.byte) (t : dataEncoderType) :
  classify (map byteValue content) = dataModeByte ->
  forallb (fun v => negb (fitsVersion lvl t
                            (4 + charCountBits t dataModeByte
                             + 8 * Z.of_nat (length content)) v))
    versionTable.versions = true ->
  rejects (C := core) lvl content t.
Proof.
  intros Hm Hall. unfold rejects.
  destruct (@dataEncoder_encode core t content) as [enc|e| | |] eqn:He.
  - right. exists enc. split; [reflexivity|]. intros v Hv.
    change (encode t content = Ok enc) in He.
    rewrite (Len_encode_bytes t content enc Hm He).
    rewrite forallb_forall in Hall. apply negb_true_iff. now apply Hall.
  - left. eauto.
  - exfalso. change (encode t content = Panic msg) in He. unfold encode in He.
    destruct (_ <=? _); discriminate.
  - exfalso. change (encode t content = Fatal msg) in He. unfold encode in He.
    destruct (_ <=? _); discriminate.
  - exfalso. change (encode t content = OutOfFuel) in He. unfold encode in He.
    destruct (_ <=? _); discriminate.
Qed.

End encoder_facts.

(** ** The table and the Reed-Solomon encoder agree with the standard *)

Example versions_fill_symbol :
  forallb fillsSymbol (filter (fun v => RecoveryLevel_eqb (v_level v) Low) versionTable.versions)
  = true.
Proof. vm_compute. reflexivity. Qed.

Example versions_same_codewords :
  forallb (fun v => match getQRCodeVersion (C := core) Low (version v) with
                    | Some l => totalCodewords v =? totalCodewords l
                    | None => false
                    end
                    && forallb (fun b => existsb (Z.eqb (numCodewords b - numDataCodewords b))
                                           [7; 10; 13; 15; 16; 17; 18; 20; 22; 24; 26; 28; 30])
                         (v_block v))
    versionTable.versions = true.
Proof. vm_compute. reflexivity. Qed.

(** The EC codewords of the sixteen data codewords of HELLO WORLD at 1-M. *)
Example ecCodewords_hello_world :
  reedsolomon.ecCodewords
    [32; 91; 11; 120; 209; 114; 220; 77; 67; 64; 236; 17; 236; 17; 236; 17] 10
  = [196; 35; 39; 119; 235; 215; 231; 226; 93; 23].
Proof. vm_compute. reflexivity. Qed.

(** ** The claims at concrete inputs *)

Lemma addPadding_fills_witness :
  addPadding helloFull = Ok helloFull
  /\ exists z n : nat,
       Z.of_nat z < 8
       /\ (78 + Z.of_nat z) mod 8 = 0
       /\ addPadding helloPadded
          = Ok (with_data helloPadded
                  (Some (match data helloPadded with Some d => d | None => [] end
                         ++ repeat false z ++ padCodewords n)))
       /\ bitset.Len (match data helloPadded with Some d => d | None => [] end
                      ++ repeat false z ++ padCodewords n) = 104.
Proof.
  split.
  - apply (proj1 (addPadding_fills_to_numDataBits helloFull (repeat true 104) eq_refl)).
    reflexivity.
  - apply (proj2 (addPadding_fills_to_numDataBits helloPadded _ eq_refl)).
    reflexivity.
Defined.

Lemma encodeBlocks_interleaves_witness :
  encodeBlocks unequalBlocks
  = Ok (finalMessage (q_version unequalBlocks)
          (reedsolomon.bytesToBits (map Z.of_nat (seq 1 46)))).
Proof.
  apply encodeBlocks_interleaves.
  - reflexivity.
  - repeat constructor; cbn; lia.
  - apply Z.leb_le. vm_compute. reflexivity.
  - exact reedsolomon_facts.Encode_appends.
Defined.

Lemma isOk_inv {A : Type} (r : outcome A) : isOk r = true -> exists a, r = Ok a.
Proof. destruct r; try discriminate. eauto. Qed.

Lemma errorOf_Some {A : Type} (r : outcome A) (e : error) : errorOf r = Some e -> r = Err e.
Proof. destruct r; try discriminate. now intros [= ->]. Qed.

Lemma errorOf_None {A : Type} (r : outcome A) : errorOf r = None -> forall e, r <> Err e.
Proof. destruct r; try discriminate; intros _ ?; discriminate. Qed.

Lemma panicOf_Some {A : Type} (r : outcome A) (msg : string) :
  panicOf r = Some msg -> r = Panic msg.
Proof. destruct r; try discriminate. now intros [= ->]. Qed.

Lemma isSome_inv {A : Type} (o : option A) : isSome o = true -> exists a, o = Some a.
Proof. destruct o; try discriminate. eauto. Qed.

Lemma New_stores_lowest_penalty_mask_witness :
  exists q' : QRCode (C := core),
    New "HELLO WORLD" [Level High] = Ok q'
    /\ exists encoded s,
         encodeBlocks q' = Ok encoded
         /\ q_symbol q' = Some s
         /\ 0 <= mask q' < 8
         /\ candidate q' encoded (mask q') = Ok s
         /\ forall m, 0 <= m < 8 ->
              exists sm, candidate q' encoded m = Ok sm
                         /\ penaltyScore s <= penaltyScore sm
                         /\ (m < mask q' -> penaltyScore s < penaltyScore sm).
Proof.
  destruct (isOk_inv (New (C := core) "HELLO WORLD" [Level High])) as [q' Hnew].
  { vm_compute. reflexivity. }
  exists q'. split; [exact Hnew|].
  apply (New_stores_lowest_penalty_mask "HELLO WORLD" [Level High] q').
  - repeat constructor.
  - exact Hnew.
Defined.

(** 3000 bytes are too many for every class at level L, and 1274 at level H. *)
Lemma rejects_3000_bytes :
  forall t, In t encoders ->
            rejects (C := core) Low (list_byte_of_string (replicate 3000 "a")) t.
Proof.
  intros t [<-|[<-|[<-|[]]]]; apply encoder_facts.rejects_bytes; vm_compute; reflexivity.
Qed.

Lemma rejects_1274_bytes :
  forall t, In t encoders ->
            rejects (C := core) Highest (list_byte_of_string (replicate 1274 "a")) t.
Proof.
  intros t [<-|[<-|[<-|[]]]]; apply encoder_facts.rejects_bytes; vm_compute; reflexivity.
Qed.

Lemma New_3000_bytes_too_long :
  New (C := core) (replicate 3000 "a") [Level Low] = Err errContentTooLong.
Proof.
  apply (New_rejected_too_long (C := core) (replicate 3000 "a") [Level Low]).
  - exact rejects_3000_bytes.
  - intros e He. exfalso. revert e He. apply errorOf_None. vm_compute. reflexivity.
Qed.

(** 300 bytes at level L: the class V1-V9 cannot count them, the class
    V10-V26 takes them with version 11.  3000 bytes are too many for every
    class. *)
Lemma New_chooses_smallest_version_witness :
  (exists encoded v,
      @dataEncoder_encode core dataEncoderType10To26
        (list_byte_of_string (replicate 300 "a")) = Ok encoded
      /\ chooseQRCodeVersion (C := core) Low dataEncoderType10To26 (bitset.Len encoded) = Some v
      /\ version v = 11
      /\ forall q', New (C := core) (replicate 300 "a") [Level Low] = Ok q' ->
                    VersionNumber q' = version v)
  /\ New (C := core) (replicate 3000 "a") [Level Low] = Err errContentTooLong.
Proof.
  split.
  - destruct (isOk_inv (@dataEncoder_encode core dataEncoderType10To26
                          (list_byte_of_string (replicate 300 "a")))) as [encoded Henc].
    { vm_compute. reflexivity. }
    destruct (isSome_inv (chooseQRCodeVersion (C := core) Low dataEncoderType10To26
                            (bitset.Len encoded))) as [v Hch].
    { assert (H : match @dataEncoder_encode core dataEncoderType10To26
                          (list_byte_of_string (replicate 300 "a")) with
                  | Ok e => isSome (chooseQRCodeVersion (C := core) Low dataEncoderType10To26
                                      (bitset.Len e))
                  | _ => false
                  end = true) by (vm_compute; reflexivity).
      now rewrite Henc in H. }
    exists encoded, v. split; [exact Henc|]. split; [exact Hch|].
    assert (Hv : version v = 11).
    { assert (H : match @dataEncoder_encode core dataEncoderType10To26
                          (list_byte_of_string (replicate 300 "a")) with
                  | Ok e => match chooseQRCodeVersion (C := core) Low dataEncoderType10To26
                                    (bitset.Len e) with
                            | Some v => version v
                            | None => 0
                            end
                  | _ => 0
                  end = 11) by (vm_compute; reflexivity).
      now rewrite Henc, Hch in H. }
    split; [exact Hv|].
    destruct (New_chooses_smallest_version (C := core) (replicate 300 "a") [Level Low])
      as (_ & Hfirst & _).
    destruct (Hfirst [dataEncoderType1To9] dataEncoderType10To26 [dataEncoderType27To40]
                encoded v) as (_ & _ & Hver & _).
    + reflexivity.
    + intros t' [<-|[]]. apply rejectsb_sound. vm_compute. reflexivity.
    + exact Henc.
    + exact Hch.
    + exact Hver.
  - apply (proj2 (proj2 (New_chooses_smallest_version (C := core)
                           (replicate 3000 "a") [Level Low]))).
    + exact rejects_3000_bytes.
    + intros e He. exfalso. revert e He. apply errorOf_None. vm_compute. reflexivity.
Defined.

(** 1274 bytes fit version 40 at level L, whose 2956 data codewords hold
    the 20 bits of mode and count and 2953 bytes; at level H New rejects them. *)
Lemma New_too_long_below_V40L_capacity :
  let content := replicate 1274 "a" in
  Z.of_nat (String.length content) <= 2953
  /\ (exists v, getQRCodeVersion (C := core) Low 40 = Some v
                /\ 4 + 16 + 8 * 2953 <= numDataBits v
                /\ match @dataEncoder_encode core dataEncoderType27To40
                           (list_byte_of_string content) with
                   | Ok encoded => bitset.Len encoded <=? numDataBits v
                   | _ => false
                   end = true)
  /\ New (C := core) content [Level Highest] = Err errContentTooLong
  /\ ~ (New (C := core) content [Level Highest] = Err errContentTooLong
        <-> 2953 < Z.of_nat (String.length content)).
Proof.
  intros content.
  assert (Hlen : Z.of_nat (String.length content) = 1274) by (vm_compute; reflexivity).
  assert (Hnew : New (C := core) content [Level Highest] = Err errContentTooLong).
  { apply (New_rejected_too_long (C := core) content [Level Highest]).
    - exact rejects_1274_bytes.
    - intros e He. exfalso. revert e He. apply errorOf_None. vm_compute. reflexivity. }
  split; [lia|]. split.
  - destruct (isSome_inv (getQRCodeVersion (C := core) Low 40)) as [v Hv];
      [vm_compute; reflexivity|].
    exists v. split; [exact Hv|].
    assert (H : match getQRCodeVersion (C := core) Low 40 with
                | Some v => (4 + 16 + 8 * 2953 <=? numDataBits v)
                | None => false
                end = true) by (vm_compute; reflexivity).
    rewrite Hv in H. apply Z.leb_le in H.
    split; [exact H|].
    destruct (isOk_inv (@dataEncoder_encode core dataEncoderType27To40
                          (list_byte_of_string content))) as [encoded Henc];
      [vm_compute; reflexivity|].
    rewrite Henc. apply Z.leb_le.
    rewrite (encoder_facts.Len_encode_bytes dataEncoderType27To40
               (list_byte_of_string content) encoded); [|vm_compute; reflexivity|exact Henc].
    replace (Z.of_nat (length (list_byte_of_string content))) with 1274
      by (vm_compute; reflexivity).
    cbn [encoder.charCountBits]. lia.
  - split; [exact Hnew|]. intros [Hto _]. specialize (Hto Hnew). lia.
Qed.

Lemma New_content_too_long_iff_witness :
  New (C := core) (replicate 1274 "a") [Level Highest] = Err errContentTooLong
  <-> forall t, In t encoders ->
                rejects (C := core) Highest (list_byte_of_string (replicate 1274 "a")) t.
Proof.
  apply (New_content_too_long_iff (C := core) (replicate 1274 "a") [Level Highest]).
  intros e He. exfalso. revert e He. apply errorOf_None. vm_compute. reflexivity.
Defined.

(** Version 41 ends the process; no error comes back. *)
Lemma newWithForcedVersion_invalid_version_is_fatal :
  newWithForcedVersion (C := core) "HELLO WORLD" 41 Low = Fatal msgInvalidVersion
  /\ forall e, newWithForcedVersion (C := core) "HELLO WORLD" 41 Low <> Err e.
Proof.
  assert (H : newWithForcedVersion (C := core) "HELLO WORLD" 41 Low = Fatal msgInvalidVersion)
    by reflexivity.
  split; [exact H|]. intros e. rewrite H. discriminate.
Qed.

Lemma newWithForcedVersion_outcomes_witness :
  newWithForcedVersion (C := core) "HELLO WORLD" 0 Low = Fatal msgInvalidVersion
  /\ exists t,
       forcedEncoder 9 = Ok t
       /\ minVersion t <= 9 <= maxVersion t
       /\ forall e,
            newWithForcedVersion (C := core) (replicate 300 "a") 9 Low = Err e
            <-> (@dataEncoder_encode core t
                   (list_byte_of_string (replicate 300 "a")) = Err e
                 \/ (exists encoded,
                        @dataEncoder_encode core t
                          (list_byte_of_string (replicate 300 "a")) = Ok encoded)
                    /\ getQRCodeVersion (C := core) Low 9 = None
                    /\ e = errCannotFindVersion).
Proof.
  split.
  - apply (proj1 (newWithForcedVersion_outcomes (C := core) "HELLO WORLD" 0 Low)). lia.
  - apply (proj2 (newWithForcedVersion_outcomes (C := core) (replicate 300 "a") 9 Low)). lia.
Defined.

Lemma invariant_violations_panic_witness :
  addPadding longQR = Panic msgPaddingLength
  /\ encode longQR 0 = Panic msgPaddingLength
  /\ encode shortQR 0 = Panic msgEmptyModules
  /\ forall t, In t encoders ->
               rejects (C := core) Low (list_byte_of_string (replicate 3000 "a")) t.
Proof.
  destruct (invariant_violations_panic (C := core)) as (_ & _ & Hpad & Hprop & Hempty & Herr).
  assert (Hlong : addPadding longQR = Panic msgPaddingLength).
  { apply (Hpad longQR (repeat true 153)); [reflexivity|]. vm_compute. reflexivity. }
  split; [exact Hlong|]. split; [|split].
  - apply (Hprop longQR 0 longQR); [reflexivity|exact Hlong].
  - destruct (isOk_inv (encodeBlocks shortQR)) as [encoded Henc];
      [vm_compute; reflexivity|].
    destruct (isOk_inv (candidate shortQR encoded 0)) as [s Hs].
    { assert (H : match encodeBlocks shortQR with
                  | Ok e => isOk (candidate shortQR e 0)
                  | _ => false
                  end = true) by (vm_compute; reflexivity).
      now rewrite Henc in H. }
    apply (Hempty shortQR 0 shortQR encoded 0 s); auto; try lia.
    assert (H : match encodeBlocks shortQR with
                | Ok e => match candidate shortQR e 0 with
                          | Ok s => numEmptyModules s
                          | _ => 0
                          end
                | _ => 0
                end = 8) by (vm_compute; reflexivity).
    rewrite Henc, Hs in H. lia.
  - apply (Herr (replicate 3000 "a") [Level Low] errContentTooLong).
    exact New_3000_bytes_too_long.
Defined.


Lemma Version_option_has_no_effect_witness :
  New (C := core) "HELLO WORLD" [Width 256; Version 40; Level High]
  = New (C := core) "HELLO WORLD" [Width 256; Level High].
Proof.
  apply (Version_option_has_no_effect (C := core) "HELLO WORLD" 40 [Width 256] [Level High]).
  repeat constructor.
Defined.

(** ** The quiet zone *)

Section QuietZone.

Context `{C : Collaborators}.

Lemma encode_frame (q q' : QRCode) (n : Z) :
  encode q n = Ok q' ->
  exists d2, q' = with_symbol_mask (with_data q (Some d2)) (q_symbol q') (mask q').
Proof.
  rewrite encode_unfold.
  destruct (padded q n) as [q2| | | |] eqn:Hp; cbn [bind]; try discriminate.
  destruct (encodeBlocks q2) as [e2| | | |]; cbn [bind]; try discriminate.
  intros Hrun. apply encodeMasks_frame in Hrun.
  apply padded_frame in Hp as (d2 & -> & _). eauto.
Qed.

(** Whatever options of option.go New is given, QuitZoneSize(s) among
    them, the quiet zone New sets on the version is the zero of the field
    QuitZoneSize, which no option writes. *)
Lemma New_quiet_zone_is_zero (content : string) (opts : list Option) (q' : QRCode) :
  Forall package_option opts ->
  New content opts = Ok q' ->
  quietZoneSize (q_version q') = 0.
Proof.
  intros Hopts Hnew.
  destruct (New_inv content opts (Ok q') Hnew)
    as [(l1 & t & l2 & enc & v & _ & _ & _ & _ & Hrun)|[(_ & e & He)|(_ & Hno)]];
    [|discriminate|now elim (Hno q')].
  symmetry in Hrun. apply encode_frame in Hrun as (d2 & ->).
  cbn. now destruct (QRCode_Set_frame opts Hopts (QRCode_literal content)) as (_ & -> & _).
Qed.

End QuietZone.


(** * Further properties *)

(** ** Set and the options *)

Section SetFacts.

Context `{C : Collaborators}.

(** X1.  Set leaves no colour nil, whatever the options do. *)
Theorem Set_leaves_no_colour_nil (q : QRCode) (opts : list Option) :
  q_ForegroundColor (QRCode_Set q opts) <> None
  /\ q_BackgroundColor (QRCode_Set q opts) <> None
  /\ (forall c, q_ForegroundColor (applyAll opts q) = Some c ->
                q_ForegroundColor (QRCode_Set q opts) = Some c)
  /\ (forall c, q_BackgroundColor (applyAll opts q) = Some c ->
                q_BackgroundColor (QRCode_Set q opts) = Some c)
  /\ (q_ForegroundColor (applyAll opts q) = None ->
      q_ForegroundColor (QRCode_Set q opts) = Some color_Black)
  /\ (q_BackgroundColor (applyAll opts q) = None ->
      q_BackgroundColor (QRCode_Set q opts) = Some color_White).
Proof.
  rewrite QRCode_Set_unfold. generalize (applyAll opts q). intros q1.
  destruct q1 as [? ? ? fg bg ? ? ? ? ? ? ? ? ?]. unfold defaultColors. cbn.
  destruct fg, bg; cbn; repeat split; intros; try discriminate; auto.
Qed.

Lemma applyAll_keeps {A : Type} (f : QRCode -> A) (opts : list Option) :
  (forall o, In o opts -> forall x, f (o x) = f x) ->
  forall q, f (applyAll opts q) = f q.
Proof.
  induction opts as [|o opts IH]; intros Hkeep q; [reflexivity|].
  cbn [applyAll fold_left]. change (f (applyAll opts (o q)) = f q).
  rewrite IH by (intros; apply Hkeep; now right). apply Hkeep. now left.
Qed.

Lemma defaultColors_sizes (q : QRCode) :
  width (defaultColors q) = width q /\ height (defaultColors q) = height q.
Proof.
  unfold defaultColors. destruct q as [? ? ? fg bg ? ? ? ? ? ? ? ? ?].
  destruct fg, bg; cbn; auto.
Qed.

Lemma defaultColors_colors (q : QRCode) (c : color) :
  (q_ForegroundColor q = Some c -> q_ForegroundColor (defaultColors q) = Some c)
  /\ (q_BackgroundColor q = Some c -> q_BackgroundColor (defaultColors q) = Some c).
Proof.
  unfold defaultColors. destruct q as [? ? ? fg bg ? ? ? ? ? ? ? ? ?].
  destruct fg, bg; cbn; split; intros; try discriminate; auto.
Qed.

(** X2.  Set applies the options in the order given: of two options that write
    the same field the later one decides, whatever comes before it. *)
Theorem Set_last_option_wins (q : QRCode) (before after : list Option) :
  (forall w, (forall o, In o after -> forall x, width (o x) = width x) ->
             width (QRCode_Set q (before ++ Width w :: after)) = w)
  /\ (forall h, (forall o, In o after -> forall x, height (o x) = height x) ->
                height (QRCode_Set q (before ++ Height h :: after)) = h)
  /\ (forall m, (forall o, In o after -> forall x, margin (o x) = margin x) ->
                margin (QRCode_Set q (before ++ Margin m :: after)) = m)
  /\ (forall l, (forall o, In o after -> forall x, level (o x) = level x) ->
                level (QRCode_Set q (before ++ Level l :: after)) = l)
  /\ (forall c, (forall o, In o after ->
                           forall x, q_ForegroundColor (o x) = q_ForegroundColor x) ->
                q_ForegroundColor (QRCode_Set q (before ++ ForegroundColor c :: after))
                = Some (match c with Some c' => c' | None => color_Black end))
  /\ (forall c, (forall o, In o after ->
                           forall x, q_BackgroundColor (o x) = q_BackgroundColor x) ->
                q_BackgroundColor (QRCode_Set q (before ++ BackgroundColor c :: after))
                = Some (match c with Some c' => c' | None => color_White end)).
Proof.
  repeat split; intros x Hkeep; rewrite QRCode_Set_unfold, applyAll_app;
    cbn [applyAll fold_left];
    match goal with
    | |- context [fold_left _ after ?q0] => change (fold_left _ after q0) with (applyAll after q0)
    end.
  - rewrite (proj1 (defaultColors_sizes _)), (applyAll_keeps width after Hkeep). reflexivity.
  - rewrite (proj2 (defaultColors_sizes _)), (applyAll_keeps height after Hkeep). reflexivity.
  - destruct (defaultColors_frame (applyAll after (Margin x (applyAll before q))))
      as (_ & _ & _ & _ & ->).
    rewrite (applyAll_keeps margin after Hkeep). reflexivity.
  - destruct (defaultColors_frame (applyAll after (Level x (applyAll before q))))
      as (_ & _ & _ & -> & _).
    rewrite (applyAll_keeps level after Hkeep). reflexivity.
  - apply (proj1 (defaultColors_colors _ _)).
    rewrite (applyAll_keeps q_ForegroundColor after Hkeep). now destruct x.
  - apply (proj2 (defaultColors_colors _ _)).
    rewrite (applyAll_keeps q_BackgroundColor after Hkeep). now destruct x.
Qed.

End SetFacts.

(** ** What New returns *)

Section NewFacts.

Context `{C : Collaborators}.

Lemma package_option_sameButVersion (o : Option) (q q' : QRCode) :
  package_option o -> sameButVersion q q' -> sameButVersion (o q) (o q').
Proof.
  unfold sameButVersion. intros Ho H.
  destruct q as [a1 a2 a3 a4 a5 a6 a7 a8 a9 a10 a11 a12 a13 a14].
  destruct q' as [b1 b2 b3 b4 b5 b6 b7 b8 b9 b10 b11 b12 b13 b14].
  injection H as -> -> -> -> -> -> -> -> -> -> -> -> ->.
  destruct Ho; try reflexivity; destruct c; reflexivity.
Qed.

Lemma applyAll_sameButVersion (opts : list Option) :
  Forall package_option opts ->
  forall q q', sameButVersion q q' -> sameButVersion (applyAll opts q) (applyAll opts q').
Proof.
  induction 1 as [|o opts Ho _ IH]; intros q q' H; [exact H|].
  cbn [applyAll fold_left]. apply IH. now apply package_option_sameButVersion.
Qed.

Lemma defaultColors_sameButVersion (q q' : QRCode) :
  sameButVersion q q' -> sameButVersion (defaultColors q) (defaultColors q').
Proof.
  unfold sameButVersion. intros H.
  destruct q as [a1 a2 a3 a4 a5 a6 a7 a8 a9 a10 a11 a12 a13 a14].
  destruct q' as [b1 b2 b3 b4 b5 b6 b7 b8 b9 b10 b11 b12 b13 b14].
  injection H as -> -> -> -> -> -> -> -> -> -> -> -> ->.
  destruct b4, b5; reflexivity.
Qed.

Lemma New_ignores_version (content : string) (opts opts' : list Option) :
  sameButVersion (QRCode_Set (QRCode_literal content) opts)
                 (QRCode_Set (QRCode_literal content) opts') ->
  New content opts = New content opts'.
Proof.
  unfold sameButVersion, New.
  set (q0 := QRCode_Set (QRCode_literal content) opts).
  set (q0' := QRCode_Set (QRCode_literal content) opts').
  intros H.
  destruct q0 as [a1 a2 a3 a4 a5 a6 a7 a8 a9 a10 a11 a12 a13 a14].
  destruct q0' as [b1 b2 b3 b4 b5 b6 b7 b8 b9 b10 b11 b12 b13 b14].
  injection H as -> -> -> -> -> -> -> -> -> -> -> -> ->.
  reflexivity.
Qed.

(** X3.  The option QuitZoneSize(s) changes nothing in what New returns. *)
Theorem QuitZoneSize_option_has_no_effect (content : string) (s : Z)
  (before after : list Option) :
  Forall package_option after ->
  New content (before ++ QuitZoneSize s :: after) = New content (before ++ after).
Proof.
  intros Hafter. apply New_ignores_version. rewrite !QRCode_Set_unfold.
  apply defaultColors_sameButVersion. rewrite !applyAll_app. cbn [applyAll fold_left].
  apply (applyAll_sameButVersion after Hafter). reflexivity.
Qed.

Lemma encodeMasks_keeps_symbol (l : list Z) (encoded : Bitset) :
  forall q pen q',
    q_symbol q <> None ->
    encodeMasks l encoded q pen = Ok q' ->
    q_symbol q' <> None.
Proof.
  induction l as [|m l IH]; intros q pen q' Hs Hrun; cbn [encodeMasks] in Hrun.
  - now injection Hrun as <-.
  - destruct (buildRegularSymbol _ _ _ _); try discriminate.
    destruct (numEmptyModules a =? 0); try discriminate.
    destruct (q_symbol q) eqn:Hq; [|congruence].
    destruct (penaltyScore a <? pen); eapply IH; try exact Hrun; cbn; congruence.
Qed.

Lemma encodeMasks_stores_symbol (m : Z) (l : list Z) (encoded : Bitset)
  (q q' : QRCode) (pen : Z) :
  encodeMasks (m :: l) encoded q pen = Ok q' -> q_symbol q' <> None.
Proof.
  cbn [encodeMasks].
  destruct (buildRegularSymbol _ _ _ _); try discriminate.
  destruct (numEmptyModules a =? 0); try discriminate.
  destruct (q_symbol q) eqn:Hq;
    [destruct (penaltyScore a <? pen)|]; apply encodeMasks_keeps_symbol; cbn; congruence.
Qed.

Lemma encode_stores_symbol (q q' : QRCode) (n : Z) :
  encode q n = Ok q' -> q_symbol q' <> None.
Proof.
  rewrite encode_unfold.
  destruct (padded q n) as [q2| | | |]; cbn [bind]; try discriminate.
  destruct (encodeBlocks q2) as [e2| | | |]; cbn [bind]; try discriminate.
  change allMasks with (0 :: [1; 2; 3; 4; 5; 6; 7]). apply encodeMasks_stores_symbol.
Qed.

Lemma encode_frame_full (q q' : QRCode) (n : Z) :
  encode q n = Ok q' ->
  exists d2, q' = with_symbol_mask (with_data q (Some d2)) (q_symbol q') (mask q')
             /\ bitset.Len d2 = numDataBits (q_version q).
Proof.
  rewrite encode_unfold.
  destruct (padded q n) as [q2| | | |] eqn:Hp; cbn [bind]; try discriminate.
  destruct (encodeBlocks q2) as [e2| | | |]; cbn [bind]; try discriminate.
  intros Hrun. apply encodeMasks_frame in Hrun.
  apply padded_frame in Hp as (d2 & -> & Hlen). eauto.
Qed.

(** X4.  A QRCode that New returns has a symbol: Bitmap does not dereference nil. *)
Theorem Bitmap_of_New (content : string) (opts : list Option) (q' : QRCode) :
  New content opts = Ok q' ->
  exists s, q_symbol q' = Some s /\ Bitmap q' = Ok (bitmap s).
Proof.
  intros Hnew.
  destruct (New_inv content opts (Ok q') Hnew)
    as [(l1 & t & l2 & enc & v & _ & _ & _ & _ & Hrun)|[(_ & e & He)|(_ & Hno)]];
    [|discriminate|now elim (Hno q')].
  symmetry in Hrun. apply encode_stores_symbol in Hrun.
  unfold Bitmap. destruct (q_symbol q') as [s|]; [eauto|congruence].
Qed.

(** X5.  A QRCode that New or newWithForcedVersion returns is consistent:
    VersionNumber is the version of its descriptor, its data buffer has
    exactly the numDataBits bits of that descriptor, and the content, the
    level, the sizes, the margin and the colours are the ones Set left (for
    newWithForcedVersion: the arguments, black and white). *)
Theorem New_result_is_consistent (content : string) :
  (forall opts q',
      New content opts = Ok q' ->
      let q0 := QRCode_Set (QRCode_literal content) opts in
      VersionNumber q' = version (q_version q')
      /\ Content q' = Content q0
      /\ level q' = level q0
      /\ width q' = width q0 /\ height q' = height q0 /\ margin q' = margin q0
      /\ q_ForegroundColor q' = q_ForegroundColor q0
      /\ q_BackgroundColor q' = q_BackgroundColor q0
      /\ exists d, data q' = Some d /\ bitset.Len d = numDataBits (q_version q'))
  /\ (forall ver lvl q',
         newWithForcedVersion content ver lvl = Ok q' ->
         VersionNumber q' = version (q_version q')
         /\ Content q' = content
         /\ level q' = lvl
         /\ q_ForegroundColor q' = Some color_Black
         /\ q_BackgroundColor q' = Some color_White
         /\ exists d, data q' = Some d /\ bitset.Len d = numDataBits (q_version q')).
Proof.
  split.
  - intros opts q' Hnew q0.
    destruct (New_inv content opts (Ok q') Hnew)
      as [(l1 & t & l2 & enc & v & _ & _ & _ & _ & Hrun)|[(_ & e & He)|(_ & Hno)]];
      [|discriminate|now elim (Hno q')].
    symmetry in Hrun. apply encode_frame_full in Hrun as (d2 & Hq' & Hlen).
    fold q0 in Hq', Hlen.
    remember (q_symbol q') as s0 eqn:Hs. remember (mask q') as m0 eqn:Hm.
    clear Hs Hm. subst q'. cbn. repeat split; auto. exists d2. split; [reflexivity|].
    exact Hlen.
  - intros ver lvl q'. unfold newWithForcedVersion.
    destruct (forcedEncoder ver) as [t| | | |]; cbn [bind]; try discriminate.
    destruct (dataEncoder_encode t _) as [enc| | | |]; cbn [bind]; try discriminate.
    destruct (getQRCodeVersion lvl ver) as [cv|]; [|discriminate].
    intros Hrun. apply encode_frame_full in Hrun as (d2 & Hq' & Hlen).
    remember (q_symbol q') as s0 eqn:Hs. remember (mask q') as m0 eqn:Hm.
    clear Hs Hm. subst q'. cbn. repeat split; auto. exists d2. split; [reflexivity|].
    exact Hlen.
Qed.

(** X6.  addPadding is idempotent: a buffer it has filled it leaves as it is. *)
Theorem addPadding_idempotent (q q' : QRCode) :
  addPadding q = Ok q' -> addPadding q' = Ok q'.
Proof.
  intros Hp. apply addPadding_frame in Hp as (d2 & -> & Hlen).
  unfold addPadding. cbn [data with_data q_version].
  now rewrite (proj2 (Z.eqb_eq _ _) Hlen).
Qed.

(** X7.  New returns an error exactly when every class rejects the content at
    the level set; the error is the one the encoder of the last class
    failed with, and the content-too-long error when that encoder did not
    fail. *)
Theorem New_error (content : string) (opts : list Option) (e : error) :
  let q0 := QRCode_Set (QRCode_literal content) opts in
  let bytes := list_byte_of_string content in
  New content opts = Err e
  <-> (forall t, In t encoders -> rejects (level q0) bytes t)
      /\ e = match dataEncoder_encode dataEncoderType27To40 bytes with
             | Err e' => e'
             | _ => errContentTooLong
             end.
Proof.
  intros q0 bytes. split.
  - intros Hnew.
    destruct (New_inv content opts _ Hnew)
      as [(l1 & t & l2 & enc & v & _ & _ & _ & _ & Hrun)|[(Hrej & _)|(Hno & _)]].
    + symmetry in Hrun. now apply encode_no_error in Hrun.
    + split; [exact Hrej|]. rewrite (New_rejected content opts Hrej) in Hnew.
      now injection Hnew.
    + now elim (Hno e).
  - intros [Hrej ->]. exact (New_rejected content opts Hrej).
Qed.

Lemma addPadding_too_long (q : QRCode) (d : Bitset) :
  data q = Some d ->
  numDataBits (q_version q) < bitset.Len d ->
  addPadding q = Panic msgPaddingLength.
Proof.
  intros Hd Hlong. unfold addPadding. rewrite Hd.
  replace (bitset.Len d =? numDataBits (q_version q)) with false
    by (symmetry; apply Z.eqb_neq; lia).
  set (d1 := bitset.AppendNumBools d _ false).
  assert (Hd1 : bitset.Len d <= bitset.Len d1).
  { unfold d1. rewrite Len_AppendNumBools. lia. }
  destruct (padLoop_spec (Z.to_nat (numDataBits (q_version q)))
              (numDataBits (q_version q)) d1 0) as (k & Hrun & Hend & Hk).
  { pose proof (Len_nonneg d1). lia. }
  change (parityIndex 0) with 0 in Hrun. rewrite Hrun. cbn [bind].
  rewrite Len_app, Len_flat_pad.
  replace (_ =? _) with false by (symmetry; apply Z.eqb_neq; lia).
  reflexivity.
Qed.

(** X8.  A forced version too small for the content makes newWithForcedVersion
    panic in addPadding; no error is returned. *)
Theorem newWithForcedVersion_too_small_panics (content : string) (ver : Z)
  (lvl : RecoveryLevel) (t : dataEncoderType) (encoded : Bitset) (cv : qrCodeVersion) :
  forcedEncoder ver = Ok t ->
  dataEncoder_encode t (list_byte_of_string content) = Ok encoded ->
  getQRCodeVersion lvl ver = Some cv ->
  numDataBits cv < bitset.Len encoded ->
  newWithForcedVersion content ver lvl = Panic msgPaddingLength.
Proof.
  intros Ht Henc Hcv Hlong. unfold newWithForcedVersion.
  rewrite Ht. cbn [bind]. rewrite Henc. cbn [bind]. rewrite Hcv.
  unfold encode, addTerminatorBits. cbn [data bind].
  erewrite addPadding_too_long; [reflexivity|reflexivity|].
  cbn [q_version with_data]. rewrite Len_AppendNumBools. lia.
Qed.

Lemma addPadding_shape (q q' : QRCode) (d : Bitset) :
  data q = Some d ->
  addPadding q = Ok q' ->
  exists z n : nat,
    (z < 8)%nat
    /\ q' = with_data q (Some (d ++ repeat false z ++ padCodewords n)).
Proof.
  intros Hd. unfold addPadding. rewrite Hd.
  destruct (bitset.Len d =? numDataBits (q_version q)) eqn:Hlen.
  - intros [= <-]. exists 0%nat, 0%nat. split; [lia|].
    destruct q; cbn in *. subst. now rewrite app_nil_r.
  - unfold numBitsToPadToCodeword.
    destruct (pad_to_codeword (bitset.Len d) (Len_nonneg d)) as [Hz _].
    set (zz := (8 - bitset.Len d mod 8) mod 8) in *.
    set (d1 := bitset.AppendNumBools d zz false).
    destruct (padLoop_spec (Z.to_nat (numDataBits (q_version q)))
                (numDataBits (q_version q)) d1 0) as (m & Hrun & _).
    { pose proof (Len_nonneg d1). lia. }
    change (parityIndex 0) with 0 in Hrun. rewrite Hrun. cbn [bind].
    match goal with |- context [if ?c then _ else _] => destruct c end; [|discriminate].
    intros [= <-]. exists (Z.to_nat zz), m. split; [lia|].
    unfold d1, bitset.AppendNumBools, padCodewords. now rewrite <- app_assoc.
Qed.

(** X9.  The data buffer of a QR code that New returns is the encoding of the
    content by the encoder of the class chosen, then the terminator and the
    zero bits up to a codeword boundary, eleven at most, then pad
    codewords. *)
Theorem New_data_extends_encoding (content : string) (opts : list Option) (q' : QRCode) :
  New content opts = Ok q' ->
  exists t encoded (zeros n : nat),
    In t encoders
    /\ encoder q' = Some t
    /\ dataEncoder_encode t (list_byte_of_string content) = Ok encoded
    /\ data q' = Some (encoded ++ repeat false zeros ++ padCodewords n)
    /\ bitset.Len encoded <= numDataBits (q_version q')
    /\ Z.min 4 (numDataBits (q_version q') - bitset.Len encoded) <= Z.of_nat zeros < 12.
Proof.
  intros Hnew.
  destruct (New_inv content opts (Ok q') Hnew)
    as [(l1 & t & l2 & enc & v & Hsplit & _ & Henc & Hch & Hrun)|[(_ & e & He)|(_ & Hno)]];
    [|discriminate|now elim (Hno q')].
  destruct (chooseQRCodeVersion_Some _ _ _ _ Hch) as (_ & Hfit & _).
  apply fitsVersion_spec in Hfit as (_ & _ & Hcap).
  symmetry in Hrun. rewrite encode_unfold in Hrun.
  destruct (padded _ _) as [q2| | | |] eqn:Hp; cbn [bind] in Hrun; try discriminate.
  destruct (encodeBlocks q2) as [e2| | | |]; cbn [bind] in Hrun; try discriminate.
  apply encodeMasks_frame in Hrun.
  unfold padded in Hp.
  destruct (addTerminatorBits _ _) as [q1| | | |] eqn:Ht; cbn [bind] in Hp; try discriminate.
  apply addTerminatorBits_frame in Ht as (d0 & Hd0 & ->).
  cbn in Hd0. injection Hd0 as <-.
  eapply addPadding_shape in Hp as (z & n & Hz & Hq2); [|reflexivity]. subst q2.
  set (nT := numTerminatorBitsRequired v (bitset.Len enc)) in *.
  assert (HnT : nT = Z.min 4 (numDataBits v - bitset.Len enc)) by reflexivity.
  clearbody nT.
  assert (Hin : In t encoders) by (rewrite Hsplit; apply in_elt).
  assert (Hv : numDataBits (q_version q') = numDataBits v) by (rewrite Hrun; reflexivity).
  assert (He : encoder q' = Some t) by (rewrite Hrun; reflexivity).
  assert (Hd : data q' = Some (enc ++ repeat false (Z.to_nat nT + z) ++ padCodewords n)).
  { rewrite Hrun. cbn [data with_symbol_mask with_data]. unfold bitset.AppendNumBools.
    now rewrite repeat_app, <- !app_assoc. }
  exists t, enc, (Z.to_nat nT + z)%nat, n. rewrite Hv.
  repeat split; auto; lia.
Qed.

End NewFacts.

Section EncodingView.

Context `{C : Collaborators}.

Lemma addTerminatorBits_encodingOf (q : QRCode) (n : Z) :
  addTerminatorBits (encodingOf q) n = mapOutcome encodingOf (addTerminatorBits q n).
Proof. unfold addTerminatorBits. cbn [data encodingOf]. now destruct (data q). Qed.

Lemma addPadding_encodingOf (q : QRCode) :
  addPadding (encodingOf q) = mapOutcome encodingOf (addPadding q).
Proof.
  unfold addPadding. cbn [data q_version encodingOf].
  destruct (data q) as [d|]; [|reflexivity].
  destruct (bitset.Len d =? numDataBits (q_version q)); [reflexivity|].
  destruct (padLoop _ _ _ _) as [d2| | | |]; cbn [bind mapOutcome]; try reflexivity.
  now destruct (bitset.Len d2 =? numDataBits (q_version q)).
Qed.

Lemma encodeMasks_encodingOf (l : list Z) (encoded : Bitset) :
  forall q pen,
    encodeMasks l encoded (encodingOf q) pen
    = mapOutcome encodingOf (encodeMasks l encoded q pen).
Proof.
  induction l as [|m l IH]; intros q pen; cbn [encodeMasks]; [reflexivity|].
  cbn [q_version margin q_symbol encodingOf].
  destruct (buildRegularSymbol _ _ _ _); try reflexivity.
  destruct (numEmptyModules a =? 0); [|reflexivity].
  destruct (q_symbol q); [destruct (penaltyScore a <? pen)|]; try apply IH;
    apply (IH (with_symbol_mask q (Some a) m)).
Qed.

Lemma encode_encodingOf (q : QRCode) (n : Z) :
  encode (encodingOf q) n = mapOutcome encodingOf (encode q n).
Proof.
  unfold encode. rewrite addTerminatorBits_encodingOf.
  destruct (addTerminatorBits q n) as [q1| | | |]; cbn [bind mapOutcome]; try reflexivity.
  rewrite addPadding_encodingOf.
  destruct (addPadding q1) as [q2| | | |]; cbn [bind mapOutcome]; try reflexivity.
  change (encodeBlocks (encodingOf q2)) with (encodeBlocks q2).
  destruct (encodeBlocks q2) as [e2| | | |]; cbn [bind]; try reflexivity.
  apply encodeMasks_encodingOf.
Qed.

(** X10.  The version, the data, the symbol and the mask that New returns depend
    on the options only through the level and the margin they set. *)
Theorem New_encoding_depends_on_level_and_margin (content : string)
  (opts opts' : list Option) :
  let q0 := QRCode_Set (QRCode_literal content) opts in
  let q0' := QRCode_Set (QRCode_literal content) opts' in
  Forall package_option opts ->
  Forall package_option opts' ->
  level q0 = level q0' ->
  margin q0 = margin q0' ->
  mapOutcome encodingOf (New content opts) = mapOutcome encodingOf (New content opts').
Proof.
  intros q0 q0' Hopts Hopts' Hlevel Hmargin.
  destruct (QRCode_Set_frame opts Hopts (QRCode_literal content)) as (Hs & Hz & Hm).
  destruct (QRCode_Set_frame opts' Hopts' (QRCode_literal content)) as (Hs' & Hz' & Hm').
  fold q0 in Hs, Hz, Hm. fold q0' in Hs', Hz', Hm'.
  unfold New. fold q0 q0'. rewrite <- Hlevel.
  destruct (chooseLoop _ _ _ _) as [st| | | |]; cbn [bind mapOutcome]; try reflexivity.
  destruct (cs_err st); [reflexivity|].
  destruct (cs_chosenVersion st) as [cv|]; [|reflexivity].
  destruct (cs_encoded st) as [enc|]; [|reflexivity].
  rewrite <- !encode_encodingOf. f_equal.
  unfold encodingOf. cbn. now rewrite Hs, Hs', Hz, Hz', Hm, Hm', Hmargin.
Qed.

End EncodingView.

(** ** The codewords of the final message *)

Lemma flat_map_app_Permutation {A B : Type} (f g : A -> list B) (l : list A) :
  Permutation (flat_map (fun x => f x ++ g x) l) (flat_map f l ++ flat_map g l).
Proof.
  induction l as [|a l IH]; cbn [flat_map]; [constructor|].
  rewrite <- !app_assoc. apply Permutation_app_head.
  rewrite IH. apply Permutation_app_swap_app.
Qed.

Lemma skipn_nth_error {A : Type} (l : list A) (k : nat) (x : A) :
  nth_error l k = Some x -> skipn k l = x :: skipn (S k) l.
Proof.
  revert k. induction l as [|y l IH]; intros [|k] H; cbn in *; try discriminate.
  - now injection H as ->.
  - now apply IH.
Qed.

Lemma column_of_one (cw : list Bitset) (n : nat) :
  forall k, (length cw <= k + n)%nat ->
    flat_map (fun i => match nth_error cw i with Some x => [x] | None => [] end) (seq k n)
    = skipn k cw.
Proof.
  induction n as [|n IH]; intros k Hk; cbn [seq flat_map].
  - symmetry. apply skipn_all2. lia.
  - rewrite IH by lia. destruct (nth_error cw k) as [x|] eqn:Hx.
    + now rewrite (skipn_nth_error _ _ _ Hx).
    + apply nth_error_None in Hx. cbn [app]. rewrite !skipn_all2 by lia. reflexivity.
Qed.

(** The interleaving gives every codeword of every block once. *)
Lemma interleave_columns_Permutation (blocks : list (list Bitset)) :
  forall n, (longest blocks <= n)%nat ->
    Permutation (flat_map (fun i => column i blocks) (seq 0 n)) (concat blocks).
Proof.
  induction blocks as [|cw blocks IH]; intros n Hn.
  - cbn [concat]. replace (flat_map _ _) with (@nil Bitset); [constructor|].
    symmetry. apply flat_map_constant_length with (c := 0%nat) || idtac.
    induction (seq 0 n) as [|a l IHl]; [reflexivity|exact IHl].
  - change (longest (cw :: blocks)) with (Nat.max (length cw) (longest blocks)) in Hn.
    cbn [concat].
    etransitivity; [apply (flat_map_app_Permutation
                      (fun i => match nth_error cw i with Some x => [x] | None => [] end)
                      (fun i => column i blocks))|].
    rewrite (column_of_one cw n 0) by lia. cbn [skipn].
    apply Permutation_app_head. apply IH. lia.
Qed.

Lemma Permutation_length_concat {A : Type} (l l' : list (list A)) :
  Permutation l l' -> length (concat l) = length (concat l').
Proof.
  induction 1; cbn [concat]; rewrite ?length_app in *; lia.
Qed.

Section MoreBlocks.

Context `{C : Collaborators}.

Lemma encodeBlocks_run (q : QRCode) (d : Bitset) :
  data q = Some d ->
  Forall wellFormedGroup (v_block (q_version q)) ->
  numDataBits (q_version q) <= bitset.Len d ->
  appendsCodewords ->
  let blks := splitAt d 0 (blockShapes (v_block (q_version q))) in
  Forall wholeCodewords blks
  /\ encodeBlocks q
     = Ok (interleave (map dataCodewordsOf blks)
           ++ interleave (map ecCodewordsOf blks)
           ++ repeat false (Z.to_nat (numRemainderBits (q_version q)))).
Proof.
  intros Hd Hwf Hlen Hrs. unfold encodeBlocks.
  set (shapes := blockShapes (v_block (q_version q))).
  set (blks := splitAt d 0 shapes).
  rewrite (numBlocks_shapes _ Hwf). fold shapes.
  replace (Z.of_nat (length shapes) <? 0) with false by (symmetry; apply Z.ltb_ge; lia).
  rewrite Hd, Nat2Z.id.
  unfold numDataBits in Hlen. rewrite numDataCodewordsTotal_sum in Hlen.
  destruct (splitBlocks_spec d (v_block (q_version q)) [] 0%nat 0 0 Hwf (Z.le_refl 0) Hlen)
    as (s1 & e1 & Hsplit).
  fold shapes in Hsplit. cbn [app length Nat.add] in Hsplit.
  rewrite Nat.add_0_r in Hsplit. cbn [Z.of_nat] in Hsplit.
  rewrite Hsplit. cbn [bind sp_block repeat]. rewrite app_nil_r. fold blks.
  destruct (blockShapes_wellFormed _ Hwf) as [Hshapes Hsum]. fold shapes in Hshapes, Hsum.
  assert (Hwhole : Forall wholeCodewords blks).
  { apply splitAt_wholeCodewords; auto; [lia|]. rewrite Hsum. lia. }
  split; [exact Hwhole|].
  assert (Hdv : Forall2 dataView (map toDataBlock blks) (map dataCodewordsOf blks)).
  { eapply Forall_Forall2_map; [|exact Hwhole]. intros. now apply toDataBlock_dataView. }
  assert (Hev : Forall2 ecView (map toDataBlock blks) (map ecCodewordsOf blks)).
  { eapply Forall_Forall2_map; [|exact Hwhole]. intros. now apply toDataBlock_ecView. }
  change 0 with (8 * Z.of_nat 0) at 1.
  rewrite (combineData_spec _ _ Hdv)
    by (pose proof (combineDataFuel_enough _ _ Hdv); lia).
  cbn [bind]. change 0 with (8 * Z.of_nat 0) at 1.
  rewrite (combineEC_spec _ _ Hev)
    by (pose proof (combineECFuel_enough _ _ Hev); lia).
  cbn [bind]. unfold bitset.AppendNumBools, bitset.New, interleave.
  rewrite !Nat.sub_0_r. cbn [app]. now rewrite <- app_assoc.
Qed.

Lemma codewords_app (a b : nat) :
  forall l, codewords (a + b) l = codewords a l ++ codewords b (skipn (8 * a) l).
Proof.
  induction a as [|a IH]; intros l; [reflexivity|].
  cbn [Nat.add codewords app]. rewrite IH, skipn_skipn.
  replace (8 * a + 8)%nat with (8 * S a)%nat by lia. reflexivity.
Qed.

Lemma codewords_firstn (n : nat) :
  forall m l, (8 * n <= m)%nat -> codewords n (firstn m l) = codewords n l.
Proof.
  induction n as [|n IH]; intros m l Hm; [reflexivity|].
  cbn [codewords]. rewrite firstn_firstn, Nat.min_l by lia. f_equal.
  rewrite skipn_firstn_comm. apply IH. lia.
Qed.

Lemma concat_codewords (n : nat) :
  forall l, length l = (8 * n)%nat -> concat (codewords n l) = l.
Proof.
  induction n as [|n IH]; intros l Hl.
  - destruct l; [reflexivity|discriminate].
  - cbn [codewords concat]. rewrite IH; [apply firstn_skipn|].
    rewrite length_skipn. lia.
Qed.

Lemma length_concat_codewords (n : nat) :
  forall l, (8 * n <= length l)%nat -> length (concat (codewords n l)) = (8 * n)%nat.
Proof.
  induction n as [|n IH]; intros l Hl; [reflexivity|].
  cbn [codewords concat]. rewrite length_app, IH, length_firstn; [lia|].
  rewrite length_skipn. lia.
Qed.

(** The data codewords of the blocks of the split, block after block, are
    the codewords of the buffer in their order. *)
Lemma dataCodewords_splitAt (d : Bitset) (shapes : list (Z * Z)) :
  forall e : nat,
    Forall (fun s => 0 <= fst s /\ 0 <= snd s) shapes ->
    Z.of_nat e + 8 * fold_right (fun s acc => fst s + acc) 0 shapes <= bitset.Len d ->
    concat (map dataCodewordsOf (splitAt d (Z.of_nat e) shapes))
    = codewords (Z.to_nat (fold_right (fun s acc => fst s + acc) 0 shapes)) (skipn e d).
Proof.
  induction shapes as [|[nd ne] shapes IH]; intros e Hwf Hlen; [reflexivity|].
  inversion Hwf as [|? ? [Hnd Hne] Hwf']; subst. cbn [fst snd] in *.
  cbn [fold_right fst] in *.
  assert (Hrest : 0 <= fold_right (fun s acc => fst s + acc) 0 shapes).
  { clear -Hwf'. induction Hwf' as [|? ? [? ?] ? ?]; cbn [fold_right]; lia. }
  cbn [splitAt map concat].
  replace (Z.of_nat e + 8 * nd) with (Z.of_nat (e + 8 * Z.to_nat nd)) by lia.
  rewrite IH; auto; [|lia].
  rewrite Z2Nat.inj_add, codewords_app by lia.
  rewrite skipn_skipn, (Nat.add_comm (8 * Z.to_nat nd) e). f_equal.
  unfold dataCodewordsOf. cbn [fst]. rewrite Nat2Z.id.
  unfold bitset.Len in Hlen.
  rewrite length_firstn, length_skipn.
  replace (Z.to_nat (8 * nd)) with (8 * Z.to_nat nd)%nat by lia.
  rewrite Nat.min_l by lia.
  replace (8 * Z.to_nat nd / 8)%nat with (Z.to_nat nd)
    by (rewrite Nat.mul_comm, Nat.div_mul; lia).
  apply codewords_firstn. lia.
Qed.

Lemma sum_snd_shapes (groups : list block) :
  Forall wellFormedGroup groups ->
  fold_right (fun (s : Z * Z) acc => snd s + acc) 0 (blockShapes groups)
  = fold_right (fun g acc => numBlocks g * (numCodewords g - numDataCodewords g) + acc)
      0 groups.
Proof.
  induction 1 as [|g rest [Hn Hd] _ IH]; [reflexivity|].
  cbn [blockShapes flat_map fold_right]. fold (blockShapes rest).
  rewrite fold_right_app, IH.
  generalize (fold_right (fun g acc => numBlocks g * (numCodewords g - numDataCodewords g) + acc)
                0 rest).
  intros z. rewrite <- (Z2Nat.id (numBlocks g)) at 2 by lia.
  induction (Z.to_nat (numBlocks g)) as [|n IHn]; [reflexivity|].
  cbn [repeat fold_right snd]. rewrite IHn. lia.
Qed.

Lemma length_ecCodewords_blocks (blks : list (Bitset * Z)) :
  appendsCodewords ->
  Forall wholeCodewords blks ->
  Z.of_nat (length (concat (concat (map ecCodewordsOf blks))))
  = 8 * fold_right (fun (s : Bitset * Z) acc => snd s + acc) 0 blks.
Proof.
  intros Hrs. induction 1 as [|[D t] blks [_ Ht] _ IH]; [reflexivity|].
  cbn [map concat fold_right snd fst] in *. rewrite concat_app, length_app, Nat2Z.inj_add, IH.
  unfold ecCodewordsOf. cbn [fst snd].
  destruct (Hrs D t Ht) as (E & -> & HE).
  rewrite skipn_app, Nat.sub_diag, skipn_all. cbn [app skipn].
  unfold bitset.Len in HE. rewrite length_concat_codewords by lia. lia.
Qed.

Lemma snd_splitAt (d : Bitset) (shapes : list (Z * Z)) :
  forall e, fold_right (fun (s : Bitset * Z) acc => snd s + acc) 0 (splitAt d e shapes)
            = fold_right (fun (s : Z * Z) acc => snd s + acc) 0 shapes.
Proof.
  induction shapes as [|[nd ne] shapes IH]; intros e; [reflexivity|].
  cbn [splitAt fold_right snd]. now rewrite IH.
Qed.

End MoreBlocks.

Section MoreBlocksTheorems.

Context `{C : Collaborators}.

Lemma totalCodewords_sum (groups : list block) :
  fold_left (fun acc b => acc + numBlocks b * numCodewords b) groups 0
  = dataCodewordsSum groups
    + fold_right (fun g acc => numBlocks g * (numCodewords g - numDataCodewords g) + acc)
        0 groups.
Proof.
  induction groups as [|g rest IH]; [reflexivity|].
  cbn [fold_left dataCodewordsSum fold_right].
  rewrite (fold_left_add (fun b => numBlocks b * numCodewords b)), IH. lia.
Qed.

(** X11.  encodeBlocks loses and repeats no codeword: the data part of what it
    returns is a rearrangement of the codewords of the data buffer, the EC
    part a rearrangement of the EC codewords of the blocks. *)
Theorem encodeBlocks_keeps_every_codeword (q : QRCode) (d : Bitset) :
  data q = Some d ->
  Forall wellFormedGroup (v_block (q_version q)) ->
  numDataBits (q_version q) <= bitset.Len d ->
  appendsCodewords ->
  exists dataPart ecPart : list Bitset,
    encodeBlocks q
    = Ok (concat dataPart ++ concat ecPart
          ++ repeat false (Z.to_nat (numRemainderBits (q_version q))))
    /\ Permutation dataPart
         (codewords (Z.to_nat (numDataCodewordsTotal (q_version q))) d)
    /\ Permutation ecPart
         (concat (map ecCodewordsOf (splitAt d 0 (blockShapes (v_block (q_version q)))))).
Proof.
  intros Hd Hwf Hlen Hrs.
  destruct (encodeBlocks_run q d Hd Hwf Hlen Hrs) as [_ Hrun].
  set (blks := splitAt d 0 (blockShapes (v_block (q_version q)))) in *.
  exists (flat_map (fun i => column i (map dataCodewordsOf blks))
            (seq 0 (longest (map dataCodewordsOf blks)))),
         (flat_map (fun i => column i (map ecCodewordsOf blks))
            (seq 0 (longest (map ecCodewordsOf blks)))).
  split; [exact Hrun|]. split.
  - rewrite interleave_columns_Permutation by lia.
    destruct (blockShapes_wellFormed _ Hwf) as [Hshapes Hsum].
    unfold blks. change 0 with (Z.of_nat 0) at 1.
    unfold numDataBits in Hlen. rewrite numDataCodewordsTotal_sum in *.
    rewrite dataCodewords_splitAt; auto; [|cbn [Z.of_nat]; rewrite Hsum; lia].
    cbn [skipn]. now rewrite Hsum.
  - apply interleave_columns_Permutation. lia.
Qed.

(** X12.  The length of what encodeBlocks returns: eight bits for every codeword
    of every block, and the remainder bits. *)
Theorem encodeBlocks_length (q : QRCode) (d : Bitset) (encoded : Bitset) :
  data q = Some d ->
  Forall wellFormedGroup (v_block (q_version q)) ->
  numDataBits (q_version q) <= bitset.Len d ->
  appendsCodewords ->
  encodeBlocks q = Ok encoded ->
  bitset.Len encoded
  = 8 * totalCodewords (q_version q) + Z.max 0 (numRemainderBits (q_version q)).
Proof.
  intros Hd Hwf Hlen Hrs Henc.
  destruct (encodeBlocks_run q d Hd Hwf Hlen Hrs) as [Hwhole Hrun].
  rewrite Hrun in Henc. injection Henc as <-.
  set (blks := splitAt d 0 (blockShapes (v_block (q_version q)))) in *.
  destruct (blockShapes_wellFormed _ Hwf) as [Hshapes Hsum].
  unfold numDataBits in Hlen. rewrite numDataCodewordsTotal_sum in Hlen.
  pose proof (dataCodewordsSum_nonneg _ Hwf) as Hnn.
  rewrite !Len_app, Len_repeat. unfold interleave, bitset.Len.
  rewrite (Permutation_length_concat _ _
             (interleave_columns_Permutation (map dataCodewordsOf blks) _ (le_n _))).
  rewrite (Permutation_length_concat _ _
             (interleave_columns_Permutation (map ecCodewordsOf blks) _ (le_n _))).
  rewrite (length_ecCodewords_blocks blks Hrs Hwhole).
  unfold blks at 2. rewrite snd_splitAt, (sum_snd_shapes _ Hwf).
  unfold blks. change 0 with (Z.of_nat 0) at 1.
  rewrite dataCodewords_splitAt; auto; [|cbn [Z.of_nat]; rewrite Hsum; lia].
  cbn [skipn]. rewrite Hsum.
  unfold bitset.Len in Hlen. rewrite length_concat_codewords by lia.
  unfold totalCodewords. rewrite totalCodewords_sum. lia.
Qed.

Lemma splitGroup_short (d : Bitset) (g : block) (n : nat) :
  forall done k e s0,
    0 <= numDataCodewords g ->
    0 <= e <= bitset.Len d ->
    bitset.Len d < e + Z.of_nat n * (8 * numDataCodewords g) ->
    splitGroup d g n
      (mkSplit s0 e (Z.of_nat (length done)) (done ++ repeat dataBlock_zero (n + k)))
    = Panic msgSubstrRange.
Proof.
  induction n as [|n IH]; intros done k e s0 Hnd He Hlen; [lia|].
  cbn [splitGroup]. unfold splitStep. cbn [sp_end sp_blockID sp_block].
  destruct (Z_le_gt_dec (e + numDataCodewords g * 8) (bitset.Len d)) as [Hfit|Hout].
  - rewrite Substr_ok by lia. cbn [bind].
    replace (Z.of_nat (length done) <? 0) with false by (symmetry; apply Z.ltb_ge; lia).
    rewrite Nat2Z.id. cbn [Nat.add]. rewrite setBlock_app.
    set (x := mkDataBlock _ _).
    specialize (IH (done ++ [x]) k (e + numDataCodewords g * 8) e Hnd).
    rewrite length_app in IH. cbn [length] in IH.
    replace (Z.of_nat (length done) + 1) with (Z.of_nat (length done + 1)) by lia.
    rewrite <- app_assoc in IH. cbn [app] in IH. cbn [bind]. apply IH; lia.
  - unfold bitset.Substr.
    replace (bitset.Len d <? e + numDataCodewords g * 8) with true
      by (symmetry; apply Z.ltb_lt; lia).
    rewrite !orb_true_r. reflexivity.
Qed.

Lemma splitBlocks_short (d : Bitset) (groups : list block) :
  forall done k e s0,
    Forall wellFormedGroup groups ->
    0 <= e <= bitset.Len d ->
    bitset.Len d < e + 8 * dataCodewordsSum groups ->
    splitBlocks d groups
      (mkSplit s0 e (Z.of_nat (length done))
         (done ++ repeat dataBlock_zero (length (blockShapes groups) + k)))
    = Panic msgSubstrRange.
Proof.
  induction groups as [|g rest IH]; intros done k e s0 Hwf He Hlen;
    [cbn [dataCodewordsSum] in Hlen; lia|].
  inversion Hwf as [|? ? [Hn [Hd Hc]] Hwf']; subst.
  cbn [dataCodewordsSum] in Hlen.
  cbn [splitBlocks blockShapes flat_map]. fold (blockShapes rest).
  set (n := Z.to_nat (numBlocks g)).
  assert (Hn' : Z.of_nat n = numBlocks g) by (unfold n; lia).
  rewrite length_app, repeat_length, <- Nat.add_assoc.
  destruct (Z_le_gt_dec (e + Z.of_nat n * (8 * numDataCodewords g)) (bitset.Len d))
    as [Hfit|Hout].
  - destruct (splitGroup_spec d g n done (length (blockShapes rest) + k) e s0 Hd
                (proj1 He) Hfit) as (s1 & Hrun).
    rewrite Hrun. cbn [bind].
    set (shape := (numDataCodewords g, numCodewords g - numDataCodewords g)).
    set (done' := done ++ map toDataBlock (splitAt d e (repeat shape n))).
    assert (Hlen' : length done' = (length done + n)%nat).
    { unfold done'. rewrite length_app, length_map.
      f_equal. clear. revert e. induction n as [|n IHn]; intros e; [reflexivity|].
      unfold shape in *. cbn [repeat splitAt length]. now rewrite IHn. }
    rewrite <- Hlen'. apply IH; auto; nia.
  - rewrite splitGroup_short; auto; lia.
Qed.

(** X13.  With fewer bits in the data buffer than the blocks of the version take,
    encodeBlocks panics in Substr. *)
Theorem encodeBlocks_short_data_panics (q : QRCode) (d : Bitset) :
  data q = Some d ->
  Forall wellFormedGroup (v_block (q_version q)) ->
  bitset.Len d < numDataBits (q_version q) ->
  encodeBlocks q = Panic msgSubstrRange.
Proof.
  intros Hd Hwf Hlen. unfold encodeBlocks.
  rewrite (numBlocks_shapes _ Hwf).
  replace (_ <? 0) with false by (symmetry; apply Z.ltb_ge; lia).
  rewrite Hd, Nat2Z.id.
  unfold numDataBits in Hlen. rewrite numDataCodewordsTotal_sum in Hlen.
  pose proof (splitBlocks_short d (v_block (q_version q)) [] 0%nat 0 0 Hwf) as Hsplit.
  cbn [app length Nat.add Z.of_nat] in Hsplit. rewrite Nat.add_0_r in Hsplit.
  rewrite Hsplit; [reflexivity| |lia].
  pose proof (Len_nonneg d). lia.
Qed.

End MoreBlocksTheorems.

(** ** The text and the image *)

Section RenderingFacts.

Context `{C : Collaborators}.

Lemma append_assoc (a b c : string) : ((a ++ b) ++ c = a ++ (b ++ c))%string.
Proof. induction a as [|x a IH]; cbn; [reflexivity|now rewrite IH]. Qed.

Lemma append_nil_r (a : string) : (a ++ "" = a)%string.
Proof. induction a as [|x a IH]; cbn; [reflexivity|now rewrite IH]. Qed.

Lemma writeModule_buf (inv : bool) (buf : string) (v : bool) :
  writeModule inv buf v = (buf ++ writeModule inv EmptyString v)%string.
Proof. unfold writeModule. now destruct (negb (Bool.eqb v inv)). Qed.

Lemma fold_writeModule (inv : bool) (row : list bool) :
  forall buf,
    fold_left (writeModule inv) row buf
    = (buf ++ fold_left (writeModule inv) row EmptyString)%string.
Proof.
  induction row as [|v row IH]; intros buf; cbn [fold_left].
  - now rewrite append_nil_r.
  - rewrite IH, (IH (writeModule inv EmptyString v)), writeModule_buf. apply append_assoc.
Qed.

Lemma fold_writeRow (inv : bool) (bits : list (list bool)) :
  forall buf,
    fold_left (writeRow inv) bits buf
    = (buf ++ fold_left (writeRow inv) bits EmptyString)%string.
Proof.
  induction bits as [|row bits IH]; intros buf; cbn [fold_left].
  - now rewrite append_nil_r.
  - rewrite IH, (IH (writeRow inv EmptyString row)). unfold writeRow.
    rewrite (fold_writeModule inv row buf), <- !append_assoc. reflexivity.
Qed.

Lemma rowText_cons (inv : bool) (v : bool) (row : list bool) :
  fold_left (writeModule inv) (v :: row) EmptyString
  = (writeModule inv EmptyString v ++ fold_left (writeModule inv) row EmptyString)%string.
Proof. cbn [fold_left]. apply fold_writeModule. Qed.

Lemma text_cons (inv : bool) (row : list bool) (bits : list (list bool)) :
  fold_left (writeRow inv) (row :: bits) EmptyString
  = (fold_left (writeModule inv) row EmptyString
     ++ newline ++ fold_left (writeRow inv) bits EmptyString)%string.
Proof.
  cbn [fold_left]. rewrite fold_writeRow. unfold writeRow. apply append_assoc.
Qed.

Lemma row_injective (inv : bool) (row1 : list bool) :
  forall row2 t1 t2,
    (fold_left (writeModule inv) row1 EmptyString ++ newline ++ t1
     = fold_left (writeModule inv) row2 EmptyString ++ newline ++ t2)%string ->
    row1 = row2 /\ t1 = t2.
Proof.
  induction row1 as [|v1 row1 IH]; intros [|v2 row2] t1 t2.
  - cbn. intros [= ->]. auto.
  - rewrite rowText_cons. unfold writeModule. destruct (negb _); cbn; discriminate.
  - rewrite rowText_cons. unfold writeModule. destruct (negb _); cbn; discriminate.
  - rewrite !rowText_cons, !append_assoc. unfold writeModule.
    destruct v1, v2, inv; cbn; try discriminate; intros H; injection H as H;
      apply IH in H as [-> ->]; auto.
Qed.

Lemma text_injective (inv : bool) (bits1 : list (list bool)) :
  forall bits2,
    fold_left (writeRow inv) bits1 EmptyString = fold_left (writeRow inv) bits2 EmptyString ->
    bits1 = bits2.
Proof.
  induction bits1 as [|row1 bits1 IH]; intros [|row2 bits2].
  - reflexivity.
  - rewrite text_cons. cbn [fold_left]. intros H. exfalso.
    destruct (fold_left (writeModule inv) row2 EmptyString); discriminate.
  - rewrite text_cons. cbn [fold_left]. intros H. exfalso.
    destruct (fold_left (writeModule inv) row1 EmptyString); discriminate.
  - rewrite !text_cons. intros H. apply row_injective in H as [-> H].
    now rewrite (IH _ H).
Qed.

(** X14.  The text of ToString gives the bitmap back: two QR codes with the same
    text, for the same inverseColor, have the same bitmap. *)
Theorem ToString_determines_bitmap (q1 q2 : QRCode) (inverseColor : bool) (text : string) :
  ToString q1 inverseColor = Ok text ->
  ToString q2 inverseColor = Ok text ->
  Bitmap q1 = Bitmap q2.
Proof.
  unfold ToString.
  destruct (Bitmap q1) as [b1| | | |]; cbn [bind]; try discriminate.
  destruct (Bitmap q2) as [b2| | | |]; cbn [bind]; try discriminate.
  intros [= <-] [= H]. f_equal. symmetry. now apply text_injective in H.
Qed.

(** X15.  inverseColor swaps the two glyphs: the text for inverseColor is the
    text, for the other value, of the bitmap with every module inverted. *)
Theorem ToString_inverseColor (q : QRCode) (inverseColor : bool) :
  ToString q inverseColor
  = (bits <- Bitmap q ;;
     Ok (fold_left (writeRow (negb inverseColor)) (map (map negb) bits) EmptyString)).
Proof.
  unfold ToString. destruct (Bitmap q) as [bits| | | |]; cbn [bind]; try reflexivity.
  f_equal. generalize EmptyString.
  induction bits as [|row bits IH]; intros buf; cbn [fold_left map]; [reflexivity|].
  rewrite IH. f_equal. unfold writeRow. f_equal. clear.
  revert buf. induction row as [|v row IH]; intros buf; cbn [fold_left map]; [reflexivity|].
  rewrite IH. f_equal. unfold writeModule. now destruct v, inverseColor.
Qed.

End RenderingFacts.

Section LayoutFacts.

Context `{C : Collaborators}.

Variable symbol_size : symbol -> Z.

Lemma int_wrap_id (x : Z) : - 2 ^ 63 <= x < 2 ^ 63 -> int_wrap x = x.
Proof. intros H. unfold int_wrap. rewrite Z.mod_small; lia. Qed.

(** One axis of the layout: the size Image stores, the pixels of a module
    and the offset. *)
Lemma axis_layout (W R : Z) :
  - 2 ^ 63 <= W < 2 ^ 63 ->
  0 < R < 2 ^ 63 ->
  (W < 0 -> - W * R < 2 ^ 63) ->
  let W1 := if W <? 0 then int_mul (int_mul W (-1)) R else W in
  let W2 := if W1 <? R then R else W1 in
  exists ppm off,
    int_div W2 R = Ok ppm
    /\ int_div (int_sub W2 (int_mul R ppm)) 2 = Ok off
    /\ W2 = (if W <? 0 then - W * R else Z.max W R)
    /\ ppm = W2 / R
    /\ off = (W2 - R * ppm) / 2.
Proof.
  intros HW HR Hneg W1 W2.
  assert (HW1 : W1 = if W <? 0 then - W * R else W).
  { unfold W1. destruct (W <? 0) eqn:Hlt; [|reflexivity].
    apply Z.ltb_lt in Hlt. specialize (Hneg Hlt). unfold int_mul.
    rewrite (int_wrap_id (W * -1)) by nia. rewrite int_wrap_id by nia. lia. }
  assert (HW2 : W2 = if W <? 0 then - W * R else Z.max W R).
  { unfold W2. rewrite HW1. destruct (W <? 0) eqn:Hlt.
    - apply Z.ltb_lt in Hlt. replace (- W * R <? R) with false; [reflexivity|].
      symmetry. apply Z.ltb_ge. nia.
    - apply Z.ltb_ge in Hlt. destruct (W <? R) eqn:HWR;
        [apply Z.ltb_lt in HWR|apply Z.ltb_ge in HWR]; lia. }
  assert (Hrange : R <= W2 < 2 ^ 63).
  { rewrite HW2. destruct (W <? 0) eqn:Hlt.
    - apply Z.ltb_lt in Hlt. specialize (Hneg Hlt). nia.
    - lia. }
  clearbody W2. clear W1 HW1.
  assert (Hq : 1 <= W2 / R <= W2).
  { split; [apply Z.div_le_lower_bound; lia|].
    apply Z.div_le_upper_bound; nia. }
  pose proof (Z.mul_div_le W2 R ltac:(lia)) as Hle.
  pose proof (Z.mul_succ_div_gt W2 R ltac:(lia)) as Hgt.
  exists (W2 / R), ((W2 - R * (W2 / R)) / 2).
  unfold int_div, int_sub, int_mul.
  replace (R =? 0) with false by (symmetry; apply Z.eqb_neq; lia).
  rewrite Z.quot_div_nonneg by lia.
  rewrite (int_wrap_id (W2 / R)) by lia.
  rewrite (int_wrap_id (R * (W2 / R))) by lia.
  rewrite (int_wrap_id (W2 - R * (W2 / R))) by lia.
  cbn [Z.eqb]. rewrite Z.quot_div_nonneg by lia.
  assert (0 <= (W2 - R * (W2 / R)) / 2 <= W2).
  { split; [apply Z.div_pos; lia|]. apply Z.div_le_upper_bound; lia. }
  rewrite int_wrap_id by lia. repeat split; auto.
Qed.

End LayoutFacts.

Section LayoutTheorems.

Context `{C : Collaborators}.

Variable symbol_size : symbol -> Z.

Lemma Image_sizes (q : QRCode) (R : Z) :
  let q1 := if width q <? 0
            then with_width q (int_mul (int_mul (width q) (-1)) R) else q in
  let q2 := if height q1 <? 0
            then with_height q1 (int_mul (int_mul (height q1) (-1)) R) else q1 in
  let q3 := if width q2 <? R then with_width q2 R else q2 in
  let q4 := if height q3 <? R then with_height q3 R else q3 in
  width q4
  = (let W1 := if width q <? 0 then int_mul (int_mul (width q) (-1)) R else width q in
     if W1 <? R then R else W1)
  /\ height q4
     = (let H1 := if height q <? 0 then int_mul (int_mul (height q) (-1)) R else height q in
        if H1 <? R then R else H1)
  /\ with_width (with_height q4 0) 0 = with_width (with_height q 0) 0.
Proof.
  cbv zeta.
  destruct (width q <? 0); cbn [height with_width];
    destruct (height q <? 0); cbn [width height with_height with_width];
    repeat match goal with
           | |- context [if ?a <? R then _ else _] =>
               destruct (a <? R) eqn:?; cbn [width height with_height with_width] in *
           end;
    repeat split; try reflexivity; congruence.
Qed.

Lemma Image_layout_run (q : QRCode) (s : symbol) :
  q_symbol q = Some s ->
  0 < symbol_size s < 2 ^ 63 ->
  - 2 ^ 63 <= width q < 2 ^ 63 ->
  - 2 ^ 63 <= height q < 2 ^ 63 ->
  (width q < 0 -> - width q * symbol_size s < 2 ^ 63) ->
  (height q < 0 -> - height q * symbol_size s < 2 ^ 63) ->
  let R := symbol_size s in
  let W := if width q <? 0 then - width q * R else Z.max (width q) R in
  let H := if height q <? 0 then - height q * R else Z.max (height q) R in
  exists q',
    Image_layout symbol_size q
    = Ok (q', mkLayout (W / R) (H / R) ((W - R * (W / R)) / 2) ((H - R * (H / R)) / 2))
    /\ width q' = W /\ height q' = H
    /\ with_width (with_height q' 0) 0 = with_width (with_height q 0) 0.
Proof.
  intros Hs HR HW HH HnW HnH R W H.
  destruct (axis_layout (width q) R HW HR HnW) as (px & ox & Hpx & Hox & HW2 & -> & ->).
  destruct (axis_layout (height q) R HH HR HnH) as (py & oy & Hpy & Hoy & HH2 & -> & ->).
  fold W in HW2. fold H in HH2.
  destruct (Image_sizes q R) as (Hw4 & Hh4 & Hrest).
  unfold Image_layout. rewrite Hs. fold R. cbv zeta in *.
  match goal with
  | |- context [int_div (width ?q4) R] => exists q4; set (q' := q4) in *
  end.
  clearbody q'. rewrite <- Hw4 in Hpx, Hox, HW2. rewrite <- Hh4 in Hpy, Hoy, HH2.
  rewrite Hpx. cbn [bind]. rewrite Hpy. cbn [bind].
  rewrite Hox. cbn [bind]. rewrite Hoy. cbn [bind].
  rewrite HW2, HH2. repeat split; auto.
Qed.

(** X16.  Image makes the image at least as large as the symbol, draws every
    module as a rectangle of whole pixels, as large as fits, and centres
    the symbol to within a pixel. *)
Theorem Image_layout_centres_symbol (q : QRCode) (s : symbol) :
  q_symbol q = Some s ->
  0 < symbol_size s < 2 ^ 63 ->
  - 2 ^ 63 <= width q < 2 ^ 63 ->
  - 2 ^ 63 <= height q < 2 ^ 63 ->
  (width q < 0 -> - width q * symbol_size s < 2 ^ 63) ->
  (height q < 0 -> - height q * symbol_size s < 2 ^ 63) ->
  exists q' l,
    Image_layout symbol_size q = Ok (q', l)
    /\ (symbol_size s <= width q -> width q' = width q)
    /\ (symbol_size s <= height q -> height q' = height q)
    /\ 1 <= pixelsPerModuleX l
    /\ 1 <= pixelsPerModuleY l
    /\ symbol_size s * pixelsPerModuleX l <= width q'
       < symbol_size s * (pixelsPerModuleX l + 1)
    /\ symbol_size s * pixelsPerModuleY l <= height q'
       < symbol_size s * (pixelsPerModuleY l + 1)
    /\ 0 <= offsetX l
    /\ 0 <= offsetY l
    /\ 0 <= width q' - (2 * offsetX l + symbol_size s * pixelsPerModuleX l) <= 1
    /\ 0 <= height q' - (2 * offsetY l + symbol_size s * pixelsPerModuleY l) <= 1.
Proof.
  intros Hs HR HW HH HnW HnH.
  destruct (Image_layout_run q s Hs HR HW HH HnW HnH) as (q' & Hrun & Hw & Hh & _).
  cbv zeta in *.
  set (R := symbol_size s) in *.
  set (W := if width q <? 0 then _ else _) in *.
  set (H := if height q <? 0 then _ else _) in *.
  assert (HWR : R <= W /\ (R <= width q -> W = width q)).
  { unfold W. destruct (width q <? 0) eqn:E;
      [apply Z.ltb_lt in E|apply Z.ltb_ge in E]; split; try nia; lia. }
  assert (HHR : R <= H /\ (R <= height q -> H = height q)).
  { unfold H. destruct (height q <? 0) eqn:E;
      [apply Z.ltb_lt in E|apply Z.ltb_ge in E]; split; try nia; lia. }
  clearbody W H.
  eexists q', _. split; [exact Hrun|]. cbn [pixelsPerModuleX pixelsPerModuleY offsetX offsetY].
  rewrite Hw, Hh.
  pose proof (Z.mul_div_le W R ltac:(lia)).
  pose proof (Z.mul_succ_div_gt W R ltac:(lia)).
  pose proof (Z.mul_div_le H R ltac:(lia)).
  pose proof (Z.mul_succ_div_gt H R ltac:(lia)).
  assert (1 <= W / R) by (apply Z.div_le_lower_bound; lia).
  assert (1 <= H / R) by (apply Z.div_le_lower_bound; lia).
  pose proof (Z.mul_div_le (W - R * (W / R)) 2 ltac:(lia)).
  pose proof (Z.mul_succ_div_gt (W - R * (W / R)) 2 ltac:(lia)).
  pose proof (Z.mul_div_le (H - R * (H / R)) 2 ltac:(lia)).
  pose proof (Z.mul_succ_div_gt (H - R * (H / R)) 2 ltac:(lia)).
  assert (0 <= (W - R * (W / R)) / 2) by (apply Z.div_pos; lia).
  assert (0 <= (H - R * (H / R)) / 2) by (apply Z.div_pos; lia).
  repeat split; try tauto; try lia.
Qed.


(** X18.  Image writes the sizes it has computed back into q; a second call
    computes the same sizes and the same layout. *)
Theorem Image_layout_idempotent (q q' : QRCode) (s : symbol) (l : imageLayout) :
  q_symbol q = Some s ->
  0 < symbol_size s ->
  Image_layout symbol_size q = Ok (q', l) ->
  Image_layout symbol_size q' = Ok (q', l).
Proof.
  intros Hs HR. unfold Image_layout at 1. rewrite Hs. cbv zeta.
  set (R := symbol_size s) in *.
  set (q1 := if width q <? 0 then _ else q).
  set (q2 := if height q1 <? 0 then _ else q1).
  set (q3 := if width q2 <? R then _ else q2).
  set (q4 := if height q3 <? R then _ else q3).
  assert (Hsym : q_symbol q4 = Some s).
  { unfold q4, q3, q2, q1.
    repeat match goal with |- context [if ?b then _ else _] => destruct b end;
      exact Hs. }
  assert (Hw : R <= width q4).
  { unfold q4. assert (R <= width q3).
    { unfold q3. destruct (width q2 <? R) eqn:E; [cbn; lia|now apply Z.ltb_ge in E]. }
    destruct (height q3 <? R); [cbn [width with_height]|]; assumption. }
  assert (Hh : R <= height q4).
  { unfold q4. destruct (height q3 <? R) eqn:E; [cbn; lia|now apply Z.ltb_ge in E]. }
  clearbody q4. clear q1 q2 q3.
  intros Hrun.
  assert (Hq' : q' = q4).
  { destruct (int_div (width q4) R); cbn [bind] in Hrun; try discriminate.
    destruct (int_div (height q4) R); cbn [bind] in Hrun; try discriminate.
    destruct (int_div _ 2); cbn [bind] in Hrun; try discriminate.
    destruct (int_div _ 2); cbn [bind] in Hrun; try discriminate.
    now injection Hrun. }
  subst q'. unfold Image_layout. rewrite Hsym. cbv zeta. fold R.
  replace (width q4 <? 0) with false by (symmetry; apply Z.ltb_ge; lia).
  replace (height q4 <? 0) with false by (symmetry; apply Z.ltb_ge; lia).
  replace (width q4 <? R) with false by (symmetry; apply Z.ltb_ge; lia).
  replace (height q4 <? R) with false by (symmetry; apply Z.ltb_ge; lia).
  exact Hrun.
Qed.

(** X19.  Image panics on a QRCode without a symbol, and divides by zero on a
    symbol of size 0. *)
Theorem Image_layout_panics (q : QRCode) :
  (q_symbol q = None -> Image_layout symbol_size q = Panic msgNilDereference)
  /\ (forall s, q_symbol q = Some s -> symbol_size s = 0 ->
                Image_layout symbol_size q = Panic msgDivideByZero)
  /\ (forall s, q_symbol q = Some s -> symbol_size s <> 0 ->
                exists r, Image_layout symbol_size q = Ok r).
Proof.
  unfold Image_layout. repeat split.
  - now intros ->.
  - intros s -> ->. cbv zeta. unfold int_div at 1. reflexivity.
  - intros s -> HR. cbv zeta. unfold int_div.
    replace (symbol_size s =? 0) with false by (symmetry; now apply Z.eqb_neq).
    cbn [bind Z.eqb]. eauto.
Qed.

End LayoutTheorems.

(** ** The properties at concrete inputs *)

Lemma New_hello_world_returns :
  exists q' : QRCode (C := core), New "HELLO WORLD" [] = Ok q'.
Proof. apply isOk_inv. vm_compute. reflexivity. Qed.

Lemma Set_last_option_wins_witness :
  width (QRCode_Set (C := core) (QRCode_literal "HELLO WORLD")
           ([Width 1] ++ Width 2 :: [Height 3])) = 2.
Proof.
  apply (proj1 (Set_last_option_wins (C := core) (QRCode_literal "HELLO WORLD")
                  [Width 1] [Height 3])).
  intros o [<-|[]] x. reflexivity.
Defined.

Lemma QuitZoneSize_option_has_no_effect_witness :
  New (C := core) "HELLO WORLD" ([Width 256] ++ QuitZoneSize 10 :: [Level High])
  = New (C := core) "HELLO WORLD" ([Width 256] ++ [Level High]).
Proof.
  apply (QuitZoneSize_option_has_no_effect (C := core) "HELLO WORLD" 10 [Width 256]
           [Level High]).
  repeat constructor.
Defined.

Lemma Bitmap_of_New_witness :
  exists (q' : QRCode (C := core)) s,
    New "HELLO WORLD" [] = Ok q' /\ q_symbol q' = Some s /\ Bitmap q' = Ok (bitmap s).
Proof.
  destruct New_hello_world_returns as [q' Hnew].
  destruct (Bitmap_of_New (C := core) "HELLO WORLD" [] q' Hnew) as (s & Hs & Hb).
  exists q', s. auto.
Defined.

Lemma New_result_is_consistent_witness :
  exists q' : QRCode (C := core),
    New "HELLO WORLD" [] = Ok q'
    /\ VersionNumber q' = version (q_version q')
    /\ exists d, data q' = Some d /\ bitset.Len d = numDataBits (q_version q').
Proof.
  destruct New_hello_world_returns as [q' Hnew].
  destruct (proj1 (New_result_is_consistent (C := core) "HELLO WORLD") [] q' Hnew)
    as (Hv & _ & _ & _ & _ & _ & _ & _ & Hd).
  exists q'. auto.
Defined.

Lemma addPadding_idempotent_witness :
  exists q' : QRCode (C := core),
    addPadding helloPadded = Ok q' /\ addPadding q' = Ok q'.
Proof.
  destruct (isOk_inv (addPadding helloPadded)) as [q' Hq]; [vm_compute; reflexivity|].
  exists q'. split; [exact Hq|]. exact (addPadding_idempotent helloPadded q' Hq).
Defined.

Lemma New_error_witness :
  (forall t, In t encoders ->
             rejects (C := core) Low (list_byte_of_string (replicate 3000 "a")) t)
  /\ errContentTooLong
     = match @dataEncoder_encode core dataEncoderType27To40
               (list_byte_of_string (replicate 3000 "a")) with
       | Err e' => e'
       | _ => errContentTooLong
       end.
Proof.
  exact (proj1 (New_error (C := core) (replicate 3000 "a") [Level Low] errContentTooLong)
           New_3000_bytes_too_long).
Defined.

(** Thirty bytes do not fit version 1 at level L. *)
Lemma newWithForcedVersion_too_small_panics_witness :
  newWithForcedVersion (C := core) (replicate 30 "a") 1 Low = Panic msgPaddingLength.
Proof.
  destruct (isOk_inv (@dataEncoder_encode core dataEncoderType1To9
                        (list_byte_of_string (replicate 30 "a")))) as [encoded Henc];
    [vm_compute; reflexivity|].
  destruct (isSome_inv (getQRCodeVersion (C := core) Low 1)) as [cv Hcv];
    [vm_compute; reflexivity|].
  apply (newWithForcedVersion_too_small_panics (C := core) (replicate 30 "a") 1 Low
           dataEncoderType1To9 encoded cv); auto.
  assert (H : match getQRCodeVersion (C := core) Low 1 with
              | Some v =>
                  match @dataEncoder_encode core dataEncoderType1To9
                          (list_byte_of_string (replicate 30 "a")) with
                  | Ok e => numDataBits v <? bitset.Len e
                  | _ => false
                  end
              | None => false
              end = true) by (vm_compute; reflexivity).
  rewrite Hcv, Henc in H. now apply Z.ltb_lt.
Defined.

Lemma New_data_extends_encoding_witness :
  exists (q' : QRCode (C := core)) t encoded (zeros n : nat),
    New "HELLO WORLD" [] = Ok q'
    /\ In t encoders
    /\ encoder q' = Some t
    /\ @dataEncoder_encode core t (list_byte_of_string "HELLO WORLD") = Ok encoded
    /\ data q' = Some (encoded ++ repeat false zeros ++ padCodewords n).
Proof.
  destruct New_hello_world_returns as [q' Hnew].
  destruct (New_data_extends_encoding (C := core) "HELLO WORLD" [] q' Hnew)
    as (t & encoded & zeros & n & Hin & He & Henc & Hd & _).
  exists q', t, encoded, zeros, n. auto.
Defined.

Lemma New_encoding_depends_on_level_and_margin_witness :
  mapOutcome encodingOf (New (C := core) "HELLO WORLD" [Level High; Width 10])
  = mapOutcome encodingOf (New (C := core) "HELLO WORLD" [Height 3; Level High]).
Proof.
  apply (New_encoding_depends_on_level_and_margin (C := core) "HELLO WORLD"
           [Level High; Width 10] [Height 3; Level High]);
    try reflexivity; repeat constructor.
Defined.

Lemma encodeBlocks_keeps_every_codeword_witness :
  exists dataPart ecPart : list Bitset,
    encodeBlocks unequalBlocks = Ok (concat dataPart ++ concat ecPart ++ [])
    /\ Permutation dataPart
         (codewords 46 (reedsolomon.bytesToBits (map Z.of_nat (seq 1 46)))).
Proof.
  destruct (encodeBlocks_keeps_every_codeword (C := core) unequalBlocks
              (reedsolomon.bytesToBits (map Z.of_nat (seq 1 46))))
    as (dataPart & ecPart & Hrun & Hdata & _).
  - reflexivity.
  - repeat constructor; cbn; lia.
  - apply Z.leb_le. vm_compute. reflexivity.
  - exact reedsolomon_facts.Encode_appends.
  - exists dataPart, ecPart. split; [exact Hrun|exact Hdata].
Defined.

Lemma encodeBlocks_length_witness :
  exists encoded : Bitset,
    encodeBlocks unequalBlocks = Ok encoded /\ bitset.Len encoded = 8 * 134.
Proof.
  destruct (isOk_inv (encodeBlocks unequalBlocks)) as [encoded Henc];
    [vm_compute; reflexivity|].
  exists encoded. split; [exact Henc|].
  apply (encodeBlocks_length (C := core) unequalBlocks
           (reedsolomon.bytesToBits (map Z.of_nat (seq 1 46))) encoded).
  - reflexivity.
  - repeat constructor; cbn; lia.
  - apply Z.leb_le. vm_compute. reflexivity.
  - exact reedsolomon_facts.Encode_appends.
  - exact Henc.
Defined.

Lemma encodeBlocks_short_data_panics_witness :
  encodeBlocks (with_data shortQR (Some (repeat true 100))) = Panic msgSubstrRange.
Proof.
  apply (encodeBlocks_short_data_panics (C := core)
           (with_data shortQR (Some (repeat true 100))) (repeat true 100)).
  - reflexivity.
  - repeat constructor; cbn; lia.
  - apply Z.ltb_lt. vm_compute. reflexivity.
Defined.

Lemma ToString_determines_bitmap_witness :
  exists text,
    ToString smallQR false = Ok text
    /\ Bitmap smallQR = Bitmap (with_width smallQR 5).
Proof.
  eexists. split; [reflexivity|].
  eapply (ToString_determines_bitmap (C := core) smallQR (with_width smallQR 5) false);
    reflexivity.
Defined.

Lemma Image_layout_centres_symbol_witness :
  exists q' l,
    Image_layout symbols.size fixedQR = Ok (q', l)
    /\ width q' = 10 /\ height q' = 7
    /\ pixelsPerModuleX l = 3 /\ pixelsPerModuleY l = 2
    /\ offsetX l = 0 /\ offsetY l = 0.
Proof.
  destruct (Image_layout_centres_symbol (C := core) symbols.size fixedQR smallSymbol)
    as (q' & l & Hrun & Hw & Hh & Hx1 & Hy1 & Hx & Hy & Hox & Hoy & Hcx & Hcy);
    try reflexivity; try (cbn; lia).
  exists q', l. split; [exact Hrun|].
  change (symbols.size smallSymbol) with 3 in *.
  change (width fixedQR) with 10 in *. change (height fixedQR) with 7 in *.
  rewrite (Hw ltac:(lia)), (Hh ltac:(lia)) in *. repeat split; lia.
Defined.


Lemma Image_layout_idempotent_witness :
  exists q' l,
    Image_layout symbols.size smallQR = Ok (q', l)
    /\ Image_layout symbols.size q' = Ok (q', l).
Proof.
  eexists. eexists. split; [reflexivity|].
  eapply (Image_layout_idempotent (C := core) symbols.size smallQR _ smallSymbol);
    [reflexivity|reflexivity|reflexivity].
Defined.

Lemma Image_layout_panics_witness :
  Image_layout symbols.size shortQR = Panic msgNilDereference
  /\ Image_layout (fun _ => 0) smallQR = Panic msgDivideByZero.
Proof.
  split.
  - apply (proj1 (Image_layout_panics (C := core) symbols.size shortQR)). reflexivity.
  - apply (proj1 (proj2 (Image_layout_panics (C := core) (fun _ => 0) smallQR)) smallSymbol);
      reflexivity.
Defined.
